(** * The epistle registry of the rhizome [epistles] plugin

    A shallow embedding of [.rhizome/plugins/epistles/epistles_commands.py]:
    the line-delimited registry store ([_load_registry], [_save_registry]) and
    the record operations built on it ([cmd_epistle_new], [cmd_epistle_list],
    [cmd_epistle_show], [cmd_epistle_search], [cmd_epistle_add_context]).

    Modelling choices.
    - Python [str] values are [string]s (the UTF-8 text of the value).
      [str.split], [str.replace], [str.startswith], [str.join], [==] and the
      order [>=] are written out; [str.strip] strips the characters of
      [str.isspace], those beyond ASCII too.
    - [str.lower], [json.dumps] and [json.loads] belong to Python's library:
      the model takes them from the class [PyLib].  [ascii_lib] is an
      instance: ASCII lower-casing and a JSON printer and reader for the
      registry's records.
    - A registry entry is the ten-key dictionary [cmd_epistle_new] builds,
      a record here.
    - The epistle directory is a finite map from file names to file texts;
      [registry.ndjson] is one of its files.
    - The wall clock and the failures of the file system are inputs: a
      [clock] holds the three readings [cmd_epistle_new] makes, a [fault]
      says whether and where an [open]/[read]/[write]/[close] raises.
    - Files are opened in text mode: reading translates CR LF and CR to
      LF, writing leaves LF as it is. *)

From Stdlib Require Import String Ascii List ZArith Lia Bool Sorted.
From stdpp Require Import base option list gmap strings pretty.
Import ListNotations.


(** ** Python string operations *)

Module PyStr.

Definition LF : ascii := "010"%char.
Definition CR : ascii := "013"%char.
Definition nl : string := String LF "".

(** The white space of [str.isspace] below U+0080: TAB, LF, VT, FF, CR,
    FS, GS, RS, US and the space. *)
Definition isspace (c : ascii) : bool :=
  let n := nat_of_ascii c in
  ((9 <=? n) && (n <=? 13)) || ((28 <=? n) && (n <=? 32)).

(** The white space of [str.isspace] from U+0080 on, as the bytes of its
    UTF-8 text: U+0085 and U+00A0 take two bytes, U+1680, U+2000 to U+200A,
    U+2028, U+2029, U+202F, U+205F and U+3000 take three. *)
Definition isspace2 (a b : ascii) : bool :=
  let y := N_of_ascii b in
  (N_of_ascii a =? 194)%N && ((y =? 133) || (y =? 160))%N.

Definition isspace3 (a b c : ascii) : bool :=
  let x := N_of_ascii a in
  let y := N_of_ascii b in
  let z := N_of_ascii c in
  ((x =? 225) && (y =? 154) && (z =? 128))%N
  || ((x =? 226) && (y =? 128)
      && (((128 <=? z) && (z <=? 138)) || (z =? 168) || (z =? 169) || (z =? 175)))%N
  || ((x =? 226) && (y =? 129) && (z =? 159))%N
  || ((x =? 227) && (y =? 128) && (z =? 128))%N.

(** [lstrip]: the white-space characters at the start are dropped, one,
    two or three bytes at a time. *)
Fixpoint lstrip (s : string) : string :=
  match s with
  | String a s1 =>
      if isspace a then lstrip s1
      else
        match s1 with
        | String b s2 =>
            if isspace2 a b then lstrip s2
            else
              match s2 with
              | String c s3 => if isspace3 a b c then lstrip s3 else s
              | EmptyString => s
              end
        | EmptyString => s
        end
  | EmptyString => EmptyString
  end.

(** [rstrip]: a text of white space only becomes empty; any other text
    keeps its first byte, and what follows is stripped in the same way. *)
Fixpoint rstrip (s : string) : string :=
  match s with
  | String c s' =>
      match lstrip s with
      | EmptyString => EmptyString
      | _ => String c (rstrip s')
      end
  | EmptyString => EmptyString
  end.

Definition strip (s : string) : string := rstrip (lstrip s).

(** [s.split(sep)] for a one-character separator. *)
Fixpoint split (sep : ascii) (s : string) : list string :=
  match s with
  | EmptyString => [EmptyString]
  | String c s' =>
      if Ascii.eqb c sep then EmptyString :: split sep s'
      else match split sep s' with
           | h :: t => String c h :: t
           | [] => [String c EmptyString]
           end
  end.

(** [s.replace(a, b)] for one-character [a] and [b]. *)
Fixpoint replace (a b : ascii) (s : string) : string :=
  match s with
  | EmptyString => EmptyString
  | String c s' => String (if Ascii.eqb c a then b else c) (replace a b s')
  end.

(** [sep.join(l)] *)
Definition join (sep : string) (l : list string) : string := String.concat sep l.

(** [s.startswith(p)] *)
Definition startswith (s p : string) : bool := String.prefix p s.

(** [a >= b], the order of the code points. *)
Definition ge (a b : string) : bool := String.leb b a.

(** Truth value of a string: non-empty. *)
Definition truthy (s : string) : bool :=
  match s with EmptyString => false | _ => true end.

(** Iterating a file opened in text mode: the lines with their
    terminator, every one of CR LF, CR and LF read as LF (universal
    newlines). *)
Fixpoint readlines (s : string) : list string :=
  match s with
  | EmptyString => []
  | String c s' =>
      if Ascii.eqb c LF then nl :: readlines s'
      else if Ascii.eqb c CR then
        match s' with
        | String c' s'' => if Ascii.eqb c' LF then nl :: readlines s''
                          else nl :: readlines s'
        | EmptyString => [nl]
        end
      else match readlines s' with
           | h :: t => String c h :: t
           | [] => [String c EmptyString]
           end
  end.

(** [f.read()] on a file opened in text mode: every CR LF and every
    other CR of the file is read as LF (universal newlines). *)
Fixpoint translate_newlines (s : string) : string :=
  match s with
  | EmptyString => EmptyString
  | String c s' =>
      if Ascii.eqb c CR then
        match s' with
        | String c' s'' =>
            if Ascii.eqb c' LF then String LF (translate_newlines s'')
            else String LF (translate_newlines s')
        | EmptyString => nl
        end
      else String c (translate_newlines s')
  end.

(** Lower-casing of the ASCII letters. *)
Definition lower_char (c : ascii) : ascii :=
  let n := nat_of_ascii c in
  if (65 <=? n) && (n <=? 90) then ascii_of_nat (n + 32) else c.

Fixpoint ascii_lower (s : string) : string :=
  match s with
  | EmptyString => EmptyString
  | String c s' => String (lower_char c) (ascii_lower s')
  end.

(** A text without line terminators. *)
Fixpoint one_line (s : string) : bool :=
  match s with
  | EmptyString => true
  | String c s' => negb (Ascii.eqb c LF) && negb (Ascii.eqb c CR) && one_line s'
  end.

End PyStr.

(** ** Records and the Python library *)

(** A registry entry: the dictionary built by [cmd_epistle_new]. *)
Record epistle := Epistle {
  id : string;
  date : string;
  personas : list string;
  topic : string;
  prompted_by : option string;
  file : string;
  status : string;
  references : list string;
  context : list string;
  keywords : list string
}.

(** [str.lower()], [json.dumps(ep, ensure_ascii=False)] and
    [json.loads(line)]; [loads] is [None] where [json.loads] raises.  The
    registry is taken to hold epistle dictionaries: a line with another JSON
    value is outside the model. *)
Class PyLib := {
  lower : string → string;
  dumps : epistle → string;
  loads : string → option epistle
}.

(** What the registry needs of [json]: a record printed is read back, the
    text of a record is one line between braces, and a text that stops
    before the closing brace is not read. *)
Class JsonContract `{PyLib} : Prop := {
  loads_dumps : ∀ ep, loads (dumps ep) = Some ep;
  dumps_one_line : ∀ ep, PyStr.one_line (dumps ep) = true;
  dumps_braces : ∀ ep, ∃ body, dumps ep = "{" +:+ body +:+ "}";
  loads_cut : ∀ ep s rest, dumps ep = s +:+ rest → rest ≠ "" → loads s = None
}.

(** [x in l] on a list of strings. *)
Definition str_in (x : string) (l : list string) : bool :=
  existsb (String.eqb x) l.

(** ** The world: the epistle directory and the error stream *)

Record world := World {
  files : gmap string string;
  stderr : list string
}.

Definition registry_file : string := "registry.ndjson".

Definition set_file (name text : string) (w : world) : world :=
  {| files := <[name := text]> (files w); stderr := stderr w |}.

(** [print(msg, file=sys.stderr)] *)
Definition eprint (msg : string) (w : world) : world :=
  {| files := files w; stderr := stderr w ++ [msg] |}.

(** [os.path.exists] on a name of the epistle directory. *)
Definition path_exists (name : string) (w : world) : bool :=
  match files w !! name with Some _ => true | None => false end.

(** What the file system does to one [with open(...)] block: nothing,
    [open] raises, or the block raises later.  While a file is read,
    [FailsAfter k] raises at the read that follows the first [k]: a read
    is a line handed to the loop over the file, or the one [read()] of the
    whole text; a file with no more than [k] of them is read in full.
    While a file is written, the text goes through a buffer, and
    [FailsAfter k] raises when [k] bytes of it have reached the file: at a
    [write], at a flush or at [close], so also after every [write] has
    returned and in the middle of a line. *)
Inductive fault := NoFault | OpenFails | FailsAfter (k : nat).

(** [with open(name, 'w') as f: for c in chunks: f.write(c)] (line
    terminators are written as they are, as on POSIX).  Opening truncates
    the file; the boolean is [false] when an exception left the block, and
    the file then holds the bytes that reached it. *)
Definition write_file (ft : fault) (name : string) (chunks : list string)
    (w : world) : bool * world :=
  match ft with
  | NoFault => (true, set_file name (String.concat "" chunks) w)
  | OpenFails => (false, w)
  | FailsAfter k =>
      (false, set_file name (String.substring 0 k (String.concat "" chunks)) w)
  end.

(** [with open(name, 'r') as f: for line in f: ...]: the lines handed to
    the loop body, and [false] when the reading raised after them. *)
Definition read_file (ft : fault) (name : string) (w : world) : list string * bool :=
  match files w !! name with
  | None => ([], false)
  | Some text =>
      let lines := PyStr.readlines text in
      match ft with
      | NoFault => (lines, true)
      | OpenFails => ([], false)
      | FailsAfter k =>
          if (k <? length lines)%nat then (take k lines, false) else (lines, true)
      end
  end.

(** [with open(name, 'r') as f: f.read()]: the text of the file with its
    line terminators read as LF, or [None] when the block raised. *)
Definition read_text (ft : fault) (name : string) (w : world) : option string :=
  match files w !! name, ft with
  | Some text, NoFault => Some (PyStr.translate_newlines text)
  | Some text, FailsAfter (S _) => Some (PyStr.translate_newlines text)
  | _, _ => None
  end.

(** Outcomes of a call: a value, an exception that reaches the caller,
    or a loop that used up its fuel. *)
Inductive exn := SystemExit (code : Z).

Inductive outcome (A : Type) :=
  | Returns (a : A)
  | Raises (e : exn)
  | OutOfFuel.
Arguments Returns {A} a.
Arguments Raises {A} e.
Arguments OutOfFuel {A}.

Definition M (A : Type) : Type := world → outcome A * world.

Definition ret {A} (a : A) : M A := λ w, (Returns a, w).

Definition bind {A B} (m : M A) (k : A → M B) : M B := λ w,
  match m w with
  | (Returns a, w') => k a w'
  | (Raises e, w') => (Raises e, w')
  | (OutOfFuel, w') => (OutOfFuel, w')
  end.

(** [sys.exit(code)] *)
Definition sys_exit {A} (code : Z) : M A := λ w, (Raises (SystemExit code), w).

Definition print_err (msg : string) : M unit := λ w, (Returns (), eprint msg w).

Notation "'do' x <- m ; k" := (bind m (λ x, k))
  (at level 20, x name, m at level 100, k at level 200, only parsing).
Notation "'do_' m ; k" := (bind m (λ _, k))
  (at level 20, m at level 100, k at level 200, only parsing).

(** ** The registry store *)

Section Store.
Context `{PyLib}.

(** The body of [for line in f] in [_load_registry], over the lines read:
    the records appended so far, and [false] when [json.loads] raised. *)
Fixpoint load_lines (lines : list string) (epistles : list epistle)
    : list epistle * bool :=
  match lines with
  | [] => (epistles, true)
  | line :: rest =>
      let line := PyStr.strip line in
      if PyStr.truthy line then
        match loads line with
        | Some ep => load_lines rest (epistles ++ [ep])
        | None => (epistles, false)
        end
      else load_lines rest epistles
  end.

Definition _load_registry (ft : fault) : M (list epistle) := λ w,
  if path_exists registry_file w then
    let '(lines, read_ok) := read_file ft registry_file w in
    let '(epistles, parse_ok) := load_lines lines [] in
    if parse_ok && read_ok then (Returns epistles, w)
    else (Returns epistles, eprint "Error loading registry" w)
  else (Returns [], w).

(** The line [_save_registry] writes for a record. *)
Definition registry_line (ep : epistle) : string := dumps ep +:+ PyStr.nl.

Definition _save_registry (ft : fault) (epistles : list epistle) : M unit := λ w,
  let '(ok, w') := write_file ft registry_file (registry_line <$> epistles) w in
  if ok then (Returns (), w')
  else (Returns (), eprint "Error saving registry" w').

(** The records of the registry: what a load without failure returns. *)
Definition registry_of (w : world) : list epistle :=
  match (_load_registry NoFault w).1 with
  | Returns epistles => epistles
  | _ => []
  end.

(** A line the loop of [_load_registry] does not skip. *)
Definition nonblank (line : string) : bool := PyStr.truthy (PyStr.strip line).

End Store.

(** ** Record operations *)

(** The three clock readings of [cmd_epistle_new]:
    [time.strftime("%Y%m%dT%H%M%S")], [int(time.time())] and
    [time.strftime("%Y-%m-%d")]. *)
Record clock := Clock {
  strftime_stamp : string;
  time_time : Z;
  strftime_date : string
}.

(** The argparse namespaces of the sub-commands. *)
Module NewArgs.
Record t := Make {
  with_personas : string;
  topic : string;
  prompted_by : option string;
  context : option (list string);
  keywords : option string
}.
End NewArgs.

Module ListArgs.
Record t := Make {
  filter : option string;
  since : option string
}.
End ListArgs.

Module ContextArgs.
Record t := Make {
  epistle_id : string;
  context : option (list string)
}.
End ContextArgs.

(** The faults met by the file operations of one command, in the order
    the command performs them. *)
Record new_faults := NewFaults {
  nf_template : fault;
  nf_load : fault;
  nf_save : fault
}.

Definition no_faults : new_faults := NewFaults NoFault NoFault NoFault.

Definition _render_context (context_files : list string) : string :=
  match context_files with
  | [] => "[No context documents attached yet. Use `rhizome epistle add-context` to add them.]"
  | _ =>
      PyStr.join PyStr.nl
        (("**Referenced documents:**" +:+ PyStr.nl)
           :: ((λ cf, "- " +:+ cf) <$> context_files))
  end.

(** The text written by [_write_epistle_template]. *)
Definition epistle_template (ep : epistle) : string :=
  PyStr.join PyStr.nl [
    "# Epistle: " +:+ PyStr.join " â†” " (personas ep);
    "";
    "**ID**: " +:+ id ep;
    "**Date**: " +:+ date ep;
    "**Topic**: " +:+ topic ep;
    "**Prompted by**: " +:+
      match prompted_by ep with
      | Some p => if PyStr.truthy p then p else "self-initiated"
      | None => "self-initiated"
      end;
    "**Status**: " +:+ status ep;
    "";
    "## Context";
    "";
    _render_context (context ep);
    "";
    "## Dialog";
    "";
    "**" +:+ nth 0 (personas ep) "" +:+ ":**";
    "[Waiting for first message...]";
    "";
    "**" +:+ nth 1 (personas ep) "" +:+ ":**";
    "[Response...]";
    "";
    "## Outcome / Conclusions";
    "";
    "[To be filled as conversation develops]";
    "";
    "## Related Files & References";
    "";
    "- Registry entry: " +:+ id ep;
    "- Previous epistles: [add links here]";
    "- Implementation: [if applicable]";
    "";
    ""
  ].

Definition _write_epistle_template (ft : fault) (path : string) (ep : epistle)
    : M unit := λ w,
  let content := epistle_template ep in
  let '(ok, w') := write_file ft path [content] w in
  if ok then (Returns (), w')
  else (Returns (), eprint "Error writing epistle" w').

(** The [counter]-th file name tried by [cmd_epistle_new]: the base name
    for [0], the name with the suffix [_counter] after it. *)
Definition candidate (persona_slug timestamp : string) (counter : nat) : string :=
  match counter with
  | O => persona_slug +:+ "_" +:+ timestamp +:+ ".md"
  | S _ => persona_slug +:+ "_" +:+ timestamp +:+ "_" +:+ pretty counter +:+ ".md"
  end.

(** The [while (epistle_dir / unique_filename).exists()] loop. *)
Fixpoint unique_loop (fuel : nat) (w : world) (persona_slug timestamp : string)
    (counter : nat) (unique_filename : string) : option string :=
  match fuel with
  | O => None
  | S fuel' =>
      if path_exists unique_filename w then
        let counter := S counter in
        unique_loop fuel' w persona_slug timestamp counter
          (persona_slug +:+ "_" +:+ timestamp +:+ "_" +:+ pretty counter +:+ ".md")
      else Some unique_filename
  end.

(** The loop is run with one step more than there are files. *)
Definition unique_filename (w : world) (persona_slug timestamp : string)
    : option string :=
  unique_loop (S (size (files w))) w persona_slug timestamp 0
    (persona_slug +:+ "_" +:+ timestamp +:+ ".md").

Section Commands.
Context `{PyLib}.

Definition persona_slug (personas : list string) : string :=
  PyStr.join "_" ((λ p, PyStr.replace " " "-" (lower p)) <$> personas).

(** [cmd_epistle_new]; the value is the record it prints. *)
Definition cmd_epistle_new (io : new_faults) (clk : clock) (args : NewArgs.t)
    : M epistle :=
  let personas :=
    if PyStr.truthy (NewArgs.with_personas args)
    then PyStr.split "," (NewArgs.with_personas args) else [] in
  if (length personas <? 2)%nat then
    do_ print_err "Error: Need at least 2 personas (--with persona1,persona2)";
    sys_exit 1
  else
    let timestamp := strftime_stamp clk in
    let epistle_id := "epistle-" +:+ pretty (time_time clk) in
    let slug := persona_slug personas in
    λ w,
    match unique_filename w slug timestamp with
    | None => (OutOfFuel, w)
    | Some filename =>
        let epistle := {|
          id := epistle_id;
          date := strftime_date clk;
          personas := personas;
          topic := if PyStr.truthy (NewArgs.topic args)
                   then NewArgs.topic args else "Untitled";
          prompted_by := match NewArgs.prompted_by args with
                         | Some p => if PyStr.truthy p then Some p else None
                         | None => None
                         end;
          file := filename;
          status := "draft";
          references := [];
          context := default [] (NewArgs.context args);
          keywords := match NewArgs.keywords args with
                      | Some k => if PyStr.truthy k then PyStr.split "," k else []
                      | None => []
                      end
        |} in
        (do_ _write_epistle_template (nf_template io) filename epistle;
         do epistles <- _load_registry (nf_load io);
         do_ _save_registry (nf_save io) (epistles ++ [epistle]);
         ret epistle) w
    end.

(** [sorted(epistles, key=date, reverse=True)]: a stable sort, the
    dates descending. *)
Fixpoint insert_by_date (x : epistle) (l : list epistle) : list epistle :=
  match l with
  | [] => [x]
  | y :: l' =>
      if String.ltb (date x) (date y) then y :: insert_by_date x l' else x :: l
  end.

Definition sorted_by_date (l : list epistle) : list epistle :=
  foldr insert_by_date [] l.

(** The two filters of [cmd_epistle_list]. *)
Definition list_filter (args : ListArgs.t) (epistles : list epistle)
    : list epistle :=
  let epistles :=
    match ListArgs.filter args with
    | Some f =>
        if PyStr.truthy f
        then List.filter (λ e, str_in (lower f) (lower <$> personas e)) epistles
        else epistles
    | None => epistles
    end in
  match ListArgs.since args with
  | Some d =>
      if PyStr.truthy d
      then List.filter (λ e, PyStr.ge (date e) d) epistles
      else epistles
  | None => epistles
  end.

(** [cmd_epistle_list]; the value is the list of the rows printed. *)
Definition cmd_epistle_list (ft : fault) (args : ListArgs.t) : M (list epistle) :=
  do epistles <- _load_registry ft;
  ret (sorted_by_date (list_filter args epistles)).

(** The test of the lookup loop of [cmd_epistle_show]. *)
Definition show_match (target : string) (ep : epistle) : bool :=
  String.eqb (lower (id ep)) target || PyStr.startswith (lower (file ep)) target.

(** [cmd_epistle_show]; the value is the record found and the text
    printed, [None] when the document is missing or unreadable. *)
Definition cmd_epistle_show (ft_load ft_read : fault) (epistle_id : string)
    : M (epistle * option string) :=
  do epistles <- _load_registry ft_load;
  let target := lower epistle_id in
  match List.find (show_match target) epistles with
  | None =>
      do_ print_err ("Epistle '" +:+ epistle_id +:+ "' not found");
      sys_exit 1
  | Some epistle =>
      λ w,
      if path_exists (file epistle) w then
        match read_text ft_read (file epistle) w with
        | Some text => (Returns (epistle, Some text), w)
        | None => (Returns (epistle, None), eprint "Error reading epistle" w)
        end
      else
        (Returns (epistle, None),
         eprint ("Epistle file not found: " +:+ file epistle) w)
  end.

(** The loop over [args.context] in [cmd_epistle_add_context]. *)
Definition add_context (ctx paths : list string) : list string :=
  fold_left (λ ctx ctx_file, if str_in ctx_file ctx then ctx else ctx ++ [ctx_file])
    paths ctx.

Definition with_context (ep : epistle) (ctx : list string) : epistle :=
  {| id := id ep; date := date ep; personas := personas ep; topic := topic ep;
     prompted_by := prompted_by ep; file := file ep; status := status ep;
     references := references ep; context := ctx; keywords := keywords ep |}.

(** [cmd_epistle_add_context]: the record found is an element of the
    loaded list and is changed in place, so the list saved holds the new
    record at the same index. *)
Definition cmd_epistle_add_context (ft_load ft_save : fault) (args : ContextArgs.t)
    : M epistle :=
  do epistles <- _load_registry ft_load;
  let target := lower (ContextArgs.epistle_id args) in
  match list_find (λ ep, lower (id ep) = target) epistles with
  | None =>
      do_ print_err ("Epistle '" +:+ ContextArgs.epistle_id args +:+ "' not found");
      sys_exit 1
  | Some (i, epistle) =>
      let epistle :=
        match ContextArgs.context args with
        | Some paths => with_context epistle (add_context (context epistle) paths)
        | None => epistle
        end in
      do_ _save_registry ft_save (<[i := epistle]> epistles);
      ret epistle
  end.

(** The records List is to keep: those with a persona equal to the
    filter up to case, and with a date not before the lower bound; a
    filter that is absent or empty keeps every record. *)
Definition selected (args : ListArgs.t) (e : epistle) : Prop :=
  match ListArgs.filter args with
  | Some p => p ≠ "" → Exists (λ q, lower q = lower p) (personas e)
  | None => True
  end
  ∧ match ListArgs.since args with
    | Some d => d ≠ "" → String.leb d (date e) = true
    | None => True
    end.

#[export] Instance selected_dec (args : ListArgs.t) (e : epistle) :
  Decision (selected args e).
Proof.
  unfold selected. destruct (ListArgs.filter args), (ListArgs.since args); apply _.
Defined.

(** A sequence of Create calls, each with its faults, clock and
    arguments. *)
Fixpoint run_creates (calls : list (new_faults * clock * NewArgs.t)) (w : world)
    : world :=
  match calls with
  | [] => w
  | (io, clk, args) :: rest => run_creates rest (cmd_epistle_new io clk args w).2
  end.

(** A store whose registry names distinct files that all exist. *)
Definition store_consistent (w : world) : Prop :=
  NoDup (file <$> registry_of w)
  ∧ ∀ e, e ∈ registry_of w → file e ∈ dom (files w).

End Commands.

(** The paths of a list in the order they are first seen. *)
Fixpoint first_seen (l : list string) : list string :=
  match l with
  | [] => []
  | x :: l' => x :: filter (λ y, y ≠ x) (first_seen l')
  end.

(** ** Search *)

Module SearchArgs.
Record t := Make {
  topic : option string;
  personas : option string;
  keywords : option string
}.
End SearchArgs.

(** [needle in hay] on strings: [needle] occurs in [hay]. *)
Fixpoint str_contains (needle hay : string) : bool :=
  String.prefix needle hay
  || match hay with
     | String _ hay' => str_contains needle hay'
     | EmptyString => false
     end.

Section Search.
Context `{PyLib}.

(** The three filters of [cmd_epistle_search].  The keywords of the
    request are put in a [set] and only asked with [any]: the list of the
    pieces stands for it. *)
Definition search_filter (args : SearchArgs.t) (epistles : list epistle)
    : list epistle :=
  let epistles :=
    match SearchArgs.topic args with
    | Some t =>
        if PyStr.truthy t
        then List.filter (λ e, str_contains (lower t) (lower (topic e))) epistles
        else epistles
    | None => epistles
    end in
  let epistles :=
    match SearchArgs.personas args with
    | Some ps =>
        if PyStr.truthy ps then
          let search_personas := (λ p, lower (PyStr.strip p)) <$> PyStr.split "," ps in
          List.filter
            (λ e, existsb (λ p, str_in (lower p) search_personas) (personas e))
            epistles
        else epistles
    | None => epistles
    end in
  match SearchArgs.keywords args with
  | Some ks =>
      if PyStr.truthy ks then
        let keywords_ := PyStr.split "," ks in
        List.filter
          (λ e, existsb (λ k, str_in (lower k) (lower <$> keywords e)) keywords_)
          epistles
      else epistles
  | None => epistles
  end.

(** [cmd_epistle_search]; the value is the list of the rows printed. *)
Definition cmd_epistle_search (ft : fault) (args : SearchArgs.t)
    : M (list epistle) :=
  do epistles <- _load_registry ft;
  ret (search_filter args epistles).

(** The records Search is to keep, filter by filter; a filter that is
    absent or empty keeps every record. *)
Definition topic_found (t : string) (e : epistle) : Prop :=
  ∃ before after, lower (topic e) = before +:+ lower t +:+ after.

Definition persona_found (ps : string) (e : epistle) : Prop :=
  ∃ p name, p ∈ personas e ∧ name ∈ PyStr.split "," ps
            ∧ lower p = lower (PyStr.strip name).

Definition keyword_found (ks : string) (e : epistle) : Prop :=
  ∃ k kw, k ∈ PyStr.split "," ks ∧ kw ∈ keywords e ∧ lower k = lower kw.

Definition search_selected (args : SearchArgs.t) (e : epistle) : Prop :=
  match SearchArgs.topic args with
  | Some t => t ≠ "" → topic_found t e
  | None => True
  end
  ∧ match SearchArgs.personas args with
    | Some ps => ps ≠ "" → persona_found ps e
    | None => True
    end
  ∧ match SearchArgs.keywords args with
    | Some ks => ks ≠ "" → keyword_found ks e
    | None => True
    end.

(** The dictionary [cmd_epistle_new] builds, for the file name chosen. *)
Definition new_epistle (clk : clock) (args : NewArgs.t) (filename : string)
    : epistle := {|
  id := "epistle-" +:+ pretty (time_time clk);
  date := strftime_date clk;
  personas := PyStr.split "," (NewArgs.with_personas args);
  topic := if PyStr.truthy (NewArgs.topic args) then NewArgs.topic args else "Untitled";
  prompted_by := match NewArgs.prompted_by args with
                 | Some p => if PyStr.truthy p then Some p else None
                 | None => None
                 end;
  file := filename;
  status := "draft";
  references := [];
  context := default [] (NewArgs.context args);
  keywords := match NewArgs.keywords args with
              | Some k => if PyStr.truthy k then PyStr.split "," k else []
              | None => []
              end
|}.

(** The lines of a registry text that the loop of [_load_registry]
    hands to [json.loads]. *)
Definition payload (text : string) : list string :=
  PyStr.strip <$> List.filter nonblank (PyStr.readlines text).

(** [json.loads] over such lines, one after the other, up to the first
    that fails. *)
Fixpoint parse_all (lines : list string) (epistles : list epistle)
    : list epistle * bool :=
  match lines with
  | [] => (epistles, true)
  | line :: rest =>
      match loads line with
      | Some ep => parse_all rest (epistles ++ [ep])
      | None => (epistles, false)
      end
  end.

End Search.

(** [a] may stand before [b]: its date is not the smaller one. *)
Definition date_ge (a b : epistle) : Prop := String.leb (date b) (date a) = true.

(** ** An instance of the library: ASCII lower-casing and JSON text

    [Json.json_dumps] prints a record the way [json.dumps(ep,
    ensure_ascii=False)] does: the ten keys in insertion order, the
    separators [", "] and [": "], the escapes of the quote, the backslash and
    the control characters.  [Json.json_loads] reads the JSON text of an
    object whose ten keys hold strings, [null] or arrays of strings; any
    other text is read as a failure. *)

Module Json.

Definition dquote : ascii := "034"%char.
Definition backslash : ascii := "092"%char.

Inductive jvalue :=
  | JNull
  | JStr (s : string)
  | JStrs (l : list string).

Definition jobject := list (string * jvalue).

(** *** Printing *)

Definition hex_digit (n : N) : ascii :=
  if (n <? 10)%N then ascii_of_N (48 + n) else ascii_of_N (87 + n).

Definition escape_char (c : ascii) : string :=
  let n := N_of_ascii c in
  if Ascii.eqb c dquote then String backslash (String dquote "")
  else if Ascii.eqb c backslash then String backslash (String backslash "")
  else if (n =? 8)%N then String backslash "b"
  else if (n =? 9)%N then String backslash "t"
  else if (n =? 10)%N then String backslash "n"
  else if (n =? 12)%N then String backslash "f"
  else if (n =? 13)%N then String backslash "r"
  else if (n <? 32)%N then
    String backslash
      (String "u" (String "0" (String "0"
        (String (hex_digit (n / 16)) (String (hex_digit (n mod 16)) "")))))
  else String c "".

Fixpoint escape (s : string) : string :=
  match s with
  | EmptyString => EmptyString
  | String c s' => escape_char c +:+ escape s'
  end.

Definition quote (s : string) : string :=
  String dquote (escape s +:+ String dquote "").

Definition encode_value (v : jvalue) : string :=
  match v with
  | JNull => "null"
  | JStr s => quote s
  | JStrs l => "[" +:+ PyStr.join ", " (quote <$> l) +:+ "]"
  end.

Definition encode_member (m : string * jvalue) : string :=
  quote m.1 +:+ ": " +:+ encode_value m.2.

Definition encode_object (o : jobject) : string :=
  "{" +:+ PyStr.join ", " (encode_member <$> o) +:+ "}".

Definition object_of_epistle (ep : epistle) : jobject :=
  [ ("id", JStr (id ep));
    ("date", JStr (date ep));
    ("personas", JStrs (personas ep));
    ("topic", JStr (topic ep));
    ("prompted_by", match prompted_by ep with Some p => JStr p | None => JNull end);
    ("file", JStr (file ep));
    ("status", JStr (status ep));
    ("references", JStrs (references ep));
    ("context", JStrs (context ep));
    ("keywords", JStrs (keywords ep)) ].

Definition json_dumps (ep : epistle) : string :=
  encode_object (object_of_epistle ep).

(** *** Reading *)

Definition is_ws (c : ascii) : bool :=
  let n := N_of_ascii c in
  (n =? 32)%N || (n =? 9)%N || (n =? 10)%N || (n =? 13)%N.

Fixpoint skip_ws (s : string) : string :=
  match s with
  | String c s' => if is_ws c then skip_ws s' else s
  | EmptyString => EmptyString
  end.

Definition hex_val (c : ascii) : option N :=
  let n := N_of_ascii c in
  if (48 <=? n)%N && (n <=? 57)%N then Some (n - 48)%N
  else if (97 <=? n)%N && (n <=? 102)%N then Some (n - 87)%N
  else if (65 <=? n)%N && (n <=? 70)%N then Some (n - 55)%N
  else None.

Definition hex4 (a b c d : ascii) : option N :=
  match hex_val a, hex_val b, hex_val c, hex_val d with
  | Some x, Some y, Some z, Some t => Some (((x * 16 + y) * 16 + z) * 16 + t)%N
  | _, _, _, _ => None
  end.

(** What a string literal denotes, piece by piece: a character of the
    text, or the UTF-16 code unit of a [\uXXXX] escape. *)
Inductive piece := Char (c : ascii) | Unit (n : N).

Definition simple_escape (e : ascii) : option ascii :=
  let n := N_of_ascii e in
  if Ascii.eqb e dquote then Some dquote
  else if Ascii.eqb e backslash then Some backslash
  else if Ascii.eqb e "/" then Some "/"%char
  else if Ascii.eqb e "b" then Some "008"%char
  else if Ascii.eqb e "f" then Some "012"%char
  else if Ascii.eqb e "n" then Some "010"%char
  else if Ascii.eqb e "r" then Some "013"%char
  else if Ascii.eqb e "t" then Some "009"%char
  else None.

(** The body of a string literal, after its opening quote, up to the
    closing quote; the text after it is returned too. *)
Fixpoint scan_string (s : string) : option (list piece * string) :=
  match s with
  | EmptyString => None
  | String c s' =>
      if Ascii.eqb c dquote then Some ([], s')
      else if Ascii.eqb c backslash then
        match s' with
        | EmptyString => None
        | String e s'' =>
            if Ascii.eqb e "u" then
              match s'' with
              | String h1 (String h2 (String h3 (String h4 s5))) =>
                  match hex4 h1 h2 h3 h4, scan_string s5 with
                  | Some n, Some (ps, rest) => Some (Unit n :: ps, rest)
                  | _, _ => None
                  end
              | _ => None
              end
            else
              match simple_escape e, scan_string s'' with
              | Some x, Some (ps, rest) => Some (Char x :: ps, rest)
              | _, _ => None
              end
        end
      else if (N_of_ascii c <? 32)%N then None
      else
        match scan_string s' with
        | Some (ps, rest) => Some (Char c :: ps, rest)
        | None => None
        end
  end.

(** UTF-8 text of a code point. *)
Definition utf8 (n : N) : string :=
  if (n <? 128)%N then String (ascii_of_N n) ""
  else if (n <? 2048)%N then
    String (ascii_of_N (192 + n / 64)) (String (ascii_of_N (128 + n mod 64)) "")
  else if (n <? 65536)%N then
    String (ascii_of_N (224 + n / 4096))
      (String (ascii_of_N (128 + (n / 64) mod 64))
         (String (ascii_of_N (128 + n mod 64)) ""))
  else
    String (ascii_of_N (240 + n / 262144))
      (String (ascii_of_N (128 + (n / 4096) mod 64))
         (String (ascii_of_N (128 + (n / 64) mod 64))
            (String (ascii_of_N (128 + n mod 64)) ""))).

Definition is_high (n : N) : bool := (55296 <=? n)%N && (n <? 56320)%N.
Definition is_low (n : N) : bool := (56320 <=? n)%N && (n <? 57344)%N.

(** The text of the pieces; a surrogate pair is one code point, a lone
    surrogate has no UTF-8 text. *)
Fixpoint text_of (ps : list piece) : option string :=
  match ps with
  | [] => Some EmptyString
  | Char c :: r =>
      match text_of r with Some t => Some (String c t) | None => None end
  | Unit hi :: r =>
      if is_high hi then
        match r with
        | Unit lo :: r' =>
            if is_low lo then
              match text_of r' with
              | Some t =>
                  Some (utf8 (65536 + (hi - 55296) * 1024 + (lo - 56320)) +:+ t)
              | None => None
              end
            else None
        | _ => None
        end
      else if is_low hi then None
      else match text_of r with Some t => Some (utf8 hi +:+ t) | None => None end
  end.

Definition parse_string (s : string) : option (string * string) :=
  match scan_string s with
  | Some (ps, rest) =>
      match text_of ps with Some t => Some (t, rest) | None => None end
  | None => None
  end.

(** The elements of a non-empty array of strings, from its first
    element up to the closing bracket. *)
Fixpoint parse_strings (fuel : nat) (s : string) : option (list string * string) :=
  match fuel, s with
  | S fuel', String c s' =>
      if Ascii.eqb c dquote then
        match parse_string s' with
        | Some (x, r) =>
            match skip_ws r with
            | String d r' =>
                if Ascii.eqb d "]" then Some ([x], r')
                else if Ascii.eqb d "," then
                  match parse_strings fuel' (skip_ws r') with
                  | Some (xs, r'') => Some (x :: xs, r'')
                  | None => None
                  end
                else None
            | EmptyString => None
            end
        | None => None
        end
      else None
  | _, _ => None
  end.

Definition parse_value (s : string) : option (jvalue * string) :=
  match s with
  | String c s' =>
      if Ascii.eqb c dquote then
        match parse_string s' with
        | Some (x, r) => Some (JStr x, r)
        | None => None
        end
      else if Ascii.eqb c "[" then
        match skip_ws s' with
        | String d r =>
            if Ascii.eqb d "]" then Some (JStrs [], r)
            else
              match parse_strings (String.length s') (String d r) with
              | Some (xs, r') => Some (JStrs xs, r')
              | None => None
              end
        | EmptyString => None
        end
      else if Ascii.eqb c "n" then
        match s' with
        | String u (String l1 (String l2 r)) =>
            if Ascii.eqb u "u" && Ascii.eqb l1 "l" && Ascii.eqb l2 "l"
            then Some (JNull, r) else None
        | _ => None
        end
      else None
  | EmptyString => None
  end.

(** The members of a non-empty object, from the quote of its first key
    up to the closing brace. *)
Fixpoint parse_members (fuel : nat) (s : string) : option (jobject * string) :=
  match fuel, s with
  | S fuel', String c s' =>
      if Ascii.eqb c dquote then
        match parse_string s' with
        | Some (k, r) =>
            match skip_ws r with
            | String colon r1 =>
                if Ascii.eqb colon ":" then
                  match parse_value (skip_ws r1) with
                  | Some (v, r2) =>
                      match skip_ws r2 with
                      | String d r3 =>
                          if Ascii.eqb d "}" then Some ([(k, v)], r3)
                          else if Ascii.eqb d "," then
                            match parse_members fuel' (skip_ws r3) with
                            | Some (ms, r4) => Some ((k, v) :: ms, r4)
                            | None => None
                            end
                          else None
                      | EmptyString => None
                      end
                  | None => None
                  end
                else None
            | EmptyString => None
            end
        | None => None
        end
      else None
  | _, _ => None
  end.

Definition parse_object (s : string) : option (jobject * string) :=
  match skip_ws s with
  | String c s' =>
      if Ascii.eqb c "{" then
        match skip_ws s' with
        | String d r =>
            if Ascii.eqb d "}" then Some ([], r)
            else parse_members (String.length s') (String d r)
        | EmptyString => None
        end
      else None
  | EmptyString => None
  end.

(** A whole text: one object and white space around it. *)
Definition decode (s : string) : option jobject :=
  match parse_object s with
  | Some (o, rest) =>
      match skip_ws rest with
      | EmptyString => Some o
      | _ => None
      end
  | None => None
  end.

Definition get_str (k : string) (o : jobject) : option string :=
  match list_find (λ m, m.1 = k) o with
  | Some (_, (_, JStr s)) => Some s
  | _ => None
  end.

Definition get_strs (k : string) (o : jobject) : option (list string) :=
  match list_find (λ m, m.1 = k) o with
  | Some (_, (_, JStrs l)) => Some l
  | _ => None
  end.

Definition get_opt_str (k : string) (o : jobject) : option (option string) :=
  match list_find (λ m, m.1 = k) o with
  | Some (_, (_, JStr s)) => Some (Some s)
  | Some (_, (_, JNull)) => Some None
  | _ => None
  end.

(** The record of an object with exactly the ten keys. *)
Definition epistle_of_object (o : jobject) : option epistle :=
  if (length o =? 10)%nat then
    i ← get_str "id" o;
    d ← get_str "date" o;
    ps ← get_strs "personas" o;
    t ← get_str "topic" o;
    pb ← get_opt_str "prompted_by" o;
    f ← get_str "file" o;
    st ← get_str "status" o;
    rs ← get_strs "references" o;
    cx ← get_strs "context" o;
    ks ← get_strs "keywords" o;
    Some (Epistle i d ps t pb f st rs cx ks)
  else None.

Definition json_loads (s : string) : option epistle :=
  decode s ≫= epistle_of_object.

(** *** What the reader makes of a printed string *)

(** The piece the reader gets for a character of a printed string. *)
Definition piece_of (c : ascii) : piece :=
  let n := N_of_ascii c in
  if (n <? 32)%N && negb ((n =? 8) || (n =? 9) || (n =? 10) || (n =? 12) || (n =? 13))%N
  then Unit n else Char c.

Fixpoint pieces (s : string) : list piece :=
  match s with
  | EmptyString => []
  | String c s' => piece_of c :: pieces s'
  end.

End Json.

Definition ascii_lib : PyLib := {|
  lower := PyStr.ascii_lower;
  dumps := Json.json_dumps;
  loads := Json.json_loads
|}.

(** ** Sample data *)

Module Sample.

Definition clk : clock := Clock "20251028T120000" 1761652800 "2025-10-28".

Definition args : NewArgs.t := NewArgs.Make "Alice,Bob" "X" None None None.

Definition empty : world := World ∅ [].

Definition alice_bob : epistle := {|
  id := "epistle-1761652800"; date := "2025-10-28";
  personas := ["Alice"; "Bob"]; topic := "X"; prompted_by := None;
  file := "alice_bob_20251028T120000.md"; status := "draft";
  references := []; context := []; keywords := []
|}.

Definition carol_dan : epistle := {|
  id := "epistle-1761739200"; date := "2025-10-29";
  personas := ["Carol"; "Dan"]; topic := "Untitled"; prompted_by := Some "fp-123";
  file := "carol_dan_20251029T120000.md"; status := "draft";
  references := []; context := ["notes.md"]; keywords := ["k1"; "k2"]
|}.

Definition erin_frank : epistle := {|
  id := "epistle-1761825600"; date := "2025-10-30";
  personas := ["Erin"; "Frank"]; topic := "Y"; prompted_by := None;
  file := "erin_frank_20251030T120000.md"; status := "draft";
  references := []; context := []; keywords := []
|}.

(** A directory that holds a registry with the lines of [X]. *)
Definition store (X : list epistle) : world :=
  World {[ registry_file := String.concat "" (@registry_line ascii_lib <$> X) ]} [].

(** The UTF-8 text of U+00A0, the no-break space, and of U+2003, the em
    space. *)
Definition nbsp : string := String "194" (String "160" "").
Definition emsp : string := String "226" (String "128" (String "131" "")).

(** The characters of [str.isspace], one after the other. *)
Definition white_space : string :=
  String.concat ""
    (Json.utf8 <$> [9; 10; 11; 12; 13; 28; 29; 30; 31; 32; 133; 160; 5760;
                    8192; 8193; 8194; 8195; 8196; 8197; 8198; 8199; 8200; 8201; 8202;
                    8232; 8233; 8239; 8287; 12288]%N).

(** The lines of a damaged registry: a record with white space around
    it, an empty line, a line of white space, a line that is no JSON text
    and a record after it. *)
Definition indented_line : string :=
  "  " +:+ @dumps ascii_lib alice_bob +:+ nbsp +:+ PyStr.nl.
Definition blank_line : string := nbsp +:+ " " +:+ emsp +:+ PyStr.nl.
Definition bad_line : string := "not json" +:+ nbsp +:+ PyStr.nl.

Definition broken_text : string :=
  indented_line +:+ PyStr.nl +:+ blank_line +:+ bad_line
  +:+ @registry_line ascii_lib carol_dan.

Definition broken_store : world := World {[ registry_file := broken_text ]} [].

Definition clk2 : clock := Clock "20251029T120000" 1761739200 "2025-10-29".

(** Personas, the first of which reads like an id. *)
Definition args_odd : NewArgs.t :=
  NewArgs.Make "epistle-1761739200,Bob" "Odd" None None None.

Definition args_carol : NewArgs.t :=
  NewArgs.Make "Carol,Dan" "" (Some "fp-123") (Some ["notes.md"]) (Some "k1,k2").

(** A topic that holds a CR. *)
Definition args_cr : NewArgs.t :=
  NewArgs.Make "Alice,Bob" (String "a" (String PyStr.CR "b")) None None None.

(** A context path given twice to Create. *)
Definition args_twice : NewArgs.t :=
  NewArgs.Make "Alice,Bob" "X" None (Some ["a.md"; "a.md"]) None.

Definition odd_bob : epistle := {|
  id := "epistle-1761652800"; date := "2025-10-28";
  personas := ["epistle-1761739200"; "Bob"]; topic := "Odd"; prompted_by := None;
  file := "epistle-1761739200_bob_20251028T120000.md"; status := "draft";
  references := []; context := []; keywords := []
|}.

Definition alice_bob_twice : epistle := {|
  id := "epistle-1761652800"; date := "2025-10-28";
  personas := ["Alice"; "Bob"]; topic := "X"; prompted_by := None;
  file := "alice_bob_20251028T120000.md"; status := "draft";
  references := []; context := ["a.md"; "a.md"]; keywords := []
|}.

End Sample.

(** * Properties *)

(** ** Strings *)

Lemma str_app_cons (c : ascii) (s1 s2 : string) :
  String c s1 +:+ s2 = String c (s1 +:+ s2).
Proof. reflexivity. Qed.

Lemma str_app_nil_l (s : string) : "" +:+ s = s.
Proof. reflexivity. Qed.

Lemma str_app_nil_r (s : string) : s +:+ "" = s.
Proof. induction s as [|c s IH]; [done|]. by rewrite str_app_cons, IH. Qed.

Lemma str_app_assoc (s1 s2 s3 : string) : (s1 +:+ s2) +:+ s3 = s1 +:+ (s2 +:+ s3).
Proof. induction s1 as [|c s1 IH]; [done|]. by rewrite !str_app_cons, IH. Qed.

Lemma str_length_app (s1 s2 : string) :
  String.length (s1 +:+ s2) = String.length s1 + String.length s2.
Proof. induction s1 as [|c s1 IH]; [done|]. rewrite str_app_cons. cbn. by rewrite IH. Qed.

Lemma str_app_inv_tail (s1 s2 t : string) : s1 +:+ t = s2 +:+ t → s1 = s2.
Proof.
  revert s2. induction s1 as [|c s1 IH]; intros [|d s2] Heq.
  - done.
  - apply (f_equal String.length) in Heq.
    rewrite !str_length_app in Heq. cbn in Heq. lia.
  - apply (f_equal String.length) in Heq.
    rewrite !str_length_app in Heq. cbn in Heq. lia.
  - rewrite !str_app_cons in Heq. injection Heq as -> Heq. f_equal. by apply IH.
Qed.

(** ** The file-name loop of [cmd_epistle_new] *)

Lemma candidate_inj (slug ts : string) (i j : nat) :
  candidate slug ts i = candidate slug ts j → i = j.
Proof.
  destruct i as [|i], j as [|j]; unfold candidate; intros Heq; [done| | |].
  - do 3 apply (inj (String.app _)) in Heq. discriminate.
  - do 3 apply (inj (String.app _)) in Heq. discriminate.
  - do 4 apply (inj (String.app _)) in Heq.
    apply str_app_inv_tail in Heq. by apply (inj pretty) in Heq.
Qed.

Lemma candidate_suffix (slug ts : string) (n : nat) :
  ∃ s, candidate slug ts n = s +:+ ".md".
Proof.
  destruct n as [|n]; unfold candidate.
  - exists (slug +:+ "_" +:+ ts). by rewrite !str_app_assoc.
  - exists (slug +:+ "_" +:+ ts +:+ "_" +:+ pretty (S n)). by rewrite !str_app_assoc.
Qed.

Lemma md_not_registry (s : string) : s +:+ ".md" ≠ registry_file.
Proof.
  unfold registry_file. intros Heq.
  do 12 (destruct s as [|? s]; [by vm_compute in Heq|];
         rewrite str_app_cons in Heq; injection Heq as _ Heq).
  destruct s as [|? s]; [by vm_compute in Heq|].
  apply (f_equal String.length) in Heq. rewrite str_length_app in Heq.
  cbn in Heq. lia.
Qed.

Lemma candidate_not_registry (slug ts : string) (n : nat) :
  candidate slug ts n ≠ registry_file.
Proof. destruct (candidate_suffix slug ts n) as [s ->]. apply md_not_registry. Qed.

Lemma unique_loop_candidate (fuel : nat) (w : world) (slug ts : string) (k : nat) :
  unique_loop (S fuel) w slug ts k (candidate slug ts k) =
  if path_exists (candidate slug ts k) w
  then unique_loop fuel w slug ts (S k) (candidate slug ts (S k))
  else Some (candidate slug ts k).
Proof. done. Qed.

Lemma unique_loop_Some (fuel : nat) (w : world) (slug ts : string) (k : nat) (name : string) :
  unique_loop fuel w slug ts k (candidate slug ts k) = Some name →
  ∃ n, k ≤ n < k + fuel ∧ name = candidate slug ts n ∧ path_exists name w = false
       ∧ ∀ j, k ≤ j < n → path_exists (candidate slug ts j) w = true.
Proof.
  revert k. induction fuel as [|fuel IH]; intros k Hloop; [done|].
  rewrite unique_loop_candidate in Hloop.
  destruct (path_exists (candidate slug ts k) w) eqn:Hk.
  - destruct (IH _ Hloop) as (n & Hn & -> & Hfree & Hocc).
    exists n. split; [lia|]. do 2 (split; [done|]).
    intros j Hj. destruct (decide (j = k)) as [->|]; [done|]. apply Hocc. lia.
  - injection Hloop as <-. exists k. split; [lia|]. do 2 (split; [done|]).
    intros j Hj. lia.
Qed.

Lemma unique_loop_None (fuel : nat) (w : world) (slug ts : string) (k : nat) :
  unique_loop fuel w slug ts k (candidate slug ts k) = None →
  ∀ j, k ≤ j < k + fuel → path_exists (candidate slug ts j) w = true.
Proof.
  revert k. induction fuel as [|fuel IH]; intros k Hloop j Hj; [lia|].
  rewrite unique_loop_candidate in Hloop.
  destruct (path_exists (candidate slug ts k) w) eqn:Hk; [|done].
  destruct (decide (j = k)) as [->|]; [done|]. apply (IH _ Hloop). lia.
Qed.

Lemma unique_loop_more_fuel (fuel fuel' : nat) (w : world) (slug ts : string)
    (k : nat) (name : string) :
  unique_loop fuel w slug ts k (candidate slug ts k) = Some name →
  fuel ≤ fuel' →
  unique_loop fuel' w slug ts k (candidate slug ts k) = Some name.
Proof.
  revert fuel' k. induction fuel as [|fuel IH]; intros [|fuel'] k Hloop Hle;
    [done|done|lia|].
  rewrite unique_loop_candidate in *.
  destruct (path_exists (candidate slug ts k) w); [|done].
  apply IH; [done|lia].
Qed.

Lemma path_exists_dom (name : string) (w : world) :
  path_exists name w = true ↔ name ∈ dom (files w).
Proof.
  unfold path_exists. rewrite elem_of_dom.
  destruct (files w !! name); split; intros Hx; try done; try by eexists.
Qed.

(** No more candidates can exist than there are files. *)
Lemma occupied_bound (w : world) (slug ts : string) (n : nat) :
  (∀ j, j < n → path_exists (candidate slug ts j) w = true) → n ≤ size (files w).
Proof.
  intros Hocc.
  assert (NoDup (candidate slug ts <$> seq 0 n)) as Hnd.
  { apply NoDup_fmap_2_strong; [|apply NoDup_seq].
    intros i j _ _. apply candidate_inj. }
  assert (candidate slug ts <$> seq 0 n ⊆+ elements (dom (files w))) as Hsub.
  { apply NoDup_submseteq; [done|]. intros x [j [-> Hj]]%list_elem_of_fmap.
    apply elem_of_elements, path_exists_dom, Hocc. apply elem_of_seq in Hj. lia. }
  apply submseteq_length in Hsub.
  rewrite length_fmap, length_seq in Hsub.
  by rewrite <- size_dom.
Qed.

Lemma unique_filename_Some (w : world) (slug ts : string) :
  ∃ n, unique_filename w slug ts = Some (candidate slug ts n)
       ∧ n ≤ size (files w)
       ∧ path_exists (candidate slug ts n) w = false
       ∧ ∀ j, j < n → path_exists (candidate slug ts j) w = true.
Proof.
  unfold unique_filename. change (slug +:+ "_" +:+ ts +:+ ".md") with (candidate slug ts 0).
  destruct (unique_loop _ w slug ts 0 _) as [name|] eqn:Hloop.
  - apply unique_loop_Some in Hloop as (n & Hn & -> & Hfree & Hocc).
    exists n. split; [done|].
    assert (∀ j, j < n → path_exists (candidate slug ts j) w = true) as Hocc'.
    { intros j Hj. apply Hocc. lia. }
    split; [by apply (occupied_bound w slug ts)|]. by split.
  - pose proof (unique_loop_None _ _ _ _ _ Hloop) as Hocc.
    assert (S (size (files w)) ≤ size (files w)) as Hb; [|lia].
    apply (occupied_bound w slug ts). intros j Hj. apply Hocc. lia.
Qed.

(** C9: the collision loop of Create stops for every directory, with a
    name that is not in the directory; the names tried are the base name and
    then the names with the suffixes _1, _2, ... in increasing order, every
    one before the result being taken, and no two of them are equal.  More
    steps than the loop is run with give the same name. *)
Theorem unique_filename_terminates (w : world) (slug ts : string) :
  ∃ name n,
    unique_filename w slug ts = Some name
    ∧ name = candidate slug ts n
    ∧ (name ∉ dom (files w))
    ∧ (∀ j, j < n → candidate slug ts j ∈ dom (files w))
    ∧ (∀ i j, candidate slug ts i = candidate slug ts j → i = j)
    ∧ (∀ fuel, size (files w) < fuel →
         unique_loop fuel w slug ts 0 (slug +:+ "_" +:+ ts +:+ ".md") = Some name).
Proof.
  destruct (unique_filename_Some w slug ts) as (n & Hu & _ & Hfree & Hocc).
  exists (candidate slug ts n), n. do 2 (split; [done|]). split; [|split; [|split]].
  - rewrite <- path_exists_dom. by rewrite Hfree.
  - intros j Hj. by apply path_exists_dom, Hocc.
  - intros i j. apply candidate_inj.
  - intros fuel Hfuel. unfold unique_filename in Hu.
    change (slug +:+ "_" +:+ ts +:+ ".md") with (candidate slug ts 0) in *.
    apply (unique_loop_more_fuel _ _ _ _ _ _ _ Hu). lia.
Qed.

(** ** Lines *)

Lemma concat_cons (x : string) (l : list string) :
  String.concat "" (x :: l) = x +:+ String.concat "" l.
Proof. destruct l as [|y l]; [by rewrite str_app_nil_r|done]. Qed.

Lemma concat_app (l1 l2 : list string) :
  String.concat "" (l1 ++ l2) = String.concat "" l1 +:+ String.concat "" l2.
Proof.
  induction l1 as [|x l1 IH]; [done|].
  rewrite <- app_comm_cons, !concat_cons, IH. by rewrite str_app_assoc.
Qed.

Lemma one_line_app (a b : string) :
  PyStr.one_line (a +:+ b) = PyStr.one_line a && PyStr.one_line b.
Proof.
  induction a as [|c a IH]; [done|].
  rewrite str_app_cons. cbn [PyStr.one_line]. rewrite IH. by rewrite andb_assoc.
Qed.

(** The first [k] bytes of a text. *)
Lemma substring_app_le (k : nat) (a b : string) :
  k ≤ String.length a → String.substring 0 k (a +:+ b) = String.substring 0 k a.
Proof.
  revert a. induction k as [|k IH]; intros [|c a] Hk; cbn in Hk; try lia.
  - by destruct b.
  - done.
  - rewrite str_app_cons. cbn [String.substring]. rewrite IH; [done|lia].
Qed.

Lemma substring_all (k : nat) (s : string) :
  String.length s ≤ k → String.substring 0 k s = s.
Proof.
  revert s. induction k as [|k IH]; intros [|c s] Hk; cbn in Hk; try done; try lia.
  cbn [String.substring]. rewrite IH; [done|lia].
Qed.

Lemma substring_app_ge (k : nat) (a b : string) :
  String.length a ≤ k →
  String.substring 0 k (a +:+ b) = a +:+ String.substring 0 (k - String.length a) b.
Proof.
  revert k. induction a as [|c a IH]; intros k Hk.
  - rewrite !str_app_nil_l. cbn. by rewrite Nat.sub_0_r.
  - destruct k as [|k]; cbn in Hk; [lia|]. rewrite !str_app_cons.
    cbn [String.substring String.length Nat.sub]. rewrite IH; [done|lia].
Qed.

Lemma substring_split (k : nat) (s : string) :
  ∃ rest, s = String.substring 0 k s +:+ rest
          ∧ (k < String.length s → rest ≠ "")
          ∧ String.length (String.substring 0 k s) = k `min` String.length s.
Proof.
  revert s. induction k as [|k IH]; intros [|c s].
  - exists "". split; [done|]. split; [cbn; lia|done].
  - exists (String c s). by repeat split.
  - exists "". split; [done|]. split; [cbn; lia|done].
  - destruct (IH s) as (rest & Heq & Hne & Hlen). exists rest.
    cbn [String.substring String.length]. rewrite str_app_cons, <- Heq.
    split; [done|]. split; [intros ?; apply Hne; lia|]. rewrite Hlen. lia.
Qed.

Lemma readlines_line (s t : string) :
  PyStr.one_line s = true →
  PyStr.readlines (s +:+ PyStr.nl +:+ t) = (s +:+ PyStr.nl) :: PyStr.readlines t.
Proof.
  induction s as [|c s IH]; intros Hs; [done|].
  cbn in Hs. apply andb_prop in Hs as [[Hlf Hcr]%andb_prop Hs].
  rewrite !str_app_cons. cbn [PyStr.readlines].
  apply negb_true_iff in Hlf, Hcr. rewrite Hlf, Hcr. by rewrite (IH Hs).
Qed.

Lemma readlines_lines (ls : list string) :
  Forall (λ s, PyStr.one_line s = true) ls →
  PyStr.readlines (String.concat "" ((λ s, s +:+ PyStr.nl) <$> ls))
  = (λ s, s +:+ PyStr.nl) <$> ls.
Proof.
  induction 1 as [|s ls Hs _ IH]; [done|].
  rewrite fmap_cons, concat_cons, str_app_assoc, readlines_line by done.
  by rewrite IH.
Qed.

Lemma readlines_lines_app (ls : list string) (t : string) :
  Forall (λ s, PyStr.one_line s = true) ls →
  PyStr.readlines (String.concat "" ((λ s, s +:+ PyStr.nl) <$> ls) +:+ t)
  = ((λ s, s +:+ PyStr.nl) <$> ls) ++ PyStr.readlines t.
Proof.
  induction 1 as [|s ls Hs _ IH]; [done|].
  rewrite fmap_cons, concat_cons, !str_app_assoc, readlines_line by done.
  by rewrite IH.
Qed.

Lemma readlines_one (s : string) :
  PyStr.one_line s = true → s ≠ "" → PyStr.readlines s = [s].
Proof.
  induction s as [|c s IH]; intros Hs Hne; [done|].
  cbn in Hs. apply andb_prop in Hs as [[Hlf Hcr]%andb_prop Hs].
  cbn [PyStr.readlines]. apply negb_true_iff in Hlf, Hcr. rewrite Hlf, Hcr.
  destruct s as [|d s]; [done|]. by rewrite IH.
Qed.

(** ** White space *)

Lemma isspace2_brace (a : ascii) : PyStr.isspace2 a "}" = false.
Proof. unfold PyStr.isspace2. by destruct (N_of_ascii a =? 194)%N. Qed.

Lemma isspace3_brace_mid (a c : ascii) : PyStr.isspace3 a "}" c = false.
Proof.
  unfold PyStr.isspace3.
  by destruct (N_of_ascii a =? 225)%N, (N_of_ascii a =? 226)%N, (N_of_ascii a =? 227)%N.
Qed.

Lemma isspace3_brace (a b : ascii) : PyStr.isspace3 a b "}" = false.
Proof.
  unfold PyStr.isspace3.
  by destruct (N_of_ascii a =? 225)%N, (N_of_ascii a =? 226)%N, (N_of_ascii a =? 227)%N,
    (N_of_ascii b =? 154)%N, (N_of_ascii b =? 128)%N, (N_of_ascii b =? 129)%N.
Qed.

Lemma lstrip_open_brace (s : string) : PyStr.lstrip (String "{" s) = String "{" s.
Proof. by destruct s as [|b [|c s]]. Qed.

Lemma lstrip_close_brace (s : string) : PyStr.lstrip (String "}" s) = String "}" s.
Proof. by destruct s as [|b [|c s]]. Qed.

(** A closing brace is no part of a white-space character: [lstrip]
    stops before it. *)
Lemma lstrip_keeps_brace (t u : string) :
  ∃ t', PyStr.lstrip (t +:+ String "}" u) = t' +:+ String "}" u.
Proof.
  assert (∀ n t, String.length t ≤ n →
            ∃ t', PyStr.lstrip (t +:+ String "}" u) = t' +:+ String "}" u) as Hn;
    [|by apply (Hn (String.length t))].
  clear t. intros n. induction n as [|n IH]; intros t Hlen.
  { destruct t; [|cbn in Hlen; lia]. exists "". apply lstrip_close_brace. }
  destruct t as [|a t1]; [exists ""; apply lstrip_close_brace|].
  cbn in Hlen. rewrite str_app_cons. cbn [PyStr.lstrip].
  destruct (PyStr.isspace a); [apply IH; lia|].
  destruct t1 as [|b t2].
  { rewrite str_app_nil_l, isspace2_brace.
    destruct u as [|c u]; [by exists (String a "")|].
    rewrite isspace3_brace_mid. by exists (String a ""). }
  cbn in Hlen. rewrite str_app_cons.
  destruct (PyStr.isspace2 a b); [apply IH; lia|].
  destruct t2 as [|c t3].
  { rewrite str_app_nil_l, isspace3_brace. by exists (String a (String b "")). }
  cbn in Hlen. rewrite str_app_cons.
  destruct (PyStr.isspace3 a b c); [apply IH; lia|].
  by exists (String a (String b (String c t3))).
Qed.

Lemma rstrip_brace (t u : string) :
  PyStr.rstrip (t +:+ String "}" u) = t +:+ String "}" (PyStr.rstrip u).
Proof.
  induction t as [|a t IH].
  { rewrite !str_app_nil_l. cbn [PyStr.rstrip]. by rewrite lstrip_close_brace. }
  destruct (lstrip_keeps_brace (String a t) u) as [t' Ht'].
  rewrite !str_app_cons in *. cbn [PyStr.rstrip]. rewrite Ht', IH.
  by destruct t'.
Qed.

(** [rstrip] only drops characters at the end. *)
Lemma rstrip_prefix (s : string) : ∃ u, s = PyStr.rstrip s +:+ u.
Proof.
  induction s as [|c s [u IH]]; [by exists ""|]. cbn [PyStr.rstrip].
  destruct (PyStr.lstrip (String c s)).
  - by exists (String c s).
  - exists u. by rewrite str_app_cons, <- IH.
Qed.

Lemma strip_braces (body : string) :
  PyStr.strip (("{" +:+ body +:+ "}") +:+ PyStr.nl) = "{" +:+ body +:+ "}".
Proof.
  unfold PyStr.strip. rewrite !str_app_cons, str_app_nil_l, lstrip_open_brace.
  change (String "{" ((body +:+ "}") +:+ PyStr.nl))
    with (String "{" (body +:+ "}") +:+ PyStr.nl).
  change (String "{" (body +:+ "}")) with (String "{" body +:+ "}").
  rewrite str_app_assoc. change ("}" +:+ PyStr.nl) with (String "}" PyStr.nl).
  by rewrite rstrip_brace.
Qed.

Lemma strip_braces_plain (body : string) :
  PyStr.strip ("{" +:+ body +:+ "}") = "{" +:+ body +:+ "}".
Proof.
  unfold PyStr.strip. rewrite !str_app_cons, str_app_nil_l, lstrip_open_brace.
  change (String "{" (body +:+ "}")) with (String "{" body +:+ "}").
  by rewrite rstrip_brace.
Qed.

(** ** The registry store *)

Section StoreFacts.
Context `{HC : JsonContract}.

Lemma strip_registry_line (ep : epistle) :
  PyStr.strip (registry_line ep) = dumps ep ∧ PyStr.truthy (dumps ep) = true.
Proof.
  unfold registry_line. destruct (dumps_braces ep) as [body ->].
  by rewrite strip_braces.
Qed.

Lemma load_lines_app (l1 l2 : list string) (acc : list epistle) :
  load_lines (l1 ++ l2) acc =
  match load_lines l1 acc with
  | (acc', true) => load_lines l2 acc'
  | (acc', false) => (acc', false)
  end.
Proof.
  revert acc. induction l1 as [|l l1 IH]; intros acc; [done|].
  cbn [app load_lines]. destruct (PyStr.truthy _); [|done].
  by destruct (loads _).
Qed.

Lemma load_lines_registry (X acc : list epistle) :
  load_lines (registry_line <$> X) acc = (acc ++ X, true).
Proof.
  revert acc. induction X as [|ep X IH]; intros acc.
  - by rewrite app_nil_r.
  - rewrite fmap_cons. cbn [load_lines].
    destruct (strip_registry_line ep) as [-> ->]. rewrite loads_dumps, IH.
    by rewrite <- app_assoc.
Qed.

Lemma readlines_registry (X : list epistle) :
  PyStr.readlines (String.concat "" (registry_line <$> X)) = registry_line <$> X.
Proof.
  replace (registry_line <$> X) with ((λ s, s +:+ PyStr.nl) <$> (dumps <$> X))
    by (by rewrite <- list_fmap_compose).
  apply readlines_lines, Forall_fmap, Forall_forall. intros ep _. apply dumps_one_line.
Qed.

(** Loading a registry file that holds the lines of [X]. *)
Lemma load_registry_text (X : list epistle) (w : world) :
  files w !! registry_file = Some (String.concat "" (registry_line <$> X)) →
  _load_registry NoFault w = (Returns X, w).
Proof.
  intros Hf. unfold _load_registry, path_exists, read_file. rewrite Hf.
  by rewrite readlines_registry, load_lines_registry.
Qed.

(** A registry text that stops after [k] bytes of the line of a record:
    nothing is read of an empty rest, the record is read when only the line
    terminator is missing, and any other rest is not JSON. *)
Lemma load_cut_line (ep : epistle) (k : nat) (acc : list epistle) :
  k ≤ String.length (dumps ep) →
  load_lines (PyStr.readlines (String.substring 0 k (dumps ep))) acc
  = if (k =? 0)%nat then (acc, true)
    else if (k =? String.length (dumps ep))%nat then (acc ++ [ep], true)
    else (acc, false).
Proof.
  intros Hk. destruct (Nat.eqb_spec k 0) as [->|Hk0]; [by destruct (dumps ep)|].
  destruct (dumps_braces ep) as [body Hbody].
  pose proof (dumps_one_line ep) as Hone.
  destruct (Nat.eqb_spec k (String.length (dumps ep))) as [->|Hklen].
  - rewrite substring_all by done. rewrite readlines_one; [|done|by rewrite Hbody].
    assert (PyStr.strip (dumps ep) = dumps ep) as Hstrip
      by (rewrite Hbody; apply strip_braces_plain).
    cbn [load_lines]. rewrite Hstrip, loads_dumps. by rewrite Hbody.
  - destruct (substring_split k (dumps ep)) as (rest & Heq & Hrest & Hlen).
    set (p := String.substring 0 k (dumps ep)) in *.
    assert (rest ≠ "") as Hne by (apply Hrest; lia).
    assert (∃ p', p = String "{" p') as [p' Hp].
    { destruct p as [|c p'].
      - cbn in Hlen. lia.
      - rewrite Hbody, !str_app_cons in Heq. injection Heq as <- _. by exists p'. }
    assert (PyStr.one_line p = true) as Hp1.
    { rewrite Heq, one_line_app in Hone. by apply andb_prop in Hone as [? _]. }
    rewrite readlines_one; [|done|by rewrite Hp]. cbn [load_lines].
    unfold PyStr.strip. rewrite Hp, lstrip_open_brace. cbn [PyStr.rstrip].
    rewrite lstrip_open_brace. cbn [PyStr.truthy].
    destruct (rstrip_prefix p') as [u Hu].
    rewrite (loads_cut ep (String "{" (PyStr.rstrip p')) (u +:+ rest)); [done| |].
    + rewrite Heq, Hp, !str_app_cons, <- str_app_assoc. by rewrite <- Hu.
    + destruct u; [by rewrite str_app_nil_l|by rewrite str_app_cons].
Qed.

(** A registry text that stops inside the line of a record: the records
    before it are read, then the reading fails. *)
Lemma load_cut_inside (X : list epistle) (ep : epistle) (i : nat) :
  0 < i < String.length (dumps ep) →
  load_lines
    (PyStr.readlines
       (String.concat "" (registry_line <$> X) +:+ String.substring 0 i (dumps ep)))
    []
  = (X, false).
Proof.
  intros Hi.
  replace (registry_line <$> X) with ((λ s, s +:+ PyStr.nl) <$> (dumps <$> X))
    by (by rewrite <- list_fmap_compose).
  rewrite readlines_lines_app.
  - rewrite <- list_fmap_compose. change ((λ s, s +:+ PyStr.nl) ∘ dumps) with registry_line.
    rewrite load_lines_app, load_lines_registry, load_cut_line by lia. cbn [app].
    destruct (Nat.eqb_spec i 0); [lia|].
    by destruct (Nat.eqb_spec i (String.length (dumps ep))); [lia|].
  - apply Forall_fmap, Forall_forall. intros e _. apply dumps_one_line.
Qed.

(** Whatever the place where the text of a registry stops, the records
    read from it are the first of the records it was made of. *)
Lemma load_cut (X : list epistle) (k : nat) (acc : list epistle) :
  ∃ j ok,
    load_lines
      (PyStr.readlines (String.substring 0 k (String.concat "" (registry_line <$> X))))
      acc
    = (acc ++ take j X, ok).
Proof.
  revert k acc. induction X as [|ep X IH]; intros k acc.
  { exists 0, true. cbn. destruct k; cbn; by rewrite app_nil_r. }
  rewrite fmap_cons, concat_cons. unfold registry_line at 1.
  destruct (decide (k ≤ String.length (dumps ep))) as [Hk|Hk].
  - rewrite str_app_assoc, substring_app_le, load_cut_line by done.
    destruct (k =? 0)%nat; [exists 0, true; by rewrite app_nil_r|].
    destruct (k =? _)%nat; [by exists 1, true|].
    exists 0, false. by rewrite app_nil_r.
  - rewrite substring_app_ge by (rewrite str_length_app; cbn; lia).
    rewrite str_app_assoc, readlines_line by apply dumps_one_line.
    cbn [load_lines]. fold (registry_line ep).
    destruct (strip_registry_line ep) as [-> ->]. rewrite loads_dumps.
    destruct (IH (k - String.length (registry_line ep)) (acc ++ [ep]))
      as (j & ok & ->).
    exists (S j), ok. by rewrite <- app_assoc.
Qed.

End StoreFacts.

(** C8: what [save] writes, [load] reads back, for every sequence of
    records, the empty one too; so saving what was loaded leaves the content
    that [load] reads unchanged. *)
Theorem save_load_roundtrip `{HC : JsonContract} (X : list epistle) (w : world) :
  _load_registry NoFault (_save_registry NoFault X w).2
  = (Returns X, (_save_registry NoFault X w).2)
  ∧ (∃ Y w1 w2,
       _load_registry NoFault w = (Returns Y, w1)
       ∧ _save_registry NoFault Y w1 = (Returns (), w2)
       ∧ _load_registry NoFault w2 = (Returns Y, w2)).
Proof.
  assert (∀ Z w0, _load_registry NoFault (_save_registry NoFault Z w0).2
                  = (Returns Z, (_save_registry NoFault Z w0).2)) as Hrt.
  { intros Z w0. apply load_registry_text. cbn. by rewrite lookup_insert_eq. }
  split; [apply Hrt|].
  destruct (_load_registry NoFault w) as [r w1] eqn:Hload.
  assert (∃ Y, r = Returns Y) as [Y ->].
  { unfold _load_registry in Hload. destruct (path_exists _ _); [|naive_solver].
    destruct (read_file _ _ _) as [ls ok], (load_lines ls []) as [Y ok'].
    destruct (ok' && ok); naive_solver. }
  exists Y, w1, (_save_registry NoFault Y w1).2. split; [done|]. split; [done|].
  apply Hrt.
Qed.

(** ** The JSON instance satisfies the contract *)

Module JsonFacts.
Import Json.

Lemma scan_escape_char (c : ascii) (s : string) :
  scan_string (escape_char c +:+ s) =
  match scan_string s with
  | Some (ps, rest) => Some (piece_of c :: ps, rest)
  | None => None
  end.
Proof. destruct c as [[] [] [] [] [] [] [] []]; reflexivity. Qed.

Lemma text_of_piece (c : ascii) (ps : list piece) :
  text_of (piece_of c :: ps) =
  match text_of ps with Some t => Some (String c t) | None => None end.
Proof. destruct c as [[] [] [] [] [] [] [] []]; reflexivity. Qed.

Lemma scan_escape (s rest : string) :
  scan_string (escape s +:+ String dquote rest) = Some (pieces s, rest).
Proof.
  induction s as [|c s IH]; [done|].
  cbn [escape pieces]. by rewrite str_app_assoc, scan_escape_char, IH.
Qed.

Lemma text_of_pieces (s : string) : text_of (pieces s) = Some s.
Proof.
  induction s as [|c s IH]; [done|]. cbn [pieces]. by rewrite text_of_piece, IH.
Qed.

Lemma parse_string_escape (s rest : string) :
  parse_string (escape s +:+ String dquote rest) = Some (s, rest).
Proof. unfold parse_string. by rewrite scan_escape, text_of_pieces. Qed.

Lemma quote_app (s rest : string) :
  quote s +:+ rest = String dquote (escape s +:+ String dquote rest).
Proof. unfold quote. by rewrite str_app_cons, str_app_assoc. Qed.

Lemma join_cons2 (sep x y : string) (l : list string) :
  PyStr.join sep (x :: y :: l) = x +:+ sep +:+ PyStr.join sep (y :: l).
Proof. done. Qed.

Lemma skip_ws_quote (s rest : string) : skip_ws (quote s +:+ rest) = quote s +:+ rest.
Proof. by rewrite quote_app. Qed.

Lemma parse_strings_join (l : list string) (x : string) (fuel : nat) (rest : string) :
  length l < fuel →
  parse_strings fuel (PyStr.join ", " (quote <$> (x :: l)) +:+ "]" +:+ rest)
  = Some (x :: l, rest).
Proof.
  revert x fuel. induction l as [|y l IH]; intros x [|fuel] Hfuel; try (cbn in Hfuel; lia).
  - change (PyStr.join ", " (quote <$> [x])) with (quote x).
    rewrite quote_app. cbn [parse_strings]. rewrite Ascii.eqb_refl, parse_string_escape.
    reflexivity.
  - rewrite !fmap_cons, join_cons2, !str_app_assoc, quote_app.
    cbn [parse_strings]. rewrite Ascii.eqb_refl, parse_string_escape.
    rewrite !str_app_cons, str_app_nil_l.
    change (skip_ws (String "," ?s)) with (String "," s).
    cbn match. change (Ascii.eqb "," "]") with false.
    change (Ascii.eqb "," ",") with true. cbn match.
    change (skip_ws (String " " ?s)) with (skip_ws s).
    rewrite <- fmap_cons.
    assert (∀ z zs r, skip_ws (PyStr.join ", " (quote <$> z :: zs) +:+ r)
                      = PyStr.join ", " (quote <$> z :: zs) +:+ r) as ->.
    { intros z [|z' zs] r.
      - apply skip_ws_quote.
      - rewrite !fmap_cons, join_cons2, !str_app_assoc. apply skip_ws_quote. }
    rewrite IH by (cbn in Hfuel; lia). done.
Qed.

Lemma length_join {A} (f : A → string) (sep : string) (l : list A) (rest : string) :
  (∀ x, 1 ≤ String.length (f x)) →
  length l ≤ String.length (PyStr.join sep (f <$> l) +:+ rest).
Proof.
  intros Hf. induction l as [|x [|y l] IH]; [cbn; lia| |].
  - change (PyStr.join sep (f <$> [x])) with (f x).
    rewrite str_length_app. specialize (Hf x). cbn [length]. lia.
  - rewrite !fmap_cons, join_cons2, <- fmap_cons, !str_length_app.
    rewrite str_length_app in IH. specialize (Hf x). cbn [length] in *. lia.
Qed.

Lemma length_join_quote (l : list string) (rest : string) :
  length l ≤ String.length (PyStr.join ", " (quote <$> l) +:+ rest).
Proof. apply length_join. intros x. cbn. lia. Qed.

Lemma parse_value_encode (v : jvalue) (rest : string) :
  parse_value (encode_value v +:+ rest) = Some (v, rest).
Proof.
  destruct v as [|s|[|x l]].
  - reflexivity.
  - cbn [encode_value]. rewrite quote_app. cbn [parse_value].
    by rewrite Ascii.eqb_refl, parse_string_escape.
  - reflexivity.
  - cbn [encode_value]. rewrite !str_app_assoc, str_app_cons, str_app_nil_l.
    cbn [parse_value]. change (Ascii.eqb "[" dquote) with false.
    change (Ascii.eqb "[" "[") with true. cbn match.
    set (body := PyStr.join ", " (quote <$> x :: l) +:+ "]" +:+ rest).
    assert (∃ t, body = String dquote t) as [t Ht].
    { unfold body. destruct l as [|y l].
      - change (PyStr.join ", " (quote <$> [x])) with (quote x).
        rewrite quote_app. eauto.
      - rewrite !fmap_cons, join_cons2, !str_app_assoc, quote_app. eauto. }
    rewrite Ht. change (skip_ws (String dquote t)) with (String dquote t).
    cbn match. change (Ascii.eqb dquote "]") with false. cbn match.
    rewrite <- Ht. unfold body at 2. rewrite parse_strings_join; [done|].
    pose proof (length_join_quote (x :: l) ("]" +:+ rest)) as Hlen.
    fold body in Hlen. cbn [length] in Hlen. lia.
Qed.

Lemma encode_member_app (k : string) (v : jvalue) (rest : string) :
  encode_member (k, v) +:+ rest
  = String dquote (escape k +:+ String dquote (": " +:+ encode_value v +:+ rest)).
Proof. unfold encode_member. cbn [fst snd]. by rewrite !str_app_assoc, quote_app. Qed.

Lemma skip_ws_member (m : string * jvalue) (rest : string) :
  skip_ws (encode_member m +:+ rest) = encode_member m +:+ rest.
Proof. destruct m as [k v]. by rewrite encode_member_app. Qed.

Lemma skip_ws_members (m : string * jvalue) (ms : jobject) (rest : string) :
  skip_ws (PyStr.join ", " (encode_member <$> m :: ms) +:+ rest)
  = PyStr.join ", " (encode_member <$> m :: ms) +:+ rest.
Proof.
  destruct ms as [|m' ms].
  - apply skip_ws_member.
  - rewrite !fmap_cons, join_cons2, !str_app_assoc. apply skip_ws_member.
Qed.

Lemma parse_members_join (ms : jobject) (m : string * jvalue) (fuel : nat)
    (rest : string) :
  length ms < fuel →
  parse_members fuel (PyStr.join ", " (encode_member <$> (m :: ms)) +:+ "}" +:+ rest)
  = Some (m :: ms, rest).
Proof.
  revert m fuel. induction ms as [|m' ms IH]; intros [k v] [|fuel] Hfuel;
    try (cbn in Hfuel; lia).
  - change (PyStr.join ", " (encode_member <$> [(k, v)])) with (encode_member (k, v)).
    rewrite encode_member_app. cbn [parse_members].
    rewrite Ascii.eqb_refl, parse_string_escape.
    rewrite !str_app_cons, str_app_nil_l.
    change (skip_ws (String ":" ?s)) with (String ":" s). cbn match.
    change (Ascii.eqb ":" ":") with true. cbn match.
    change (skip_ws (String " " ?s)) with (skip_ws s).
    match goal with
    | |- context [skip_ws (encode_value v +:+ ?r)] =>
        assert (skip_ws (encode_value v +:+ r) = encode_value v +:+ r) as ->
    end.
    { destruct v as [|s|l]; [reflexivity| |reflexivity].
      cbn [encode_value]. by rewrite quote_app. }
    rewrite parse_value_encode. reflexivity.
  - rewrite !fmap_cons, join_cons2, !str_app_assoc, encode_member_app.
    cbn [parse_members]. rewrite Ascii.eqb_refl, parse_string_escape.
    rewrite !str_app_cons, str_app_nil_l.
    change (skip_ws (String ":" ?s)) with (String ":" s). cbn match.
    change (Ascii.eqb ":" ":") with true. cbn match.
    change (skip_ws (String " " ?s)) with (skip_ws s).
    match goal with
    | |- context [skip_ws (encode_value v +:+ ?r)] =>
        assert (skip_ws (encode_value v +:+ r) = encode_value v +:+ r) as ->
    end.
    { destruct v as [|s|l]; [reflexivity| |reflexivity].
      cbn [encode_value]. by rewrite quote_app. }
    rewrite parse_value_encode.
    change (skip_ws (String "," ?s)) with (String "," s). cbn match.
    change (Ascii.eqb "," "}") with false. change (Ascii.eqb "," ",") with true.
    cbn match. change (skip_ws (String " " ?s)) with (skip_ws s).
    rewrite !str_app_nil_l, <- fmap_cons, skip_ws_members.
    change (String "}" rest) with ("}" +:+ rest).
    rewrite IH by (cbn in Hfuel; lia). done.
Qed.

Lemma length_join_members (ms : jobject) (rest : string) :
  length ms ≤ String.length (PyStr.join ", " (encode_member <$> ms) +:+ rest).
Proof.
  apply length_join. intros [k v]. unfold encode_member.
  rewrite str_length_app. cbn. lia.
Qed.

Lemma parse_object_encode (o : jobject) :
  parse_object (encode_object o) = Some (o, "").
Proof.
  unfold parse_object, encode_object. destruct o as [|m ms]; [reflexivity|].
  rewrite !str_app_cons, str_app_nil_l.
  change (skip_ws (String "{" ?s)) with (String "{" s). cbn match.
  change (Ascii.eqb "{" "{") with true. cbn match.
  assert (∃ t, PyStr.join ", " (encode_member <$> m :: ms) +:+ "}"
               = String dquote t) as [t Ht].
  { destruct m as [k v], ms as [|m' ms].
    - change (PyStr.join ", " (encode_member <$> [(k, v)])) with (encode_member (k, v)).
      rewrite encode_member_app. eauto.
    - rewrite !fmap_cons, join_cons2, !str_app_assoc, encode_member_app. eauto. }
  rewrite Ht. change (skip_ws (String dquote t)) with (String dquote t).
  cbn match. change (Ascii.eqb dquote "}") with false. cbn match.
  rewrite <- Ht.
  replace (PyStr.join ", " (encode_member <$> m :: ms) +:+ "}")
    with (PyStr.join ", " (encode_member <$> m :: ms) +:+ "}" +:+ "")
    by (by rewrite str_app_nil_r).
  rewrite parse_members_join; [done|].
  pose proof (length_join_members (m :: ms) ("}" +:+ "")) as Hlen.
  cbn [length] in Hlen. lia.
Qed.

Lemma decode_encode (o : jobject) : decode (encode_object o) = Some o.
Proof. unfold decode. by rewrite parse_object_encode. Qed.

(** *** Reading a text that goes on

    What the reader has read of a text it reads again when the text is
    longer: it never looks for the end of the text. *)

Lemma skip_ws_ext (s t : string) :
  skip_ws s ≠ "" → skip_ws (s +:+ t) = skip_ws s +:+ t.
Proof.
  induction s as [|c s IH]; intros Hne; [done|].
  rewrite str_app_cons. cbn [skip_ws] in *.
  destruct (is_ws c); [by apply IH|by rewrite str_app_cons].
Qed.

Lemma scan_string_ext (s t : string) (ps : list piece) (r : string) :
  scan_string s = Some (ps, r) → scan_string (s +:+ t) = Some (ps, r +:+ t).
Proof.
  assert (∀ n s ps r, String.length s ≤ n → scan_string s = Some (ps, r) →
            scan_string (s +:+ t) = Some (ps, r +:+ t)) as Hn;
    [|by apply (Hn (String.length s))].
  clear s ps r. intros n. induction n as [|n IH]; intros s ps r Hlen Hs.
  { destruct s; [done|cbn in Hlen; lia]. }
  destruct s as [|c s']; [done|]. cbn in Hlen. rewrite str_app_cons.
  cbn [scan_string] in *.
  destruct (Ascii.eqb c dquote); [by simplify_eq|].
  destruct (Ascii.eqb c backslash).
  - destruct s' as [|e s'']; [done|]. cbn in Hlen. rewrite str_app_cons.
    destruct (Ascii.eqb e "u").
    + destruct s'' as [|h1 [|h2 [|h3 [|h4 s5]]]]; try done.
      cbn in Hlen. rewrite !str_app_cons.
      destruct (hex4 h1 h2 h3 h4); [|done].
      destruct (scan_string s5) as [[ps' r']|] eqn:Hs5; [|done].
      rewrite (IH s5 ps' r'); [by simplify_eq|lia|done].
    + destruct (simple_escape e); [|done].
      destruct (scan_string s'') as [[ps' r']|] eqn:Hs2; [|done].
      rewrite (IH s'' ps' r'); [by simplify_eq|lia|done].
  - destruct (N_of_ascii c <? 32)%N; [done|].
    destruct (scan_string s') as [[ps' r']|] eqn:Hs1; [|done].
    rewrite (IH s' ps' r'); [by simplify_eq|lia|done].
Qed.

Lemma parse_string_ext (s t x r : string) :
  parse_string s = Some (x, r) → parse_string (s +:+ t) = Some (x, r +:+ t).
Proof.
  unfold parse_string. intros Hs.
  destruct (scan_string s) as [[ps r']|] eqn:Hscan; [|done].
  rewrite (scan_string_ext _ t _ _ Hscan).
  destruct (text_of ps); by simplify_eq.
Qed.

Lemma parse_strings_ext (fuel fuel' : nat) (s t : string) (xs : list string)
    (r : string) :
  fuel ≤ fuel' →
  parse_strings fuel s = Some (xs, r) →
  parse_strings fuel' (s +:+ t) = Some (xs, r +:+ t).
Proof.
  revert fuel' s xs r. induction fuel as [|fuel IH]; intros fuel' s xs r Hle Hp;
    [done|].
  destruct fuel' as [|fuel']; [lia|].
  destruct s as [|c s']; [done|]. rewrite str_app_cons. cbn [parse_strings] in *.
  destruct (Ascii.eqb c dquote); [|done].
  destruct (parse_string s') as [[x r1]|] eqn:Hx; [|done].
  rewrite (parse_string_ext _ t _ _ Hx).
  destruct (skip_ws r1) as [|d r2] eqn:Hws; [done|].
  rewrite skip_ws_ext, Hws by (by rewrite Hws). rewrite str_app_cons.
  destruct (Ascii.eqb d "]"); [by simplify_eq|].
  destruct (Ascii.eqb d ","); [|done].
  destruct (parse_strings fuel (skip_ws r2)) as [[xs' r3]|] eqn:Hrest; [|done].
  assert (skip_ws r2 ≠ "") as Hne.
  { intros Heq. rewrite Heq in Hrest. by destruct fuel. }
  rewrite skip_ws_ext by done.
  rewrite (IH fuel' _ xs' r3); [by simplify_eq|lia|done].
Qed.

Lemma parse_value_ext (s t : string) (v : jvalue) (r : string) :
  parse_value s = Some (v, r) → parse_value (s +:+ t) = Some (v, r +:+ t).
Proof.
  intros Hv. destruct s as [|c s']; [done|]. rewrite str_app_cons.
  cbn [parse_value] in *.
  destruct (Ascii.eqb c dquote).
  { destruct (parse_string s') as [[x r1]|] eqn:Hx; [|done].
    rewrite (parse_string_ext _ t _ _ Hx). by simplify_eq. }
  destruct (Ascii.eqb c "[").
  { destruct (skip_ws s') as [|d r1] eqn:Hws; [done|].
    rewrite skip_ws_ext, Hws by (by rewrite Hws). rewrite str_app_cons.
    destruct (Ascii.eqb d "]"); [by simplify_eq|].
    destruct (parse_strings _ (String d r1)) as [[xs r2]|] eqn:Hxs; [|done].
    rewrite <- str_app_cons.
    assert (String.length s' ≤ String.length (s' +:+ t)) as Hle
      by (rewrite str_length_app; lia).
    rewrite (parse_strings_ext _ _ _ t _ _ Hle Hxs). by simplify_eq. }
  destruct (Ascii.eqb c "n"); [|done].
  destruct s' as [|u [|l1 [|l2 r1]]]; try done. rewrite !str_app_cons.
  destruct (_ && _); by simplify_eq.
Qed.

Lemma parse_members_ext (fuel fuel' : nat) (s t : string) (ms : jobject)
    (r : string) :
  fuel ≤ fuel' →
  parse_members fuel s = Some (ms, r) →
  parse_members fuel' (s +:+ t) = Some (ms, r +:+ t).
Proof.
  revert fuel' s ms r. induction fuel as [|fuel IH]; intros fuel' s ms r Hle Hp;
    [done|].
  destruct fuel' as [|fuel']; [lia|].
  destruct s as [|c s']; [done|]. rewrite str_app_cons. cbn [parse_members] in *.
  destruct (Ascii.eqb c dquote); [|done].
  destruct (parse_string s') as [[k r0]|] eqn:Hk; [|done].
  rewrite (parse_string_ext _ t _ _ Hk).
  destruct (skip_ws r0) as [|colon r1] eqn:Hws0; [done|].
  rewrite skip_ws_ext, Hws0 by (by rewrite Hws0). rewrite str_app_cons.
  destruct (Ascii.eqb colon ":"); [|done].
  destruct (parse_value (skip_ws r1)) as [[v r2]|] eqn:Hv; [|done].
  assert (skip_ws r1 ≠ "") as Hne1 by (intros Heq; by rewrite Heq in Hv).
  rewrite skip_ws_ext by done. rewrite (parse_value_ext _ t _ _ Hv).
  destruct (skip_ws r2) as [|d r3] eqn:Hws2; [done|].
  rewrite skip_ws_ext, Hws2 by (by rewrite Hws2). rewrite str_app_cons.
  destruct (Ascii.eqb d "}"); [by simplify_eq|].
  destruct (Ascii.eqb d ","); [|done].
  destruct (parse_members fuel (skip_ws r3)) as [[ms' r4]|] eqn:Hrest; [|done].
  assert (skip_ws r3 ≠ "") as Hne3.
  { intros Heq. rewrite Heq in Hrest. by destruct fuel. }
  rewrite skip_ws_ext by done.
  rewrite (IH fuel' _ ms' r4); [by simplify_eq|lia|done].
Qed.

Lemma parse_object_ext (s t : string) (o : jobject) (r : string) :
  parse_object s = Some (o, r) → parse_object (s +:+ t) = Some (o, r +:+ t).
Proof.
  unfold parse_object. intros Ho.
  destruct (skip_ws s) as [|c s'] eqn:Hws; [done|].
  rewrite skip_ws_ext, Hws by (by rewrite Hws). rewrite str_app_cons.
  destruct (Ascii.eqb c "{"); [|done].
  destruct (skip_ws s') as [|d r1] eqn:Hws1; [done|].
  rewrite skip_ws_ext, Hws1 by (by rewrite Hws1). rewrite str_app_cons.
  destruct (Ascii.eqb d "}"); [by simplify_eq|].
  rewrite <- str_app_cons. apply (parse_members_ext (String.length s')); [|done].
  rewrite str_length_app. lia.
Qed.

(** A text that stops before the end of a printed object is not read. *)
Lemma decode_cut (o : jobject) (s rest : string) :
  encode_object o = s +:+ rest → rest ≠ "" → decode s = None.
Proof.
  intros Heq Hrest. unfold decode.
  destruct (parse_object s) as [[o' r]|] eqn:Hs; [|done].
  apply (parse_object_ext _ rest) in Hs.
  rewrite <- Heq, parse_object_encode in Hs. injection Hs as _ Hr.
  destruct r; [|done]. by rewrite str_app_nil_l in Hr.
Qed.

Lemma epistle_of_object_of_epistle (ep : epistle) :
  epistle_of_object (object_of_epistle ep) = Some ep.
Proof. by destruct ep as [? ? ? ? [?|] ? ? ? ? ?]. Qed.

Lemma json_loads_dumps (ep : epistle) : json_loads (json_dumps ep) = Some ep.
Proof.
  unfold json_loads, json_dumps. rewrite decode_encode. cbn [mbind option_bind].
  apply epistle_of_object_of_epistle.
Qed.

Lemma json_loads_cut (ep : epistle) (s rest : string) :
  json_dumps ep = s +:+ rest → rest ≠ "" → json_loads s = None.
Proof.
  intros Heq Hrest. unfold json_loads. by rewrite (decode_cut _ _ _ Heq Hrest).
Qed.

Lemma one_line_escape_char (c : ascii) : PyStr.one_line (escape_char c) = true.
Proof. destruct c as [[] [] [] [] [] [] [] []]; reflexivity. Qed.

Lemma one_line_escape (s : string) : PyStr.one_line (escape s) = true.
Proof.
  induction s as [|c s IH]; [done|].
  cbn [escape]. by rewrite one_line_app, one_line_escape_char, IH.
Qed.

Lemma one_line_quote (s : string) : PyStr.one_line (quote s) = true.
Proof.
  unfold quote. cbn [PyStr.one_line]. by rewrite one_line_app, one_line_escape.
Qed.

Lemma one_line_join {A} (f : A → string) (l : list A) :
  (∀ x, PyStr.one_line (f x) = true) →
  PyStr.one_line (PyStr.join ", " (f <$> l)) = true.
Proof.
  intros Hf. induction l as [|x [|y l] IH]; [done|apply Hf|].
  rewrite !fmap_cons, join_cons2, <- fmap_cons, !one_line_app, Hf, IH. done.
Qed.

Lemma one_line_value (v : jvalue) : PyStr.one_line (encode_value v) = true.
Proof.
  destruct v as [|s|l]; [done|apply one_line_quote|].
  cbn [encode_value]. rewrite !one_line_app, (one_line_join quote); [done|].
  apply one_line_quote.
Qed.

Lemma one_line_object (o : jobject) : PyStr.one_line (encode_object o) = true.
Proof.
  unfold encode_object. rewrite !one_line_app, (one_line_join encode_member); [done|].
  intros [k v]. unfold encode_member.
  by rewrite !one_line_app, one_line_quote, one_line_value.
Qed.

End JsonFacts.

(** [json.dumps] and [json.loads], as [ascii_lib] has them, keep the
    contract. *)
Lemma ascii_contract : @JsonContract ascii_lib.
Proof.
  split.
  - apply JsonFacts.json_loads_dumps.
  - intros ep. apply JsonFacts.one_line_object.
  - intros ep. eexists. reflexivity.
  - apply JsonFacts.json_loads_cut.
Qed.

(** ** Loading and saving under failures *)

Section StoreFailures.
Context `{PyLib}.

Lemma load_lines_parsed (lines : list string) (records acc : list epistle) :
  Forall2 (λ l r, loads (PyStr.strip l) = Some r) (List.filter nonblank lines) records →
  load_lines lines acc = (acc ++ records, true).
Proof.
  revert records acc. induction lines as [|l lines IH]; intros records acc Hpre.
  - cbn in Hpre. apply Forall2_nil_inv_l in Hpre as ->. by rewrite app_nil_r.
  - cbn [List.filter load_lines] in *. unfold nonblank in Hpre at 1.
    destruct (PyStr.truthy (PyStr.strip l)).
    + apply Forall2_cons_inv_l in Hpre as (r & records' & Hr & Hrest & ->).
      rewrite Hr, (IH records') by done. by rewrite <- app_assoc.
    + by apply IH.
Qed.

Lemma load_returns (ft : fault) (w : world) :
  ∃ L w', _load_registry ft w = (Returns L, w') ∧ files w' = files w.
Proof.
  unfold _load_registry. destruct (path_exists _ _); [|by eauto].
  destruct (read_file _ _ _) as [ls ok], (load_lines ls []) as [L ok'].
  destruct (ok' && ok); by eauto.
Qed.

(** What [load] returns depends on the files only. *)
Lemma load_files (ft : fault) (w1 w2 : world) :
  files w1 = files w2 →
  (_load_registry ft w1).1 = (_load_registry ft w2).1
  ∧ ∃ l, stderr (_load_registry ft w1).2 = stderr w1 ++ l.
Proof.
  intros Hf. unfold _load_registry, path_exists, read_file. rewrite Hf.
  destruct (files w2 !! registry_file) as [text|]; [|split; [done|]; exists []; cbn;
    by rewrite app_nil_r].
  destruct ft as [| |k].
  - destruct (load_lines _ []) as [L []]; cbn; (split; [done|]).
    + exists []. by rewrite app_nil_r.
    + by eexists.
  - cbn. split; [done|]. by eexists.
  - destruct (k <? _); destruct (load_lines _ []) as [L []]; cbn; (split; [done|]);
      try by eexists. exists []. by rewrite app_nil_r.
Qed.

Lemma load_registry_of (w w' : world) (L : list epistle) :
  _load_registry NoFault w = (Returns L, w') → registry_of w = L.
Proof. unfold registry_of. by intros ->. Qed.

Lemma load_same_registry (ft : fault) (w1 w2 : world) :
  files w1 !! registry_file = files w2 !! registry_file →
  (_load_registry ft w1).1 = (_load_registry ft w2).1.
Proof.
  intros Hf. unfold _load_registry, path_exists, read_file. rewrite Hf.
  destruct (files w2 !! registry_file) as [text|]; [|done].
  destruct ft as [| |k].
  - by destruct (load_lines _ []) as [L []].
  - done.
  - by destruct (k <? _); destruct (load_lines _ []) as [L []].
Qed.

Lemma registry_of_same (w1 w2 : world) :
  files w1 !! registry_file = files w2 !! registry_file →
  registry_of w1 = registry_of w2.
Proof. intros Hf. unfold registry_of. by rewrite (load_same_registry _ w1 w2). Qed.

Lemma load_lines_extends (lines : list string) (acc : list epistle) :
  ∃ more, (load_lines lines acc).1 = acc ++ more.
Proof.
  revert acc. induction lines as [|l lines IH]; intros acc.
  - exists []. by rewrite app_nil_r.
  - cbn [load_lines]. destruct (PyStr.truthy _); [|apply IH].
    destruct (loads _) as [ep|].
    + destruct (IH (acc ++ [ep])) as [more ->]. exists (ep :: more).
      by rewrite <- app_assoc.
    + exists []. by rewrite app_nil_r.
Qed.

Lemma load_lines_take (k : nat) (lines : list string) :
  (load_lines (take k lines) []).1 `prefix_of` (load_lines lines []).1.
Proof.
  rewrite <- (take_drop k lines) at 2. rewrite load_lines_app.
  destruct (load_lines (take k lines) []) as [acc []]; [|done].
  destruct (load_lines_extends (drop k lines) acc) as [more ->]. by exists more.
Qed.

(** Whatever the fault, [load] returns a prefix of the registry. *)
Lemma load_prefix (ft : fault) (w : world) :
  ∃ L, (_load_registry ft w).1 = Returns L ∧ L `prefix_of` registry_of w.
Proof.
  unfold registry_of, _load_registry, path_exists, read_file.
  destruct (files w !! registry_file) as [text|]; [|by exists []].
  destruct ft as [| |k].
  - destruct (load_lines _ []) as [L []]; by exists L.
  - exists []. split; [done|]. apply prefix_nil.
  - destruct (k <? _).
    + pose proof (load_lines_take k (PyStr.readlines text)) as Hp.
      destruct (load_lines (take k _) []) as [L ok], (load_lines _ []) as [L' ok'].
      exists L. split; [by destruct (ok && false)|]. by destruct ok'.
    + destruct (load_lines _ []) as [L []]; by exists L.
Qed.

Lemma save_returns (ft : fault) (X : list epistle) (w : world) :
  ∃ w', _save_registry ft X w = (Returns (), w').
Proof.
  unfold _save_registry. destruct (write_file _ _ _ _) as [[] w']; by eauto.
Qed.

End StoreFailures.

(** C10: when a line of the registry file fails to parse, [load] returns
    the records of the non-blank lines before the first such line and nothing
    of what follows it; the call returns normally, the failure goes to
    stderr only, and the malformed line is not skipped. *)
Theorem load_stops_at_malformed_line `{PyLib} (w : world) (text : string)
    (pre post : list string) (bad : string) (records : list epistle) :
  files w !! registry_file = Some text →
  PyStr.readlines text = pre ++ bad :: post →
  Forall2 (λ l r, loads (PyStr.strip l) = Some r) (List.filter nonblank pre) records →
  nonblank bad = true →
  loads (PyStr.strip bad) = None →
  _load_registry NoFault w = (Returns records, eprint "Error loading registry" w).
Proof.
  intros Hf Hlines Hpre Hbad Hnone.
  unfold _load_registry, path_exists, read_file. rewrite Hf, Hlines.
  rewrite load_lines_app, (load_lines_parsed pre records []) by done.
  cbn [load_lines app]. unfold nonblank in Hbad. by rewrite Hbad, Hnone.
Qed.

Section StoreCut.
Context `{HC : JsonContract}.

(** A registry file that holds the first [k] bytes of the lines of [X]
    is read as the first records of [X]. *)
Lemma registry_of_cut (X : list epistle) (k : nat) (w : world) :
  files w !! registry_file
  = Some (String.substring 0 k (String.concat "" (registry_line <$> X))) →
  ∃ j, registry_of w = take j X.
Proof.
  intros Hf. unfold registry_of, _load_registry, path_exists, read_file. rewrite Hf.
  destruct (load_cut X k []) as (j & ok & ->). exists j. by destruct ok.
Qed.

End StoreCut.


(** C4, as the code has it: an I/O failure of [load] or [save] is caught
    inside the operation; the operation prints a message on stderr and
    returns normally.  A [load] whose reading fails after [k] lines returns
    the records of these [k] lines, the first [k] records of a registry that
    [save] wrote, and a [load] whose [open] fails returns none; a failed
    [load] changes no file.  A [save] returns in the same way wherever it
    fails, also when there was no registry file. *)
Theorem io_failures_are_swallowed `{HC : JsonContract} (k : nat) (text : string)
    (w : world) (ft_save : fault) (Y : list epistle) (ws : world) :
  files w !! registry_file = Some text →
  k < length (PyStr.readlines text) →
  ft_save ≠ NoFault →
  _load_registry (FailsAfter k) w
  = (Returns (load_lines (take k (PyStr.readlines text)) []).1,
     eprint "Error loading registry" w)
  ∧ (∀ X, text = String.concat "" (registry_line <$> X) →
          _load_registry (FailsAfter k) w
          = (Returns (take k X), eprint "Error loading registry" w))
  ∧ _load_registry OpenFails w = (Returns [], eprint "Error loading registry" w)
  ∧ ∃ ws', _save_registry ft_save Y ws = (Returns (), ws')
           ∧ stderr ws' = stderr ws ++ ["Error saving registry"].
Proof.
  intros Hf Hk Hsave.
  assert (_load_registry (FailsAfter k) w
          = (Returns (load_lines (take k (PyStr.readlines text)) []).1,
             eprint "Error loading registry" w)) as Hload.
  { unfold _load_registry, path_exists, read_file. rewrite Hf.
    destruct (Nat.ltb_spec k (length (PyStr.readlines text))) as [_|?]; [|lia].
    destruct (load_lines _ []) as [L ok]. by rewrite andb_false_r. }
  split; [done|]. split; [|split].
  - intros X ->. rewrite Hload, readlines_registry, <- fmap_take.
    by rewrite load_lines_registry.
  - unfold _load_registry, path_exists, read_file. by rewrite Hf.
  - unfold _save_registry, write_file. destruct ft_save as [| |n]; [done| |];
      by eexists.
Qed.

(** ** Create *)

Section CreateFacts.
Context `{PyLib}.

Lemma write_template_returns (ft : fault) (name : string) (ep : epistle) (w : world) :
  ∃ w', _write_epistle_template ft name ep w = (Returns (), w')
        ∧ (ft ≠ OpenFails → ∃ text, files w' = <[name := text]> (files w))
        ∧ (ft = OpenFails → w' = eprint "Error writing epistle" w).
Proof.
  unfold _write_epistle_template, write_file. destruct ft as [| |k].
  - eexists. split; [done|]. split; [by eauto|done].
  - eexists. split; [done|]. split; [done|by eauto].
  - eexists. split; [done|]. split; [by eauto|done].
Qed.

(** The steps of a call of [cmd_epistle_new] with two personas or more. *)
Lemma cmd_epistle_new_steps (io : new_faults) (clk : clock) (args : NewArgs.t)
    (w : world) :
  2 ≤ length (PyStr.split "," (NewArgs.with_personas args)) →
  ∃ n ep L w1 w2 w3,
    file ep = candidate (persona_slug (PyStr.split "," (NewArgs.with_personas args)))
                (strftime_stamp clk) n
    ∧ (file ep ∉ dom (files w))
    ∧ _write_epistle_template (nf_template io) (file ep) ep w = (Returns (), w1)
    ∧ _load_registry (nf_load io) w1 = (Returns L, w2)
    ∧ _save_registry (nf_save io) (L ++ [ep]) w2 = (Returns (), w3)
    ∧ cmd_epistle_new io clk args w = (Returns ep, w3).
Proof.
  intros Hlen. unfold cmd_epistle_new.
  assert (PyStr.truthy (NewArgs.with_personas args) = true) as ->.
  { destruct (NewArgs.with_personas args); [cbn in Hlen; lia|done]. }
  destruct (Nat.ltb_spec (length (PyStr.split "," (NewArgs.with_personas args))) 2)
    as [?|_]; [lia|].
  set (slug := persona_slug _).
  destruct (unique_filename_Some w slug (strftime_stamp clk))
    as (n & -> & _ & Hfree & _).
  set (ep := Epistle _ _ _ _ _ _ _ _ _ _).
  destruct (write_template_returns (nf_template io) (file ep) ep w) as (w1 & Hw1 & _).
  destruct (load_returns (nf_load io) w1) as (L & w2 & Hw2 & _).
  destruct (save_returns (nf_save io) (L ++ [ep]) w2) as (w3 & Hw3).
  exists n, ep, L, w1, w2, w3. split; [done|]. split.
  { rewrite <- path_exists_dom. cbn [file ep]. by rewrite Hfree. }
  do 3 (split; [done|]). unfold bind. cbn [file ep] in Hw1. rewrite Hw1, Hw2.
  by rewrite Hw3.
Qed.

End CreateFacts.

(** C1, as the code has it: when creating the document fails, Create
    prints the failure and carries on; the new entry is appended to the
    records loaded and saved, and Create returns it.  After a failed [open]
    the registry holds the entry and the directory holds no document for
    it. *)
Theorem new_records_entry_without_document `{PyLib} (clk : clock) (args : NewArgs.t)
    (w : world) :
  2 ≤ length (PyStr.split "," (NewArgs.with_personas args)) →
  ∃ ep w',
    cmd_epistle_new (NewFaults OpenFails NoFault NoFault) clk args w = (Returns ep, w')
    ∧ files w' !! file ep = None
    ∧ files w' !! registry_file
      = Some (String.concat "" (registry_line <$> (registry_of w ++ [ep])))
    ∧ "Error writing epistle" ∈ stderr w'.
Proof.
  intros Hlen.
  destruct (cmd_epistle_new_steps (NewFaults OpenFails NoFault NoFault) clk args w Hlen)
    as (n & ep & L & w1 & w2 & w3 & Hname & Hfree & Hw1 & Hw2 & Hw3 & Hrun).
  cbn [nf_template nf_load nf_save] in *.
  destruct (write_template_returns OpenFails (file ep) ep w) as (w1' & Hw1' & _ & Hopen).
  rewrite Hw1 in Hw1'. injection Hw1' as <-. specialize (Hopen eq_refl). subst w1.
  destruct (load_files NoFault (eprint "Error writing epistle" w) w eq_refl)
    as [Hrec [l Herr]].
  destruct (load_returns NoFault (eprint "Error writing epistle" w))
    as (L' & w2' & Hw2' & Hfiles).
  rewrite Hw2 in Hw2'. injection Hw2' as <- <-.
  rewrite Hw2 in Hrec, Herr. cbn [fst snd] in Hrec, Herr.
  assert (registry_of w = L) as ->.
  { unfold registry_of. by rewrite <- Hrec. }
  injection Hw3 as <-. exists ep, (set_file registry_file
    (String.concat "" (registry_line <$> L ++ [ep])) w2).
  split; [done|]. split; [|split].
  - cbn. rewrite lookup_insert_ne.
    + rewrite Hfiles. cbn. by apply not_elem_of_dom.
    + rewrite Hname. intros Heq. symmetry in Heq.
      by apply candidate_not_registry in Heq.
  - cbn. by rewrite lookup_insert_eq.
  - cbn. rewrite Herr. cbn. set_solver.
Qed.

(** ** Show *)

Lemma find_first {A} (p : A → bool) (l : list A) (x : A) :
  List.find p l = Some x →
  ∃ before after, l = before ++ x :: after ∧ p x = true
                  ∧ Forall (λ y, p y = false) before.
Proof.
  induction l as [|y l IH]; [done|]. cbn [List.find].
  destruct (p y) eqn:Hy.
  - intros [= ->]. by exists [], l.
  - intros (before & after & -> & Hx & Hb)%IH.
    exists (y :: before), after. split; [done|]. split; [done|]. by constructor.
Qed.

Lemma find_nothing {A} (p : A → bool) (l : list A) :
  List.find p l = None → Forall (λ y, p y = false) l.
Proof.
  induction l as [|y l IH]; [done|]. cbn [List.find].
  destruct (p y) eqn:Hy; [done|]. intros Hl. constructor; [done|by apply IH].
Qed.

(** C3, as the code has it: Show returns the first record of the registry,
    in registry order, whose id equals the identifier up to case or whose
    file name starts with it up to case; it exits with status 1 when no
    record passes this test.  An exact id match wins over the file-prefix
    matches of later records only. *)
Theorem show_first_match `{PyLib} (ft_load ft_read : fault) (identifier : string)
    (w w1 : world) (epistles : list epistle) :
  _load_registry ft_load w = (Returns epistles, w1) →
  match (cmd_epistle_show ft_load ft_read identifier w).1 with
  | Returns (ep, _) =>
      ∃ before after,
        epistles = before ++ ep :: after
        ∧ show_match (lower identifier) ep = true
        ∧ Forall (λ x, show_match (lower identifier) x = false) before
  | Raises e =>
      e = SystemExit 1
      ∧ Forall (λ x, show_match (lower identifier) x = false) epistles
  | OutOfFuel => False
  end.
Proof.
  intros Hload. unfold cmd_epistle_show, bind. rewrite Hload.
  destruct (List.find _ epistles) as [ep|] eqn:Hfind.
  - apply find_first in Hfind.
    destruct (path_exists _ _); [destruct (read_text _ _ _)|]; done.
  - apply find_nothing in Hfind. done.
Qed.

(** ** List *)

Section ListFacts.
Context `{PyLib}.

Lemma str_in_spec (x : string) (l : list string) : str_in x l = true ↔ x ∈ l.
Proof.
  unfold str_in. rewrite existsb_exists. split.
  - intros (y & Hy & ->%String.eqb_eq). by apply list_elem_of_In.
  - intros Hx. exists x. split; [by apply list_elem_of_In|apply String.eqb_refl].
Qed.

Lemma truthy_spec (s : string) : PyStr.truthy s = true ↔ s ≠ "".
Proof. by destruct s. Qed.

Lemma filter_bool {A} (p : A → bool) (P : A → Prop) `{!∀ x, Decision (P x)}
    (l : list A) :
  (∀ x, p x = true ↔ P x) → List.filter p l = filter P l.
Proof.
  intros Hp. induction l as [|x l IH]; [done|]. cbn [List.filter].
  rewrite filter_cons, IH. destruct (p x) eqn:Hx.
  - rewrite decide_True; [done|by apply Hp].
  - rewrite decide_False; [done|]. rewrite <- Hp. by rewrite Hx.
Qed.

Lemma filter_all {A} (P : A → Prop) `{!∀ x, Decision (P x)} (l : list A) :
  (∀ x, P x) → filter P l = l.
Proof.
  intros HP. induction l as [|x l IH]; [done|].
  by rewrite filter_cons_True, IH.
Qed.

Lemma list_filter_selected (args : ListArgs.t) (epistles : list epistle) :
  list_filter args epistles = filter (selected args) epistles.
Proof.
  unfold list_filter.
  set (P1 := λ e : epistle, match ListArgs.filter args with
    | Some p => p ≠ "" → Exists (λ q, lower q = lower p) (personas e)
    | None => True end).
  set (P2 := λ e : epistle, match ListArgs.since args with
    | Some d => d ≠ "" → String.leb d (date e) = true
    | None => True end).
  assert (∀ e, Decision (P1 e)) as D1.
  { intros e. unfold P1. destruct (ListArgs.filter args); apply _. }
  assert (∀ e, Decision (P2 e)) as D2.
  { intros e. unfold P2. destruct (ListArgs.since args); apply _. }
  assert (∀ l, match ListArgs.filter args with
    | Some f => if PyStr.truthy f
                then List.filter (λ e, str_in (lower f) (lower <$> personas e)) l
                else l
    | None => l end = filter P1 l) as ->.
  { intros l. unfold P1. destruct (ListArgs.filter args) as [f|].
    - destruct (PyStr.truthy f) eqn:Hf.
      + apply filter_bool. intros e. rewrite str_in_spec, list_elem_of_fmap, Exists_exists.
        apply truthy_spec in Hf. split.
        * intros (q & Hq & Hin) _. by exists q.
        * intros Hex. destruct (Hex Hf) as (q & Hin & Hq). by exists q.
      + symmetry. apply filter_all. intros e Hne. destruct f; done.
    - symmetry. by apply filter_all. }
  assert (∀ l, match ListArgs.since args with
    | Some d => if PyStr.truthy d then List.filter (λ e, PyStr.ge (date e) d) l else l
    | None => l end = filter P2 l) as ->.
  { intros l. unfold P2. destruct (ListArgs.since args) as [d|].
    - destruct (PyStr.truthy d) eqn:Hd.
      + apply filter_bool. intros e. unfold PyStr.ge. apply truthy_spec in Hd.
        naive_solver.
      + symmetry. apply filter_all. intros e Hne. destruct d; done.
    - symmetry. by apply filter_all. }
  rewrite list_filter_filter. apply list_filter_iff. intros e. unfold selected, P1, P2.
  tauto.
Qed.

Lemma insert_by_date_perm (x : epistle) (l : list epistle) :
  insert_by_date x l ≡ₚ x :: l.
Proof.
  induction l as [|y l IH]; [done|]. cbn [insert_by_date].
  destruct (String.ltb _ _); [|done]. rewrite IH. apply Permutation_swap.
Qed.

Lemma sorted_by_date_perm (l : list epistle) : sorted_by_date l ≡ₚ l.
Proof.
  induction l as [|x l IH]; [done|]. unfold sorted_by_date in *. cbn [foldr].
  by rewrite insert_by_date_perm, IH.
Qed.

End ListFacts.

(** C6, as the code has it: List prints exactly the loaded records that
    pass both filters: a record passes the persona filter [p] when [p] is
    empty or equals one of its personas up to case, and the date filter [d]
    when [d] is empty or its date is not below [d] in the order of strings;
    a filter that is absent keeps every record. *)
Theorem list_returns_selected `{PyLib} (ft : fault) (args : ListArgs.t) (w : world) :
  ∃ epistles rows w1,
    _load_registry ft w = (Returns epistles, w1)
    ∧ cmd_epistle_list ft args w = (Returns rows, w1)
    ∧ rows ≡ₚ filter (selected args) epistles.
Proof.
  destruct (load_returns ft w) as (epistles & w1 & Hload & _).
  exists epistles, (sorted_by_date (list_filter args epistles)), w1.
  split; [done|]. split.
  - unfold cmd_epistle_list, bind. by rewrite Hload.
  - by rewrite sorted_by_date_perm, list_filter_selected.
Qed.

(** ** AddContext *)

Lemma first_seen_filter (P : string → Prop) `{!∀ x, Decision (P x)} (l : list string) :
  first_seen (filter P l) = filter P (first_seen l).
Proof.
  induction l as [|x l IH]; [done|]. cbn [first_seen].
  destruct (decide (P x)) as [Hx|Hx].
  - rewrite !filter_cons_True by done. cbn [first_seen]. rewrite IH.
    rewrite !list_filter_filter. f_equal. apply list_filter_iff. tauto.
  - rewrite !filter_cons_False by done. rewrite IH, list_filter_filter.
    apply list_filter_iff. intros y. split; [|tauto]. intros Hy. split; [done|].
    by intros ->.
Qed.

Lemma add_context_cons (ctx : list string) (p : string) (paths : list string) :
  add_context ctx (p :: paths)
  = add_context (if str_in p ctx then ctx else ctx ++ [p]) paths.
Proof. done. Qed.

Lemma str_in_decide (x : string) (l : list string) :
  str_in x l = bool_decide (x ∈ l).
Proof.
  destruct (str_in x l) eqn:Hin; symmetry.
  - by apply bool_decide_eq_true, str_in_spec.
  - apply bool_decide_eq_false. rewrite <- str_in_spec. by rewrite Hin.
Qed.

Lemma add_context_first_seen (ctx paths : list string) :
  add_context ctx paths = ctx ++ first_seen (filter (λ p, p ∉ ctx) paths).
Proof.
  revert ctx. induction paths as [|p paths IH]; intros ctx.
  - by rewrite app_nil_r.
  - rewrite add_context_cons, str_in_decide. case_bool_decide as Hp.
    + rewrite filter_cons_False by tauto. apply IH.
    + rewrite filter_cons_True by done. cbn [first_seen].
      rewrite IH, <- app_assoc. cbn [app]. do 2 f_equal.
      rewrite <- first_seen_filter, list_filter_filter. f_equal.
      apply list_filter_iff. intros y. rewrite elem_of_app, list_elem_of_singleton.
      tauto.
Qed.

Lemma add_context_present (ctx paths : list string) :
  (∀ p, p ∈ paths → p ∈ ctx) → add_context ctx paths = ctx.
Proof.
  intros Hin. rewrite add_context_first_seen.
  replace (filter (λ p, p ∉ ctx) paths) with (@nil string); [by rewrite app_nil_r|].
  symmetry. induction paths as [|p paths IH]; [done|].
  rewrite filter_cons_False.
  - apply IH. intros q Hq. apply Hin. by right.
  - intros Hp. apply Hp, Hin. by left.
Qed.

Lemma first_seen_elem (l : list string) (x : string) : x ∈ first_seen l ↔ x ∈ l.
Proof.
  induction l as [|y l IH]; [done|]. cbn [first_seen].
  rewrite !elem_of_cons, list_elem_of_filter, IH.
  destruct (decide (x = y)); tauto.
Qed.

Lemma first_seen_NoDup (l : list string) : NoDup (first_seen l).
Proof.
  induction l as [|y l IH]; [constructor|]. cbn [first_seen]. constructor.
  - rewrite list_elem_of_filter. by intros [Hne _].
  - by apply NoDup_filter.
Qed.

Lemma add_context_elem (ctx paths : list string) (p : string) :
  p ∈ paths → p ∈ add_context ctx paths.
Proof.
  intros Hp. rewrite add_context_first_seen, elem_of_app, first_seen_elem.
  rewrite list_elem_of_filter. destruct (decide (p ∈ ctx)); tauto.
Qed.

Lemma add_context_idem (ctx paths : list string) :
  add_context (add_context ctx paths) paths = add_context ctx paths.
Proof. apply add_context_present. intros p. apply add_context_elem. Qed.

Lemma count_occ_fresh (l : list string) (p : string) :
  p ∉ l → count_occ string_dec l p = 0.
Proof. intros Hp. apply count_occ_not_In. by rewrite <- list_elem_of_In. Qed.

Lemma count_occ_NoDup (l : list string) (p : string) :
  NoDup l → p ∈ l → count_occ string_dec l p = 1.
Proof.
  intros Hnd Hp. apply NoDup_ListNoDup in Hnd.
  rewrite (NoDup_count_occ string_dec) in Hnd. specialize (Hnd p).
  apply list_elem_of_In, (count_occ_In string_dec) in Hp. lia.
Qed.

Lemma with_context_twice (ep : epistle) (c c' : list string) :
  with_context (with_context ep c) c' = with_context ep c'.
Proof. done. Qed.

Lemma list_find_insert_same {A} (P : A → Prop) `{!∀ x, Decision (P x)}
    (l : list A) (i : nat) (x y : A) :
  list_find P l = Some (i, x) → P y → list_find P (<[i := y]> l) = Some (i, y).
Proof.
  intros (Hi & Hx & Hbefore)%list_find_Some Hy. apply list_find_Some.
  split; [|split; [done|]].
  - apply list_lookup_insert_eq. by eapply lookup_lt_Some.
  - intros j z Hj Hlt. rewrite list_lookup_insert_ne in Hj by lia. by eapply Hbefore.
Qed.

Section AddContextFacts.
Context `{HC : JsonContract}.

(** One call of [cmd_epistle_add_context] without I/O failure. *)
Lemma add_context_run (args : ContextArgs.t) (paths : list string) (w : world)
    (i : nat) (ep : epistle) :
  list_find (λ e, lower (id e) = lower (ContextArgs.epistle_id args)) (registry_of w)
    = Some (i, ep) →
  ContextArgs.context args = Some paths →
  ∃ w',
    cmd_epistle_add_context NoFault NoFault args w
    = (Returns (with_context ep (add_context (context ep) paths)), w')
    ∧ registry_of w'
      = <[i := with_context ep (add_context (context ep) paths)]> (registry_of w).
Proof.
  intros Hfind Hpaths.
  destruct (load_returns NoFault w) as (L & w1 & Hload & Hfiles).
  rewrite (load_registry_of _ _ _ Hload) in *.
  unfold cmd_epistle_add_context, bind. rewrite Hload, Hfind, Hpaths.
  eexists. split; [reflexivity|].
  eapply load_registry_of, load_registry_text. cbn. by rewrite lookup_insert_eq.
Qed.

End AddContextFacts.

(** C7, as the code has it: AddContext appends to the context of the
    record found the paths of the argument list that the context does not
    hold, each once, in the order they are first seen; a second call with
    the same paths changes nothing.  So a path that was not in the context
    is in it exactly once after two calls (a path Create stored twice stays
    twice). *)
Theorem add_context_appends_unseen `{HC : JsonContract} (args : ContextArgs.t)
    (paths : list string) (w : world) (i : nat) (ep : epistle) :
  list_find (λ e, lower (id e) = lower (ContextArgs.epistle_id args)) (registry_of w)
    = Some (i, ep) →
  ContextArgs.context args = Some paths →
  let ep' :=
    with_context ep (context ep ++ first_seen (filter (λ p, p ∉ context ep) paths)) in
  ∃ w1 w2,
    cmd_epistle_add_context NoFault NoFault args w = (Returns ep', w1)
    ∧ registry_of w1 = <[i := ep']> (registry_of w)
    ∧ cmd_epistle_add_context NoFault NoFault args w1 = (Returns ep', w2)
    ∧ registry_of w2 = registry_of w1
    ∧ ∀ p, p ∈ paths → p ∉ context ep → count_occ string_dec (context ep') p = 1.
Proof.
  intros Hfind Hpaths ep'.
  destruct (add_context_run args paths w i ep Hfind Hpaths) as (w1 & Hrun1 & Hreg1).
  rewrite add_context_first_seen in Hrun1, Hreg1. fold ep' in Hrun1, Hreg1.
  assert (list_find (λ e, lower (id e) = lower (ContextArgs.epistle_id args))
            (registry_of w1) = Some (i, ep')) as Hfind1.
  { rewrite Hreg1. eapply list_find_insert_same; [done|].
    apply list_find_Some in Hfind as (_ & Hid & _). done. }
  destruct (add_context_run args paths w1 i ep' Hfind1 Hpaths) as (w2 & Hrun2 & Hreg2).
  assert (with_context ep' (add_context (context ep') paths) = ep') as Hsame.
  { unfold ep' at 1 2. rewrite with_context_twice. cbn [context with_context].
    by rewrite <- add_context_first_seen, add_context_idem, add_context_first_seen. }
  rewrite Hsame in Hrun2, Hreg2.
  exists w1, w2. do 3 (split; [done|]). split.
  - rewrite Hreg2, Hreg1. by rewrite list_insert_insert_eq.
  - intros p Hp Hfresh. cbn [context ep' with_context].
    rewrite count_occ_app, count_occ_fresh by done.
    rewrite count_occ_NoDup; [done|apply first_seen_NoDup|].
    by rewrite first_seen_elem, list_elem_of_filter.
Qed.

(** ** Sequences of Create calls *)

Section CreateSequences.
Context `{HC : JsonContract}.

(** After [save], the registry is what it was, or a prefix of the
    records given. *)
Lemma save_registry_of (ft : fault) (X : list epistle) (w : world) :
  ∃ w', _save_registry ft X w = (Returns (), w')
        ∧ dom (files w) ⊆ dom (files w')
        ∧ (∀ name, name ≠ registry_file → files w' !! name = files w !! name)
        ∧ (registry_of w' = registry_of w ∨ registry_of w' `prefix_of` X).
Proof.
  assert (∀ Y, registry_of (set_file registry_file
            (String.concat "" (registry_line <$> Y)) w) = Y) as Hset.
  { intros Y. eapply load_registry_of, load_registry_text. cbn.
    by rewrite lookup_insert_eq. }
  assert (∀ t, dom (files w) ⊆ dom (files (set_file registry_file t w))) as Hdom.
  { intros t. cbn. rewrite dom_insert_L. set_solver. }
  assert (∀ t name, name ≠ registry_file →
            files (set_file registry_file t w) !! name = files w !! name) as Hne.
  { intros t name Hname. cbn. by rewrite lookup_insert_ne. }
  unfold _save_registry, write_file. destruct ft as [| |k].
  - eexists. split; [done|]. split; [apply Hdom|]. split; [apply Hne|].
    right. by rewrite Hset.
  - eexists. split; [done|]. split; [set_solver|]. split; [done|]. left.
    by apply registry_of_same.
  - eexists. split; [done|]. cbn [eprint files]. split; [apply Hdom|].
    split; [apply Hne|]. right.
    destruct (registry_of_cut X k (eprint "Error saving registry"
      (set_file registry_file
         (String.substring 0 k (String.concat "" (registry_line <$> X))) w)))
      as [j ->]; [|apply prefix_take].
    cbn. by rewrite lookup_insert_eq.
Qed.

Lemma store_consistent_prefix (w w' : world) (L : list epistle) (ep : epistle) :
  store_consistent w →
  L `prefix_of` registry_of w →
  file ep ∉ dom (files w) →
  dom (files w) ⊆ dom (files w') →
  file ep ∈ dom (files w') →
  registry_of w' `prefix_of` L ++ [ep] →
  store_consistent w'.
Proof.
  intros [Hnd Hex] [more HL] Hfresh Hdom Hep [rest Hreg].
  assert (NoDup (file <$> L ++ [ep])) as HndL.
  { rewrite fmap_app. apply NoDup_app. split; [|split].
    - rewrite HL, fmap_app in Hnd. by apply NoDup_app in Hnd as [? _].
    - intros x [e [-> He]]%list_elem_of_fmap. cbn. rewrite list_elem_of_singleton.
      intros Heq. apply Hfresh. rewrite <- Heq. apply Hex. rewrite HL.
      apply elem_of_app. by left.
    - cbn. apply NoDup_singleton. }
  split.
  - rewrite Hreg, fmap_app in HndL. by apply NoDup_app in HndL as [? _].
  - intros e He.
    assert (e ∈ L ++ [ep]) as Hin.
    { rewrite Hreg. apply elem_of_app. by left. }
    apply elem_of_app in Hin as [HeL|Hs].
    + apply Hdom, Hex. rewrite HL. apply elem_of_app. by left.
    + by apply list_elem_of_singleton in Hs as ->.
Qed.

(** One Create call keeps the store consistent when the document file
    gets created. *)
Lemma cmd_epistle_new_consistent (io : new_faults) (clk : clock)
    (args : NewArgs.t) (w : world) :
  nf_template io ≠ OpenFails →
  store_consistent w →
  store_consistent (cmd_epistle_new io clk args w).2.
Proof.
  intros Hio Hw.
  destruct (decide (2 ≤ length (PyStr.split "," (NewArgs.with_personas args))))
    as [Hlen|Hlen].
  - destruct (cmd_epistle_new_steps io clk args w Hlen)
      as (n & ep & L & w1 & w2 & w3 & Hname & Hfree & Hw1 & Hw2 & Hw3 & ->).
    cbn [snd].
    destruct (write_template_returns (nf_template io) (file ep) ep w)
      as (w1' & Hw1' & [text Hfiles1] & _); [done|].
    rewrite Hw1 in Hw1'. injection Hw1' as <-.
    destruct (load_returns (nf_load io) w1) as (L' & w2' & Hw2' & Hfiles2).
    rewrite Hw2 in Hw2'. injection Hw2' as <- <-.
    destruct (load_prefix (nf_load io) w1) as (L' & HL' & Hprefix).
    rewrite Hw2 in HL'. injection HL' as <-.
    destruct (save_registry_of (nf_save io) (L ++ [ep]) w2)
      as (w3' & Hw3' & Hdom3 & Hother3 & Hreg3).
    rewrite Hw3 in Hw3'. injection Hw3' as <-.
    assert (file ep ≠ registry_file) as Hne.
    { rewrite Hname. apply candidate_not_registry. }
    assert (registry_of w1 = registry_of w) as Hreg1.
    { apply registry_of_same. rewrite Hfiles1. by rewrite lookup_insert_ne. }
    assert (registry_of w2 = registry_of w) as Hreg2.
    { rewrite <- Hreg1. apply registry_of_same. by rewrite Hfiles2. }
    assert (dom (files w) ⊆ dom (files w3)) as Hdom.
    { etrans; [|apply Hdom3]. rewrite Hfiles2, Hfiles1, dom_insert_L.
      apply union_subseteq_r. }
    assert (file ep ∈ dom (files w3)) as Hep.
    { apply Hdom3. rewrite Hfiles2, Hfiles1, dom_insert_L.
      by apply elem_of_union_l, elem_of_singleton. }
    destruct Hreg3 as [Hsame|Hpre].
    + destruct Hw as [Hnd Hex]. split; rewrite Hsame, Hreg2; [done|].
      intros e He. by apply Hdom, Hex.
    + eapply (store_consistent_prefix w w3 L ep); try done. by rewrite <- Hreg1.
  - assert ((cmd_epistle_new io clk args w).2
            = eprint "Error: Need at least 2 personas (--with persona1,persona2)" w)
      as ->.
    { unfold cmd_epistle_new.
      destruct (PyStr.truthy _); [|done].
      by destruct (Nat.ltb_spec (length (PyStr.split "," (NewArgs.with_personas args))) 2);
        [|lia]. }
    destruct Hw as [Hnd Hex]. unfold store_consistent.
    by rewrite (registry_of_same _ w).
Qed.

End CreateSequences.

(** C5, as the code has it: from a store whose registry names distinct
    files that all exist (an empty store, say), after every sequence of
    Create calls each of which gets its document file created, the file
    values of the registry's records are pairwise distinct, also for calls
    with the same personas in the same second; the loads and saves of the
    calls may fail. *)
Theorem create_files_distinct `{HC : JsonContract}
    (calls : list (new_faults * clock * NewArgs.t)) (w : world) :
  store_consistent w →
  Forall (λ c, nf_template c.1.1 ≠ OpenFails) calls →
  NoDup (file <$> registry_of (run_creates calls w)).
Proof.
  intros Hw Hcalls.
  assert (store_consistent (run_creates calls w)) as [Hnd _]; [|done].
  revert w Hw. induction Hcalls as [|[[io clk] args] calls Hio _ IH]; intros w Hw.
  - done.
  - cbn [run_creates]. apply IH. by apply cmd_epistle_new_consistent.
Qed.

(** * Concrete runs, with [ascii_lib] *)

Section Runs.
#[local] Existing Instance ascii_lib.

Import Sample.

(** C1, the claim fails: the document cannot be opened, and the
    registry, empty before, holds the new entry all the same; no document
    exists for it. *)
Lemma create_records_orphan_entry :
  let w' := (cmd_epistle_new (NewFaults OpenFails NoFault NoFault) clk args empty).2 in
  registry_of empty = []
  ∧ registry_of w' = [alice_bob]
  ∧ files w' !! file alice_bob = None
  ∧ registry_of w' ≠ registry_of empty.
Proof. vm_compute. by repeat split. Qed.

Lemma new_records_entry_without_document_witness :
  2 ≤ length (PyStr.split "," (NewArgs.with_personas args))
  ∧ ∃ ep w',
      cmd_epistle_new (NewFaults OpenFails NoFault NoFault) clk args empty
      = (Returns ep, w')
      ∧ files w' !! file ep = None
      ∧ files w' !! registry_file
        = Some (String.concat "" (registry_line <$> (registry_of empty ++ [ep])))
      ∧ "Error writing epistle" ∈ stderr w'.
Proof.
  assert (2 ≤ length (PyStr.split "," (NewArgs.with_personas args))) as Hlen.
  { vm_compute. lia. }
  split; [exact Hlen|].
  exact (new_records_entry_without_document clk args empty Hlen).
Defined.



(** C3, the claim fails: two Create calls; the file of the first record
    starts with the id of the second.  Show with that id returns the first
    record, whose id is another one. *)
Lemma show_prefers_earlier_file_prefix :
  let w := @run_creates ascii_lib
             [(no_faults, clk, args_odd); (no_faults, clk2, args_carol)] empty in
  registry_of w = [odd_bob; carol_dan]
  ∧ lower (id carol_dan) = lower "epistle-1761739200"
  ∧ lower (id odd_bob) ≠ lower "epistle-1761739200"
  ∧ ∃ text, (cmd_epistle_show NoFault NoFault "epistle-1761739200" w).1
            = Returns (odd_bob, Some text).
Proof. vm_compute. repeat split; [done|]. by eexists. Qed.

Lemma show_first_match_witness :
  _load_registry NoFault (store [odd_bob; carol_dan])
  = (Returns [odd_bob; carol_dan], store [odd_bob; carol_dan])
  ∧ match (cmd_epistle_show NoFault NoFault "Carol_" (store [odd_bob; carol_dan])).1 with
    | Returns (ep, _) =>
        ∃ before after,
          [odd_bob; carol_dan] = before ++ ep :: after
          ∧ show_match (lower "Carol_") ep = true
          ∧ Forall (λ x, show_match (lower "Carol_") x = false) before
    | Raises e =>
        e = SystemExit 1
        ∧ Forall (λ x, show_match (lower "Carol_") x = false) [odd_bob; carol_dan]
    | OutOfFuel => False
    end.
Proof.
  assert (_load_registry NoFault (store [odd_bob; carol_dan])
          = (Returns [odd_bob; carol_dan], store [odd_bob; carol_dan])) as Hload.
  { vm_compute. reflexivity. }
  split; [exact Hload|].
  exact (show_first_match NoFault NoFault "Carol_" _ _ _ Hload).
Defined.

(** C4, the claim fails: a load whose [open] fails returns the empty
    list, as the load of an empty store does, a load whose reading fails
    after the first line returns the first record, and a save whose [open]
    fails returns as every save does; the caller gets no error. *)
Lemma io_failure_returns_normally :
  _load_registry OpenFails (store [alice_bob])
  = (Returns [], eprint "Error loading registry" (store [alice_bob]))
  ∧ (_load_registry NoFault empty).1 = (_load_registry OpenFails (store [alice_bob])).1
  ∧ _load_registry (FailsAfter 1) (store [alice_bob; carol_dan])
    = (Returns [alice_bob], eprint "Error loading registry" (store [alice_bob; carol_dan]))
  ∧ _save_registry OpenFails [carol_dan] (store [alice_bob])
    = (Returns (), eprint "Error saving registry" (store [alice_bob]))
  ∧ ¬ ∃ e, (_load_registry OpenFails (store [alice_bob])).1 = Raises e.
Proof. vm_compute. repeat split. by intros [e ?]. Qed.

Lemma io_failures_are_swallowed_witness :
  @JsonContract ascii_lib
  ∧ files (store [alice_bob; carol_dan]) !! registry_file
    = Some (String.concat "" (registry_line <$> [alice_bob; carol_dan]))
  ∧ 1 < length (PyStr.readlines
                  (String.concat "" (registry_line <$> [alice_bob; carol_dan])))
  ∧ FailsAfter 5 ≠ NoFault
  ∧ _load_registry (FailsAfter 1) (store [alice_bob; carol_dan])
    = (Returns (load_lines
                  (take 1 (PyStr.readlines
                     (String.concat "" (registry_line <$> [alice_bob; carol_dan]))))
                  []).1,
       eprint "Error loading registry" (store [alice_bob; carol_dan]))
  ∧ (∀ X, String.concat "" (registry_line <$> [alice_bob; carol_dan])
          = String.concat "" (registry_line <$> X) →
          _load_registry (FailsAfter 1) (store [alice_bob; carol_dan])
          = (Returns (take 1 X),
             eprint "Error loading registry" (store [alice_bob; carol_dan])))
  ∧ _load_registry OpenFails (store [alice_bob; carol_dan])
    = (Returns [], eprint "Error loading registry" (store [alice_bob; carol_dan]))
  ∧ ∃ ws', _save_registry (FailsAfter 5) [erin_frank] empty = (Returns (), ws')
           ∧ stderr ws' = stderr empty ++ ["Error saving registry"].
Proof.
  assert (files (store [alice_bob; carol_dan]) !! registry_file
          = Some (String.concat "" (registry_line <$> [alice_bob; carol_dan]))) as H1
    by apply lookup_singleton_eq.
  assert (1 < length (PyStr.readlines
                        (String.concat "" (registry_line <$> [alice_bob; carol_dan]))))
    as H2 by (vm_compute; lia).
  assert (FailsAfter 5 ≠ NoFault) as H3 by done.
  split; [exact ascii_contract|]. split; [exact H1|]. split; [exact H2|].
  split; [exact H3|].
  exact (@io_failures_are_swallowed ascii_lib ascii_contract 1 _
           (store [alice_bob; carol_dan]) (FailsAfter 5) [erin_frank] empty H1 H2 H3).
Defined.

(** C5, the claim fails: two Create calls with the same personas in the
    same second; the document of the first cannot be opened, and both
    records get the same file name. *)
Lemma same_second_same_file :
  let w := @run_creates ascii_lib
             [(NewFaults OpenFails NoFault NoFault, clk, args); (no_faults, clk, args)]
             empty in
  file <$> registry_of w
  = ["alice_bob_20251028T120000.md"; "alice_bob_20251028T120000.md"]
  ∧ ¬ NoDup (file <$> registry_of w).
Proof.
  vm_compute. split; [done|]. intros Hnd. apply NoDup_cons in Hnd as [Hin _].
  apply Hin. by left.
Qed.

Lemma create_files_distinct_witness :
  @JsonContract ascii_lib
  ∧ store_consistent empty
  ∧ Forall (λ c : new_faults * clock * NewArgs.t, nf_template c.1.1 ≠ OpenFails)
      [(no_faults, clk, args); (NewFaults (FailsAfter 0) NoFault NoFault, clk, args)]
  ∧ NoDup (file <$> registry_of (run_creates
      [(no_faults, clk, args); (NewFaults (FailsAfter 0) NoFault NoFault, clk, args)]
      empty)).
Proof.
  assert (store_consistent empty) as Hw.
  { split; [vm_compute; constructor|]. intros e He. vm_compute in He.
    by apply elem_of_nil in He. }
  assert (Forall (λ c : new_faults * clock * NewArgs.t, nf_template c.1.1 ≠ OpenFails)
      [(no_faults, clk, args); (NewFaults (FailsAfter 0) NoFault NoFault, clk, args)])
    as Hcalls.
  { repeat constructor; by cbn. }
  split; [exact ascii_contract|]. split; [exact Hw|]. split; [exact Hcalls|].
  exact (@create_files_distinct ascii_lib ascii_contract _ empty Hw Hcalls).
Defined.

(** The suffix loop at work: the second of two calls in the same second
    gets the suffix [_1]. *)
Example same_second_suffix :
  file <$> registry_of (@run_creates ascii_lib
    [(no_faults, clk, args); (no_faults, clk, args); (no_faults, clk, args)] empty)
  = ["alice_bob_20251028T120000.md"; "alice_bob_20251028T120000_1.md";
     "alice_bob_20251028T120000_2.md"].
Proof. vm_compute. reflexivity. Qed.

(** C6, the claim fails: with the empty string as persona filter List
    prints the record, none of whose personas is the empty string. *)
Lemma list_empty_filter_keeps_all :
  (cmd_epistle_list NoFault (ListArgs.Make (Some "") None) (store [alice_bob])).1
  = Returns [alice_bob]
  ∧ ¬ Exists (λ q, lower q = lower "") (personas alice_bob).
Proof.
  split; [vm_compute; reflexivity|].
  intros Hex. apply Exists_exists in Hex as (q & Hq & Hlow).
  cbn in Hq. repeat (apply elem_of_cons in Hq as [->|Hq]; [by vm_compute in Hlow|]).
  by apply elem_of_nil in Hq.
Qed.

Example list_filters :
  (cmd_epistle_list NoFault (ListArgs.Make (Some "ALICE") None)
     (store [alice_bob; carol_dan; erin_frank])).1 = Returns [alice_bob]
  ∧ (cmd_epistle_list NoFault (ListArgs.Make None (Some "2025-10-29"))
       (store [alice_bob; carol_dan; erin_frank])).1 = Returns [erin_frank; carol_dan]
  ∧ (cmd_epistle_list NoFault (ListArgs.Make (Some "dan") (Some "2025-10-30"))
       (store [alice_bob; carol_dan; erin_frank])).1 = Returns [].
Proof. vm_compute. by repeat split. Qed.

(** C7, the claim fails: Create stores a context path given twice as it
    is; after two AddContext calls with that path the context still holds
    it twice. *)
Lemma add_context_keeps_duplicates :
  let request := ContextArgs.Make "epistle-1761652800" (Some ["a.md"]) in
  let w0 := (cmd_epistle_new no_faults clk args_twice empty).2 in
  let w1 := (cmd_epistle_add_context NoFault NoFault request w0).2 in
  (cmd_epistle_add_context NoFault NoFault request w1).1 = Returns alice_bob_twice
  ∧ count_occ string_dec (context alice_bob_twice) "a.md" = 2.
Proof. vm_compute. by split. Qed.

Lemma add_context_appends_unseen_witness :
  @JsonContract ascii_lib
  ∧ list_find (λ e, lower (id e) = lower "EPISTLE-1761739200")
      (registry_of (store [alice_bob; carol_dan])) = Some (1, carol_dan)
  ∧ let ep' := with_context carol_dan
                 (context carol_dan
                  ++ first_seen (filter (λ p, p ∉ context carol_dan)
                                   ["a.md"; "notes.md"; "a.md"])) in
    ∃ w1 w2,
      cmd_epistle_add_context NoFault NoFault
        (ContextArgs.Make "EPISTLE-1761739200" (Some ["a.md"; "notes.md"; "a.md"]))
        (store [alice_bob; carol_dan]) = (Returns ep', w1)
      ∧ registry_of w1 = <[1 := ep']> (registry_of (store [alice_bob; carol_dan]))
      ∧ cmd_epistle_add_context NoFault NoFault
          (ContextArgs.Make "EPISTLE-1761739200" (Some ["a.md"; "notes.md"; "a.md"]))
          w1 = (Returns ep', w2)
      ∧ registry_of w2 = registry_of w1
      ∧ ∀ p, p ∈ ["a.md"; "notes.md"; "a.md"] → p ∉ context carol_dan →
             count_occ string_dec (context ep') p = 1.
Proof.
  assert (list_find (λ e, lower (id e) = lower "EPISTLE-1761739200")
      (registry_of (store [alice_bob; carol_dan])) = Some (1, carol_dan)) as Hfind.
  { vm_compute. reflexivity. }
  split; [exact ascii_contract|]. split; [exact Hfind|].
  exact (@add_context_appends_unseen ascii_lib ascii_contract
           (ContextArgs.Make "EPISTLE-1761739200" (Some ["a.md"; "notes.md"; "a.md"]))
           ["a.md"; "notes.md"; "a.md"] (store [alice_bob; carol_dan]) 1 carol_dan
           Hfind eq_refl).
Defined.

Example add_context_twice :
  let request := ContextArgs.Make "epistle-1761652800" (Some ["a.md"]) in
  let w1 := (cmd_epistle_add_context NoFault NoFault request (store [alice_bob])).2 in
  let w2 := (cmd_epistle_add_context NoFault NoFault request w1).2 in
  context <$> registry_of w2 = [["a.md"]].
Proof. vm_compute. reflexivity. Qed.

Lemma save_load_roundtrip_witness :
  @JsonContract ascii_lib
  ∧ _load_registry NoFault (_save_registry NoFault [alice_bob; carol_dan] empty).2
    = (Returns [alice_bob; carol_dan],
       (_save_registry NoFault [alice_bob; carol_dan] empty).2)
  ∧ (∃ Y w1 w2,
       _load_registry NoFault empty = (Returns Y, w1)
       ∧ _save_registry NoFault Y w1 = (Returns (), w2)
       ∧ _load_registry NoFault w2 = (Returns Y, w2)).
Proof.
  split; [exact ascii_contract|].
  exact (@save_load_roundtrip ascii_lib ascii_contract [alice_bob; carol_dan] empty).
Defined.

Lemma load_stops_at_malformed_line_witness :
  files broken_store !! registry_file = Some broken_text
  ∧ PyStr.readlines broken_text
    = [indented_line; PyStr.nl; blank_line] ++ bad_line :: [registry_line carol_dan]
  ∧ Forall2 (λ l r, loads (PyStr.strip l) = Some r)
      (List.filter nonblank [indented_line; PyStr.nl; blank_line]) [alice_bob]
  ∧ nonblank bad_line = true
  ∧ loads (PyStr.strip bad_line) = None
  ∧ _load_registry NoFault broken_store
    = (Returns [alice_bob], eprint "Error loading registry" broken_store).
Proof.
  assert (files broken_store !! registry_file = Some broken_text) as H1
    by apply lookup_singleton_eq.
  assert (PyStr.readlines broken_text
          = [indented_line; PyStr.nl; blank_line] ++ bad_line
              :: [registry_line carol_dan]) as H2 by (vm_compute; reflexivity).
  assert (Forall2 (λ l r, loads (PyStr.strip l) = Some r)
            (List.filter nonblank [indented_line; PyStr.nl; blank_line]) [alice_bob])
    as H3.
  { assert (List.filter nonblank [indented_line; PyStr.nl; blank_line]
            = [indented_line]) as -> by (vm_compute; reflexivity).
    constructor; [vm_compute; reflexivity|constructor]. }
  assert (nonblank bad_line = true) as H4 by (vm_compute; reflexivity).
  assert (loads (PyStr.strip bad_line) = None) as H5 by (vm_compute; reflexivity).
  split; [exact H1|]. split; [exact H2|]. split; [exact H3|]. split; [exact H4|].
  split; [exact H5|].
  exact (load_stops_at_malformed_line broken_store _ _ _ _ _ H1 H2 H3 H4 H5).
Defined.

(** [str.strip] at work on white space beyond ASCII.  Every character of
    [str.isspace] is stripped; U+200B, the zero-width space, and U+180E are
    none of them. *)
Example strip_unicode :
  PyStr.strip (nbsp +:+ " Alice" +:+ emsp +:+ PyStr.nl) = "Alice"
  ∧ PyStr.strip blank_line = ""
  ∧ PyStr.strip indented_line = dumps alice_bob
  ∧ PyStr.strip bad_line = "not json"
  ∧ PyStr.strip (white_space +:+ "a b" +:+ white_space) = "a b"
  ∧ PyStr.strip (Json.utf8 8203 +:+ " ") = Json.utf8 8203
  ∧ PyStr.strip (" " +:+ Json.utf8 6158) = Json.utf8 6158.
Proof. vm_compute. by repeat split. Qed.

End Runs.

(** * Further properties of the plugin *)

(** ** Strings *)

Lemma prefix_spec (p s : string) :
  String.prefix p s = true ↔ ∃ rest, s = p +:+ rest.
Proof.
  revert s. induction p as [|a p IH]; intros s.
  - split; [intros _; by exists s|intros _; by destruct s].
  - destruct s as [|b s]; cbn [String.prefix].
    + split; [done|]. intros [rest Hrest]. by rewrite str_app_cons in Hrest.
    + destruct (ascii_dec a b) as [->|Hne].
      * rewrite IH. split; intros [rest Hrest]; exists rest.
        -- by rewrite str_app_cons, <- Hrest.
        -- rewrite str_app_cons in Hrest. by injection Hrest.
      * split; [done|]. intros [rest Hrest]. rewrite str_app_cons in Hrest.
        injection Hrest as Hab _. by destruct Hne.
Qed.

Lemma str_contains_spec (needle hay : string) :
  str_contains needle hay = true ↔ ∃ before after, hay = before +:+ needle +:+ after.
Proof.
  induction hay as [|c hay IH]; cbn [str_contains]; rewrite orb_true_iff, prefix_spec.
  - split.
    + intros [[rest Hrest]|?]; [|done]. by exists "", rest.
    + intros (before & after & Heq). left. destruct before; [by exists after|].
      by rewrite str_app_cons in Heq.
  - rewrite IH. split.
    + intros [[rest Hrest]|(before & after & Heq)].
      * by exists "", rest.
      * exists (String c before), after. by rewrite str_app_cons, Heq.
    + intros (before & after & Heq). destruct before as [|d before].
      * left. by exists after.
      * right. rewrite str_app_cons in Heq. injection Heq as _ Heq.
        by exists before, after.
Qed.

(** The text [read()] returns is the text of the lines the loop over the
    file gets. *)
Lemma readlines_translate (s : string) :
  String.concat "" (PyStr.readlines s) = PyStr.translate_newlines s.
Proof.
  assert (∀ n s, String.length s ≤ n →
            String.concat "" (PyStr.readlines s) = PyStr.translate_newlines s) as Hn;
    [|by apply (Hn (String.length s))].
  clear s. intros n. induction n as [|n IH]; intros s Hlen.
  { destruct s; [done|cbn in Hlen; lia]. }
  destruct s as [|c s']; [done|]. cbn in Hlen.
  cbn [PyStr.readlines PyStr.translate_newlines].
  destruct (Ascii.eqb_spec c PyStr.LF) as [->|Hlf].
  { change (Ascii.eqb PyStr.LF PyStr.CR) with false. cbn match.
    rewrite concat_cons, IH by lia. done. }
  destruct (Ascii.eqb c PyStr.CR).
  { destruct s' as [|c' s'']; [done|]. cbn in Hlen.
    destruct (Ascii.eqb c' PyStr.LF); rewrite concat_cons, IH by (cbn; lia); done. }
  rewrite <- (IH s') by lia.
  destruct (PyStr.readlines s') as [|h t]; [done|]. by rewrite !concat_cons.
Qed.

(** A text without CR is read as it is. *)
Lemma translate_no_cr (s : string) :
  str_contains (String PyStr.CR "") s = false → PyStr.translate_newlines s = s.
Proof.
  induction s as [|c s IH]; [done|]. cbn [str_contains String.prefix].
  intros [Hc Hs]%orb_false_elim. cbn [PyStr.translate_newlines].
  destruct (Ascii.eqb_spec c PyStr.CR) as [->|Hne].
  - destruct (ascii_dec PyStr.CR PyStr.CR); [by destruct s|done].
  - by rewrite IH.
Qed.

Lemma split_nonempty (sep : ascii) (s : string) : 1 ≤ length (PyStr.split sep s).
Proof.
  destruct s as [|c s]; cbn [PyStr.split]; [cbn; lia|].
  destruct (Ascii.eqb c sep); [cbn; lia|]. destruct (PyStr.split sep s); cbn; lia.
Qed.

(** A string without the separator is one piece. *)
Lemma split_one (sep : ascii) (s : string) :
  length (PyStr.split sep s) = 1 ↔ ¬ ∃ before after, s = before +:+ String sep after.
Proof.
  induction s as [|c s IH]; cbn [PyStr.split].
  - split; [|done]. intros _ (before & after & Heq). destruct before; discriminate.
  - destruct (Ascii.eqb_spec c sep) as [->|Hne].
    + split.
      * pose proof (split_nonempty sep s). cbn [length]. lia.
      * intros Hno. destruct Hno. by exists "", s.
    + assert (∃ h t, PyStr.split sep s = h :: t) as (h & t & Hsplit).
      { destruct s as [|d s']; cbn [PyStr.split]; [by eauto|].
        destruct (Ascii.eqb d sep); [by eauto|].
        destruct (PyStr.split sep s'); by eauto. }
      rewrite Hsplit in *. cbn [length] in *. rewrite IH. split.
      * intros Hno (before & after & Heq). destruct before as [|d before].
        -- rewrite str_app_nil_l in Heq. injection Heq as Hc _. by destruct Hne.
        -- rewrite str_app_cons in Heq. injection Heq as _ Heq. apply Hno.
           by exists before, after.
      * intros Hno (before & after & Heq). apply Hno.
        exists (String c before), after. by rewrite str_app_cons, Heq.
Qed.


Lemma filter_keep_all {A} (l : list A) : List.filter (λ _, true) l = l.
Proof. induction l as [|x l IH]; [done|]. cbn. by rewrite IH. Qed.

Lemma filter_andb {A} (p q : A → bool) (l : list A) :
  List.filter q (List.filter p l) = List.filter (λ x, p x && q x) l.
Proof.
  induction l as [|x l IH]; [done|]. cbn [List.filter].
  destruct (p x); cbn [List.filter andb]; [|done]. by rewrite IH.
Qed.

(** ** Search *)

Section SearchFacts.
Context `{PyLib}.

Lemma persona_found_spec (ps : string) (e : epistle) :
  existsb (λ p, str_in (lower p) ((λ p, lower (PyStr.strip p)) <$> PyStr.split "," ps))
    (personas e) = true
  ↔ persona_found ps e.
Proof.
  unfold persona_found. rewrite existsb_exists. split.
  - intros (p & Hp & Hin). apply str_in_spec, list_elem_of_fmap in Hin as (name & Hq & Hname).
    exists p, name. by rewrite <- list_elem_of_In in Hp.
  - intros (p & name & Hp & Hname & Hq). exists p. split; [by apply list_elem_of_In|].
    apply str_in_spec, list_elem_of_fmap. by exists name.
Qed.

Lemma keyword_found_spec (ks : string) (e : epistle) :
  existsb (λ k, str_in (lower k) (lower <$> keywords e)) (PyStr.split "," ks) = true
  ↔ keyword_found ks e.
Proof.
  unfold keyword_found. rewrite existsb_exists. split.
  - intros (k & Hk & Hin). apply str_in_spec, list_elem_of_fmap in Hin as (kw & Hq & Hkw).
    exists k, kw. by rewrite <- list_elem_of_In in Hk.
  - intros (k & kw & Hk & Hkw & Hq). exists k. split; [by apply list_elem_of_In|].
    apply str_in_spec, list_elem_of_fmap. by exists kw.
Qed.

(** The test of one filter of Search, with its guard. *)
Lemma guarded_filter (arg : option string) (test : string → epistle → bool)
    (l : list epistle) :
  match arg with
  | Some a => if PyStr.truthy a then List.filter (test a) l else l
  | None => l
  end
  = List.filter
      (λ e, match arg with Some a => negb (PyStr.truthy a) || test a e | None => true end)
      l.
Proof.
  destruct arg as [a|]; [|by rewrite filter_keep_all].
  destruct (PyStr.truthy a); cbn [negb orb]; [done|by rewrite filter_keep_all].
Qed.

End SearchFacts.

(** X1: Search prints exactly the loaded records, in registry order, that
    pass every filter given: the topic filter when its lower-cased text
    occurs in the lower-cased topic, the personas filter when a persona
    equals, up to case, one of the comma-separated names with the white
    space around it removed, the keywords filter when a keyword of the
    record equals, up to case, one of the comma-separated keywords (these
    are not stripped).  A filter that is absent or empty keeps every
    record. *)
Theorem search_returns_selected `{PyLib} (ft : fault) (args : SearchArgs.t) (w : world) :
  ∃ epistles w1 keep,
    _load_registry ft w = (Returns epistles, w1)
    ∧ (∀ e, keep e = true ↔ search_selected args e)
    ∧ cmd_epistle_search ft args w = (Returns (List.filter keep epistles), w1).
Proof.
  destruct (load_returns ft w) as (epistles & w1 & Hload & _).
  set (k1 := λ e : epistle, match SearchArgs.topic args with
    | Some t => negb (PyStr.truthy t) || str_contains (lower t) (lower (topic e))
    | None => true end).
  set (k2 := λ e : epistle, match SearchArgs.personas args with
    | Some ps => negb (PyStr.truthy ps)
        || existsb (λ p, str_in (lower p)
             ((λ p, lower (PyStr.strip p)) <$> PyStr.split "," ps)) (personas e)
    | None => true end).
  set (k3 := λ e : epistle, match SearchArgs.keywords args with
    | Some ks => negb (PyStr.truthy ks)
        || existsb (λ k, str_in (lower k) (lower <$> keywords e)) (PyStr.split "," ks)
    | None => true end).
  exists epistles, w1, (λ e, k1 e && (k2 e && k3 e)). split; [done|]. split.
  - intros e. unfold search_selected, k1, k2, k3. rewrite !andb_true_iff.
    assert (∀ a b P, (b = true ↔ P) →
              (negb (PyStr.truthy a) || b = true ↔ (a ≠ "" → P))) as Hguard.
    { intros a b P HP. rewrite orb_true_iff, negb_true_iff, <- HP.
      destruct a as [|c a]; cbn [PyStr.truthy].
      - split; [by intros _ Hne|intros _; by left].
      - split; [by intros [?|?] _|intros Hb; right; by apply Hb]. }
    assert (∀ (o : option string) (t : string → bool) (P : string → Prop),
              (∀ a, t a = true ↔ P a) →
              (match o with Some a => negb (PyStr.truthy a) || t a | None => true end = true
               ↔ match o with Some a => a ≠ "" → P a | None => True end)) as Hopt.
    { intros [a|] t P HP; [by apply Hguard|done]. }
    rewrite (Hopt (SearchArgs.topic args) _ (λ t, topic_found t e)),
      (Hopt (SearchArgs.personas args) _ (λ ps, persona_found ps e)),
      (Hopt (SearchArgs.keywords args) _ (λ ks, keyword_found ks e)).
    + tauto.
    + intros ks. apply keyword_found_spec.
    + intros ps. apply persona_found_spec.
    + intros t. apply str_contains_spec.
  - unfold cmd_epistle_search, bind. rewrite Hload. unfold ret. do 2 f_equal.
    unfold search_filter.
    rewrite (guarded_filter (SearchArgs.topic args)
               (λ t e, str_contains (lower t) (lower (topic e)))).
    rewrite (guarded_filter (SearchArgs.personas args)
               (λ ps e, existsb (λ p, str_in (lower p)
                  ((λ p, lower (PyStr.strip p)) <$> PyStr.split "," ps)) (personas e))).
    rewrite (guarded_filter (SearchArgs.keywords args)
               (λ ks e, existsb (λ k, str_in (lower k) (lower <$> keywords e))
                  (PyStr.split "," ks))).
    rewrite !filter_andb. reflexivity.
Qed.

(** X2: for one persona name, without comma and without white space
    around it, Search by personas and List with the persona filter keep the
    same records; List only prints them in another order. *)
Theorem search_persona_agrees_with_list `{PyLib} (ft : fault) (p : string) (w : world) :
  PyStr.split "," p = [p] →
  PyStr.strip p = p →
  ∃ rows found w1,
    cmd_epistle_list ft (ListArgs.Make (Some p) None) w = (Returns rows, w1)
    ∧ cmd_epistle_search ft (SearchArgs.Make None (Some p) None) w = (Returns found, w1)
    ∧ rows ≡ₚ found.
Proof.
  intros Hsplit Hstrip.
  destruct (load_returns ft w) as (epistles & w1 & Hload & _).
  unfold cmd_epistle_list, cmd_epistle_search, bind. rewrite Hload. unfold ret.
  do 3 eexists. split; [done|]. split; [done|].
  rewrite sorted_by_date_perm. unfold list_filter, search_filter.
  cbn [ListArgs.filter ListArgs.since SearchArgs.topic SearchArgs.personas
       SearchArgs.keywords].
  destruct (PyStr.truthy p); [|done].
  rewrite Hsplit. cbn [fmap list_fmap]. rewrite Hstrip.
  erewrite List.filter_ext; [done|]. intros e. cbn beta.
  destruct (str_in (lower p) (lower <$> personas e)) eqn:Hlist; symmetry.
  - apply str_in_spec, list_elem_of_fmap in Hlist as (q & Hq & Hin).
    apply existsb_exists. exists q. split; [by apply list_elem_of_In|].
    apply str_in_spec. rewrite <- Hq. by left.
  - apply not_true_iff_false. intros (q & Hq & Hin)%existsb_exists.
    apply str_in_spec, list_elem_of_singleton in Hin.
    apply not_true_iff_false in Hlist as []. apply str_in_spec, list_elem_of_fmap.
    exists q. split; [done|]. by apply list_elem_of_In.
Qed.

(** X3: List, Show and Search only read: whatever the arguments and the
    faults, they leave every file of the directory as it was. *)
Theorem queries_change_no_file `{PyLib} (ft ft' : fault) (largs : ListArgs.t)
    (sargs : SearchArgs.t) (identifier : string) (w : world) :
  files (cmd_epistle_list ft largs w).2 = files w
  ∧ files (cmd_epistle_show ft ft' identifier w).2 = files w
  ∧ files (cmd_epistle_search ft sargs w).2 = files w.
Proof.
  destruct (load_returns ft w) as (epistles & w1 & Hload & Hfiles).
  unfold cmd_epistle_list, cmd_epistle_show, cmd_epistle_search, bind.
  rewrite Hload. split; [done|]. split; [|done].
  destruct (List.find _ epistles) as [ep|]; [|done].
  destruct (path_exists _ _); [destruct (read_text _ _ _)|]; done.
Qed.

(** ** The order of the rows of List *)

Lemma ltb_leb (a b : string) : String.ltb a b = true → String.leb a b = true.
Proof. unfold String.ltb, String.leb. by destruct (String.compare a b). Qed.

Lemma ltb_false_leb (a b : string) : String.ltb a b = false → String.leb b a = true.
Proof.
  unfold String.ltb, String.leb. rewrite (String.compare_antisym a b).
  by destruct (String.compare b a).
Qed.

Lemma str_compare_refl (a : string) : String.compare a a = Eq.
Proof.
  induction a as [|c a IH]; [done|]. cbn [String.compare].
  unfold Ascii.compare. by rewrite N.compare_refl.
Qed.

Lemma ltb_neq (a b : string) : String.ltb a b = true → a ≠ b.
Proof. unfold String.ltb. intros Hlt ->. by rewrite str_compare_refl in Hlt. Qed.

Lemma leb_trans (a b c : string) :
  String.leb a b = true → String.leb b c = true → String.leb a c = true.
Proof.
  intros Hab Hbc. apply Is_true_true.
  apply (transitivity (R := String.le) (y := b)); by apply Is_true_true.
Qed.

Lemma insert_by_date_sorted (x : epistle) (l : list epistle) :
  StronglySorted date_ge l → StronglySorted date_ge (insert_by_date x l).
Proof.
  induction 1 as [|y l Hs IH Hy]; cbn [insert_by_date].
  - by repeat constructor.
  - destruct (String.ltb (date x) (date y)) eqn:Hlt.
    + constructor; [done|]. rewrite insert_by_date_perm. constructor; [|done].
      by apply ltb_leb.
    + constructor; [by constructor|]. apply ltb_false_leb in Hlt.
      constructor; [done|]. eapply Forall_impl; [done|].
      intros z Hz. by apply (leb_trans _ (date y)).
Qed.

Lemma sorted_by_date_sorted (l : list epistle) :
  StronglySorted date_ge (sorted_by_date l).
Proof.
  induction l as [|x l IH]; [constructor|]. by apply insert_by_date_sorted.
Qed.

Lemma insert_by_date_stable (d : string) (x : epistle) (l : list epistle) :
  filter (λ e, date e = d) (insert_by_date x l) = filter (λ e, date e = d) (x :: l).
Proof.
  induction l as [|y l IH]; [done|]. cbn [insert_by_date].
  destruct (String.ltb (date x) (date y)) eqn:Hlt; [|done].
  apply ltb_neq in Hlt. rewrite (filter_cons _ y), IH, !filter_cons.
  repeat case_decide; congruence.
Qed.

Lemma sorted_by_date_stable (d : string) (l : list epistle) :
  filter (λ e, date e = d) (sorted_by_date l) = filter (λ e, date e = d) l.
Proof.
  induction l as [|x l IH]; [done|]. unfold sorted_by_date in *. cbn [foldr].
  by rewrite insert_by_date_stable, !filter_cons, IH.
Qed.

(** X4: the rows of List come by date, the latest first, and records of
    the same date keep the order they have in the registry. *)
Theorem list_rows_sorted `{PyLib} (ft : fault) (args : ListArgs.t) (w : world) :
  ∃ epistles rows w1,
    _load_registry ft w = (Returns epistles, w1)
    ∧ cmd_epistle_list ft args w = (Returns rows, w1)
    ∧ StronglySorted (λ a b, String.leb (date b) (date a) = true) rows
    ∧ ∀ d, filter (λ e, date e = d) rows
           = filter (λ e, date e = d) (filter (selected args) epistles).
Proof.
  destruct (load_returns ft w) as (epistles & w1 & Hload & _).
  exists epistles, (sorted_by_date (list_filter args epistles)), w1.
  split; [done|]. split; [|split].
  - unfold cmd_epistle_list, bind. by rewrite Hload.
  - apply sorted_by_date_sorted.
  - intros d. by rewrite sorted_by_date_stable, list_filter_selected.
Qed.

(** ** Create *)

Section CreateMore.
Context `{PyLib}.

Lemma cmd_epistle_new_exits (io : new_faults) (clk : clock) (args : NewArgs.t)
    (w : world) :
  ¬ 2 ≤ length (PyStr.split "," (NewArgs.with_personas args)) →
  cmd_epistle_new io clk args w
  = (Raises (SystemExit 1),
     eprint "Error: Need at least 2 personas (--with persona1,persona2)" w).
Proof.
  intros Hlen. unfold cmd_epistle_new. destruct (PyStr.truthy _); [|done].
  by destruct (Nat.ltb_spec (length (PyStr.split "," (NewArgs.with_personas args))) 2);
    [|lia].
Qed.

(** A call with two personas or more, step by step, with the record it
    builds. *)
Lemma cmd_epistle_new_record (io : new_faults) (clk : clock) (args : NewArgs.t)
    (w : world) :
  2 ≤ length (PyStr.split "," (NewArgs.with_personas args)) →
  ∃ name,
    (name ∉ dom (files w)) ∧ name ≠ registry_file
    ∧ cmd_epistle_new io clk args w
      = (do_ _write_epistle_template (nf_template io) name (new_epistle clk args name);
         do epistles <- _load_registry (nf_load io);
         do_ _save_registry (nf_save io) (epistles ++ [new_epistle clk args name]);
         ret (new_epistle clk args name)) w.
Proof.
  intros Hlen. unfold cmd_epistle_new.
  assert (PyStr.truthy (NewArgs.with_personas args) = true) as ->.
  { destruct (NewArgs.with_personas args); [cbn in Hlen; lia|done]. }
  destruct (Nat.ltb_spec (length (PyStr.split "," (NewArgs.with_personas args))) 2)
    as [?|_]; [lia|].
  set (slug := persona_slug _).
  destruct (unique_filename_Some w slug (strftime_stamp clk))
    as (n & -> & _ & Hfree & _).
  exists (candidate slug (strftime_stamp clk) n). split; [|split].
  - rewrite <- path_exists_dom. by rewrite Hfree.
  - apply candidate_not_registry.
  - reflexivity.
Qed.

Lemma save_frame (ft : fault) (X : list epistle) (w : world) (name : string) :
  name ≠ registry_file →
  files (_save_registry ft X w).2 !! name = files w !! name.
Proof.
  intros Hne. unfold _save_registry, write_file. destruct ft as [| |k].
  - cbn. by rewrite lookup_insert_ne.
  - done.
  - cbn. by rewrite lookup_insert_ne.
Qed.

Lemma write_template_frame (ft : fault) (name : string) (ep : epistle) (w : world)
    (other : string) :
  other ≠ name →
  files (_write_epistle_template ft name ep w).2 !! other = files w !! other.
Proof.
  intros Hne. unfold _write_epistle_template, write_file. destruct ft as [| |k].
  - cbn. by rewrite lookup_insert_ne.
  - done.
  - cbn. by rewrite lookup_insert_ne.
Qed.

Lemma load_frame (ft : fault) (w : world) : files (_load_registry ft w).2 = files w.
Proof. destruct (load_returns ft w) as (L & w' & -> & Hf). done. Qed.

End CreateMore.

(** X5: Create counts the pieces between the commas of [--with]: it
    prints its error and exits with status 1, touching no file, exactly when
    the argument holds no comma; with a comma it goes on, also when a piece
    is empty. *)
Theorem create_needs_a_comma `{PyLib} (io : new_faults) (clk : clock)
    (args : NewArgs.t) (w : world) :
  cmd_epistle_new io clk args w
  = (Raises (SystemExit 1),
     eprint "Error: Need at least 2 personas (--with persona1,persona2)" w)
  ↔ ¬ ∃ before after, NewArgs.with_personas args = before +:+ "," +:+ after.
Proof.
  pose proof (split_nonempty "," (NewArgs.with_personas args)) as Hne.
  pose proof (split_one "," (NewArgs.with_personas args)) as Hone.
  destruct (decide (2 ≤ length (PyStr.split "," (NewArgs.with_personas args))))
    as [Hlen|Hlen].
  - destruct (cmd_epistle_new_steps io clk args w Hlen)
      as (n & ep & L & w1 & w2 & w3 & _ & _ & _ & _ & _ & ->).
    split; [done|]. intros Hno. apply Hone in Hno. lia.
  - rewrite (cmd_epistle_new_exits io clk args w Hlen).
    split; [|done]. intros _. apply Hone. lia.
Qed.

(** X6: whatever the faults, Create changes no file that was in the
    directory before, the registry apart: the document goes to a name that
    was free. *)
Theorem create_keeps_other_files `{PyLib} (io : new_faults) (clk : clock)
    (args : NewArgs.t) (w : world) (name : string) :
  name ∈ dom (files w) →
  name ≠ registry_file →
  files (cmd_epistle_new io clk args w).2 !! name = files w !! name.
Proof.
  intros Hin Hne.
  destruct (decide (2 ≤ length (PyStr.split "," (NewArgs.with_personas args))))
    as [Hlen|Hlen]; [|by rewrite (cmd_epistle_new_exits io clk args w Hlen)].
  destruct (cmd_epistle_new_record io clk args w Hlen) as (doc & Hfree & _ & ->).
  assert (name ≠ doc) as Hdoc by (by intros ->).
  pose proof (write_template_frame (nf_template io) doc (new_epistle clk args doc) w
                name Hdoc) as Hw1.
  destruct (write_template_returns (nf_template io) doc (new_epistle clk args doc) w)
    as (w1 & Hrun1 & _). rewrite Hrun1 in Hw1. cbn [snd] in Hw1.
  pose proof (load_frame (nf_load io) w1) as Hw2.
  destruct (load_returns (nf_load io) w1) as (L & w2 & Hrun2 & _).
  rewrite Hrun2 in Hw2. cbn [snd] in Hw2.
  pose proof (save_frame (nf_save io) (L ++ [new_epistle clk args doc]) w2 name Hne)
    as Hw3.
  destruct (save_returns (nf_save io) (L ++ [new_epistle clk args doc]) w2)
    as (w3 & Hrun3). rewrite Hrun3 in Hw3. cbn [snd] in Hw3.
  unfold bind. rewrite Hrun1, Hrun2, Hrun3. cbn [snd ret].
  by rewrite Hw3, Hw2, Hw1.
Qed.

Section CreateEffects.
Context `{HC : JsonContract}.

(** A call of Create whose document is written and whose save succeeds. *)
Lemma create_run (ft_load : fault) (clk : clock) (args : NewArgs.t) (w : world) :
  2 ≤ length (PyStr.split "," (NewArgs.with_personas args)) →
  ∃ name L w',
    (name ∉ dom (files w)) ∧ name ≠ registry_file
    ∧ (_load_registry ft_load w).1 = Returns L
    ∧ cmd_epistle_new (NewFaults NoFault ft_load NoFault) clk args w
      = (Returns (new_epistle clk args name), w')
    ∧ files w' !! name = Some (epistle_template (new_epistle clk args name))
    ∧ files w' !! registry_file
      = Some (String.concat "" (registry_line <$> L ++ [new_epistle clk args name]))
    ∧ _load_registry NoFault w' = (Returns (L ++ [new_epistle clk args name]), w')
    ∧ dom (files w) ⊆ dom (files w').
Proof.
  intros Hlen.
  destruct (cmd_epistle_new_record (NewFaults NoFault ft_load NoFault) clk args w Hlen)
    as (name & Hfree & Hne & Hrun).
  set (ep := new_epistle clk args name) in *.
  set (w1 := set_file name (epistle_template ep) w).
  assert ((_load_registry ft_load w1).1 = (_load_registry ft_load w).1) as Hsame.
  { apply load_same_registry. cbn. by rewrite lookup_insert_ne. }
  destruct (load_returns ft_load w1) as (L & w2 & Hload & Hfiles2).
  rewrite Hload in Hsame. cbn [fst] in Hsame.
  set (w3 := set_file registry_file (String.concat "" (registry_line <$> L ++ [ep])) w2).
  assert (files w3 !! registry_file
          = Some (String.concat "" (registry_line <$> L ++ [ep]))) as Hreg.
  { cbn. by rewrite lookup_insert_eq. }
  exists name, L, w3. split; [done|]. split; [done|]. split; [done|]. split.
  { rewrite Hrun. unfold bind. cbn [nf_template nf_load nf_save].
    change (_write_epistle_template NoFault name ep w) with (Returns (), w1).
    cbn match. by rewrite Hload. }
  split.
  { cbn. rewrite lookup_insert_ne by done. rewrite Hfiles2. cbn.
    by rewrite lookup_insert_eq. }
  split; [done|]. split; [by apply load_registry_text|].
  cbn. rewrite Hfiles2. cbn. rewrite !dom_insert_L.
  etrans; [|apply union_subseteq_r]. apply union_subseteq_r.
Qed.

End CreateEffects.

(** X7: a Create call that meets no fault returns the record it built
    (status [draft], no references, the id made of the clock, ...), writes
    the template of that record to a file name that was free, and rewrites
    the registry as the records a load returned followed by the new record;
    a load of the new store returns these records without complaint. *)
Theorem create_appends `{HC : JsonContract} (clk : clock) (args : NewArgs.t)
    (w : world) :
  2 ≤ length (PyStr.split "," (NewArgs.with_personas args)) →
  ∃ name w',
    cmd_epistle_new no_faults clk args w = (Returns (new_epistle clk args name), w')
    ∧ (name ∉ dom (files w))
    ∧ files w' !! name = Some (epistle_template (new_epistle clk args name))
    ∧ _load_registry NoFault w'
      = (Returns (registry_of w ++ [new_epistle clk args name]), w').
Proof.
  intros Hlen.
  destruct (create_run NoFault clk args w Hlen)
    as (name & L & w' & Hfree & _ & HL & Hrun & Hdoc & _ & Hload & _).
  assert (registry_of w = L) as -> by (unfold registry_of; by rewrite HL).
  by exists name, w'.
Qed.

(** X8: when the load inside Create fails at [open], Create saves the new
    record alone: whatever the registry held before is gone. *)
Theorem create_after_failed_load `{HC : JsonContract} (clk : clock)
    (args : NewArgs.t) (w : world) :
  2 ≤ length (PyStr.split "," (NewArgs.with_personas args)) →
  ∃ name w',
    cmd_epistle_new (NewFaults NoFault OpenFails NoFault) clk args w
    = (Returns (new_epistle clk args name), w')
    ∧ registry_of w' = [new_epistle clk args name].
Proof.
  intros Hlen.
  destruct (create_run OpenFails clk args w Hlen)
    as (name & L & w' & _ & _ & HL & Hrun & _ & _ & Hload & _).
  assert (L = []) as ->.
  { unfold _load_registry, read_file in HL.
    destruct (path_exists _ _); [destruct (files w !! registry_file)|];
      cbn in HL; by simplify_eq. }
  exists name, w'. split; [done|]. by apply load_registry_of in Hload.
Qed.

(** X9: AddContext looks the identifier up among the ids only: when no
    loaded record has that id, up to case, it prints that the epistle is not
    found and exits with status 1 without saving, also when the identifier
    is the beginning of a file name; no file changes. *)
Theorem add_context_unknown_id `{PyLib} (ft_load ft_save : fault)
    (args : ContextArgs.t) (w w1 : world) (epistles : list epistle) :
  _load_registry ft_load w = (Returns epistles, w1) →
  Forall (λ e, lower (id e) ≠ lower (ContextArgs.epistle_id args)) epistles →
  cmd_epistle_add_context ft_load ft_save args w
  = (Raises (SystemExit 1),
     eprint ("Epistle '" +:+ ContextArgs.epistle_id args +:+ "' not found") w1)
  ∧ files (cmd_epistle_add_context ft_load ft_save args w).2 = files w.
Proof.
  intros Hload Hnone.
  assert (cmd_epistle_add_context ft_load ft_save args w
          = (Raises (SystemExit 1),
             eprint ("Epistle '" +:+ ContextArgs.epistle_id args +:+ "' not found") w1))
    as Hrun.
  { unfold cmd_epistle_add_context, bind. rewrite Hload.
    destruct (list_find _ epistles) as [[i ep]|] eqn:Hfind; [|done].
    apply list_find_Some in Hfind as (Hi & Hid & _).
    rewrite Forall_forall in Hnone. destruct (Hnone ep); [|done].
    by eapply list_elem_of_lookup_2. }
  split; [done|]. rewrite Hrun. cbn.
  pose proof (load_frame ft_load w) as Hf. by rewrite Hload in Hf.
Qed.

(** X10: the loop of AddContext keeps what the context holds, in place
    and in order, and adds nothing twice: a context without duplicates stays
    without duplicates, and afterwards it holds exactly the old paths and
    the paths given. *)
Theorem add_context_keeps_nodup (ctx paths : list string) :
  NoDup ctx →
  NoDup (add_context ctx paths)
  ∧ ctx `prefix_of` add_context ctx paths
  ∧ ∀ p, p ∈ add_context ctx paths ↔ p ∈ ctx ∨ p ∈ paths.
Proof.
  intros Hnd. rewrite add_context_first_seen. split; [|split].
  - apply NoDup_app. split; [done|]. split; [|apply first_seen_NoDup].
    intros p Hp. rewrite first_seen_elem, list_elem_of_filter. tauto.
  - by eexists.
  - intros p. rewrite elem_of_app, first_seen_elem, list_elem_of_filter.
    destruct (decide (p ∈ ctx)); tauto.
Qed.

(** ** What a load makes of the text of the registry *)

Section LoadMore.
Context `{PyLib}.

Lemma load_lines_payload (lines : list string) (acc : list epistle) :
  load_lines lines acc = parse_all (PyStr.strip <$> List.filter nonblank lines) acc.
Proof.
  revert acc. induction lines as [|l lines IH]; intros acc; [done|].
  cbn [load_lines List.filter]. unfold nonblank at 1.
  destruct (PyStr.truthy (PyStr.strip l)); [|apply IH].
  rewrite fmap_cons. cbn [parse_all]. destruct (loads _); [apply IH|done].
Qed.

End LoadMore.

(** X11: a load only looks at the lines that are not blank, with the
    white space around them removed: two registry files that agree on these
    hold the same records, whatever their blank lines, indentation and line
    terminators. *)
Theorem registry_ignores_blank_lines `{PyLib} (w1 w2 : world) (t1 t2 : string) :
  files w1 !! registry_file = Some t1 →
  files w2 !! registry_file = Some t2 →
  payload t1 = payload t2 →
  registry_of w1 = registry_of w2.
Proof.
  intros H1 H2 Hpay. unfold registry_of, _load_registry, path_exists, read_file.
  rewrite H1, H2, !load_lines_payload. fold (payload t1) (payload t2). rewrite Hpay.
  by destruct (parse_all (payload t2) []) as [L []].
Qed.

Lemma readlines_crlf (s t : string) :
  PyStr.one_line s = true →
  PyStr.readlines (s +:+ String PyStr.CR (String PyStr.LF t))
  = (s +:+ PyStr.nl) :: PyStr.readlines t.
Proof.
  induction s as [|c s IH]; intros Hs; [done|].
  cbn in Hs. apply andb_prop in Hs as [[Hlf Hcr]%andb_prop Hs].
  rewrite !str_app_cons. cbn [PyStr.readlines].
  apply negb_true_iff in Hlf, Hcr. rewrite Hlf, Hcr. by rewrite (IH Hs).
Qed.

Section LineEndings.
Context `{HC : JsonContract}.

Lemma parse_all_dumps (X acc : list epistle) :
  parse_all (dumps <$> X) acc = (acc ++ X, true).
Proof.
  revert acc. induction X as [|ep X IH]; intros acc; [by rewrite app_nil_r|].
  rewrite fmap_cons. cbn [parse_all]. rewrite loads_dumps, IH. by rewrite <- app_assoc.
Qed.

Lemma payload_crlf (X : list epistle) :
  payload (String.concat ""
             ((λ ep, dumps ep +:+ String PyStr.CR (String PyStr.LF "")) <$> X))
  = dumps <$> X.
Proof.
  unfold payload. induction X as [|ep X IH]; [done|].
  rewrite fmap_cons, concat_cons, str_app_assoc.
  change (String PyStr.CR (String PyStr.LF "") +:+ ?t)
    with (String PyStr.CR (String PyStr.LF t)).
  rewrite readlines_crlf by apply dumps_one_line.
  cbn [List.filter]. fold (registry_line ep). unfold nonblank at 1.
  destruct (strip_registry_line ep) as [Hstrip Htruthy]. rewrite Hstrip, Htruthy.
  rewrite !fmap_cons, Hstrip. by rewrite <- IH.
Qed.

Lemma payload_joined (X : list epistle) :
  payload (String.concat PyStr.nl (dumps <$> X)) = dumps <$> X.
Proof.
  unfold payload. induction X as [|ep [|ep' X] IH]; [done| |].
  - cbn [fmap list_fmap String.concat]. destruct (dumps_braces ep) as [body Hb].
    rewrite readlines_one; [|apply dumps_one_line|by rewrite Hb].
    cbn [List.filter]. unfold nonblank. rewrite Hb, strip_braces_plain.
    rewrite !str_app_cons. cbn [PyStr.truthy fmap list_fmap].
    by rewrite <- !str_app_cons, strip_braces_plain.
  - rewrite (fmap_cons dumps ep). change (String.concat PyStr.nl (dumps ep :: ?l))
      with (match l with [] => dumps ep
            | _ => dumps ep +:+ PyStr.nl +:+ String.concat PyStr.nl l end).
    rewrite (fmap_cons dumps ep'). cbn match.
    rewrite <- (fmap_cons dumps ep'), readlines_line by apply dumps_one_line.
    cbn [List.filter]. fold (registry_line ep). unfold nonblank at 1.
    destruct (strip_registry_line ep) as [Hstrip Htruthy]. rewrite Hstrip, Htruthy.
    rewrite (fmap_cons PyStr.strip), Hstrip. by rewrite IH.
Qed.

Lemma load_payload (w : world) (text : string) (X : list epistle) :
  files w !! registry_file = Some text →
  payload text = dumps <$> X →
  _load_registry NoFault w = (Returns X, w).
Proof.
  intros Hf Hpay. unfold _load_registry, path_exists, read_file. rewrite Hf.
  rewrite load_lines_payload. fold (payload text). by rewrite Hpay, parse_all_dumps.
Qed.

End LineEndings.

(** X12: a registry whose lines end in CR LF loads like one whose lines
    end in LF: every record is read, without complaint. *)
Theorem load_tolerates_crlf `{HC : JsonContract} (X : list epistle) (w : world) :
  files w !! registry_file
  = Some (String.concat ""
            ((λ ep, dumps ep +:+ String PyStr.CR (String PyStr.LF "")) <$> X)) →
  _load_registry NoFault w = (Returns X, w).
Proof. intros Hf. eapply load_payload; [done|]. apply payload_crlf. Qed.

(** X13: the line terminator after the last record is not needed: a
    registry that holds the records joined by line feeds loads in full. *)
Theorem load_tolerates_missing_final_newline `{HC : JsonContract}
    (X : list epistle) (w : world) :
  files w !! registry_file = Some (String.concat PyStr.nl (dumps <$> X)) →
  _load_registry NoFault w = (Returns X, w).
Proof. intros Hf. eapply load_payload; [done|]. apply payload_joined. Qed.

(** ** Create, then Show *)

Lemma find_last {A} (p : A → bool) (l : list A) (x : A) :
  Forall (λ y, p y = false) l → p x = true → List.find p (l ++ [x]) = Some x.
Proof.
  intros Hl Hx. induction Hl as [|y l Hy _ IH]; cbn [app List.find].
  - by rewrite Hx.
  - by rewrite Hy.
Qed.

Section CreateShow.
Context `{HC : JsonContract}.

(** A call of Create whose document cannot be opened. *)
Lemma create_run_orphan (clk : clock) (args : NewArgs.t) (w : world) :
  2 ≤ length (PyStr.split "," (NewArgs.with_personas args)) →
  ∃ name w',
    (name ∉ dom (files w)) ∧ name ≠ registry_file
    ∧ cmd_epistle_new (NewFaults OpenFails NoFault NoFault) clk args w
      = (Returns (new_epistle clk args name), w')
    ∧ files w' !! name = None
    ∧ _load_registry NoFault w'
      = (Returns (registry_of w ++ [new_epistle clk args name]), w').
Proof.
  intros Hlen.
  destruct (cmd_epistle_new_record (NewFaults OpenFails NoFault NoFault) clk args w Hlen)
    as (name & Hfree & Hne & Hrun).
  set (ep := new_epistle clk args name) in *.
  set (w1 := eprint "Error writing epistle" w).
  assert (registry_of w1 = registry_of w) as Hsame by (by apply registry_of_same).
  destruct (load_returns NoFault w1) as (L & w2 & Hload & Hfiles2).
  rewrite (load_registry_of _ _ _ Hload) in Hsame. subst L.
  set (w3 := set_file registry_file
               (String.concat "" (registry_line <$> registry_of w ++ [ep])) w2).
  exists name, w3. split; [done|]. split; [done|]. split; [|split].
  - rewrite Hrun. unfold bind. cbn [nf_template nf_load nf_save].
    change (_write_epistle_template OpenFails name ep w) with (Returns (), w1).
    cbn match. by rewrite Hload.
  - cbn. rewrite lookup_insert_ne by done. rewrite Hfiles2. cbn.
    by apply not_elem_of_dom.
  - apply load_registry_text. cbn. by rewrite lookup_insert_eq.
Qed.

End CreateShow.

(** X14: after a Create that meets no fault, Show with the new id prints
    the document Create wrote, its line terminators read as LF: the text of
    the template itself when that holds no CR.  This is so provided no
    record that was in the registry before passes Show's test for that
    id. *)
Theorem create_then_show `{HC : JsonContract} (clk : clock) (args : NewArgs.t)
    (w : world) :
  2 ≤ length (PyStr.split "," (NewArgs.with_personas args)) →
  Forall (λ e, show_match (lower ("epistle-" +:+ pretty (time_time clk))) e = false)
    (registry_of w) →
  ∃ name w1,
    cmd_epistle_new no_faults clk args w = (Returns (new_epistle clk args name), w1)
    ∧ cmd_epistle_show NoFault NoFault (id (new_epistle clk args name)) w1
      = (Returns (new_epistle clk args name,
                  Some (PyStr.translate_newlines
                          (epistle_template (new_epistle clk args name)))), w1)
    ∧ (str_contains (String PyStr.CR "") (epistle_template (new_epistle clk args name))
       = false →
       PyStr.translate_newlines (epistle_template (new_epistle clk args name))
       = epistle_template (new_epistle clk args name)).
Proof.
  intros Hlen Hnone.
  destruct (create_run NoFault clk args w Hlen)
    as (name & L & w1 & _ & _ & HL & Hrun & Hdoc & _ & Hload & _).
  assert (registry_of w = L) as HLw by (unfold registry_of; by rewrite HL).
  subst L. exists name, w1. split; [done|]. split; [|apply translate_no_cr].
  unfold cmd_epistle_show, bind. rewrite Hload.
  rewrite (find_last _ _ (new_epistle clk args name)); [|done|].
  - unfold path_exists, read_text. cbn [file new_epistle]. by rewrite Hdoc.
  - unfold show_match. by rewrite String.eqb_refl.
Qed.

(** X15: after a Create whose document could not be opened, Show with the
    new id finds the record, reports that the epistle file is not found and
    returns normally (no exit), provided no record that was in the registry
    before passes Show's test for that id. *)
Theorem orphan_shows_as_missing `{HC : JsonContract} (ft_read : fault) (clk : clock)
    (args : NewArgs.t) (w : world) :
  2 ≤ length (PyStr.split "," (NewArgs.with_personas args)) →
  Forall (λ e, show_match (lower ("epistle-" +:+ pretty (time_time clk))) e = false)
    (registry_of w) →
  ∃ name w1,
    cmd_epistle_new (NewFaults OpenFails NoFault NoFault) clk args w
    = (Returns (new_epistle clk args name), w1)
    ∧ cmd_epistle_show NoFault ft_read (id (new_epistle clk args name)) w1
      = (Returns (new_epistle clk args name, None),
         eprint ("Epistle file not found: " +:+ name) w1).
Proof.
  intros Hlen Hnone.
  destruct (create_run_orphan clk args w Hlen)
    as (name & w1 & _ & _ & Hrun & Hdoc & Hload).
  exists name, w1. split; [done|].
  unfold cmd_epistle_show, bind. rewrite Hload.
  rewrite (find_last _ _ (new_epistle clk args name)); [|done|].
  - unfold path_exists. cbn [file new_epistle]. by rewrite Hdoc.
  - unfold show_match. by rewrite String.eqb_refl.
Qed.

(** X16: two Create calls that read the same second from the clock give
    two records with the same id and different files: the registry then
    holds an id twice. *)
Theorem same_second_same_id `{HC : JsonContract} (clk1 clk2 : clock)
    (args1 args2 : NewArgs.t) (w : world) :
  2 ≤ length (PyStr.split "," (NewArgs.with_personas args1)) →
  2 ≤ length (PyStr.split "," (NewArgs.with_personas args2)) →
  time_time clk1 = time_time clk2 →
  ∃ name1 name2 w1 w2,
    cmd_epistle_new no_faults clk1 args1 w
    = (Returns (new_epistle clk1 args1 name1), w1)
    ∧ cmd_epistle_new no_faults clk2 args2 w1
      = (Returns (new_epistle clk2 args2 name2), w2)
    ∧ registry_of w2
      = registry_of w ++ [new_epistle clk1 args1 name1; new_epistle clk2 args2 name2]
    ∧ id (new_epistle clk1 args1 name1) = id (new_epistle clk2 args2 name2)
    ∧ name1 ≠ name2.
Proof.
  intros Hlen1 Hlen2 Htime.
  destruct (create_run NoFault clk1 args1 w Hlen1)
    as (name1 & L1 & w1 & _ & _ & HL1 & Hrun1 & Hdoc1 & _ & Hload1 & _).
  destruct (create_run NoFault clk2 args2 w1 Hlen2)
    as (name2 & L2 & w2 & Hfree2 & _ & HL2 & Hrun2 & _ & _ & Hload2 & _).
  assert (registry_of w = L1) as <- by (unfold registry_of; by rewrite HL1).
  rewrite Hload1 in HL2. cbn [fst] in HL2. injection HL2 as <-.
  exists name1, name2, w1, w2. do 2 (split; [done|]). split; [|split].
  - rewrite (load_registry_of _ _ _ Hload2). by rewrite <- app_assoc.
  - cbn [id new_epistle]. by rewrite Htime.
  - intros <-. apply Hfree2, elem_of_dom. by eexists.
Qed.

(** ** Rewriting a damaged registry *)

Section Damaged.
Context `{HC : JsonContract}.

Lemma registry_of_malformed (w : world) (text : string) (pre post : list string)
    (bad : string) (records : list epistle) :
  files w !! registry_file = Some text →
  PyStr.readlines text = pre ++ bad :: post →
  Forall2 (λ l r, loads (PyStr.strip l) = Some r) (List.filter nonblank pre) records →
  nonblank bad = true →
  loads (PyStr.strip bad) = None →
  registry_of w = records.
Proof.
  intros Hf Hlines Hpre Hbad Hnone.
  unfold registry_of, _load_registry, path_exists, read_file. rewrite Hf, Hlines.
  rewrite load_lines_app, (load_lines_parsed pre records []) by done.
  cbn [load_lines app]. unfold nonblank in Hbad. by rewrite Hbad, Hnone.
Qed.

(** The file after a save that failed when [k] bytes had reached it. *)
Lemma save_failed_file (k : nat) (X : list epistle) (w : world) :
  files (_save_registry (FailsAfter k) X w).2 !! registry_file
  = Some (String.substring 0 k (String.concat "" (registry_line <$> X))).
Proof. cbn. by rewrite lookup_insert_eq. Qed.

Lemma save_cut_between (X1 X2 : list epistle) (w : world) :
  files (_save_registry
           (FailsAfter (String.length (String.concat "" (registry_line <$> X1))))
           (X1 ++ X2) w).2 !! registry_file
  = Some (String.concat "" (registry_line <$> X1)).
Proof.
  rewrite save_failed_file, fmap_app, concat_app, substring_app_le by done.
  by rewrite substring_all.
Qed.

Lemma save_cut_inside (X1 X2 : list epistle) (ep : epistle) (i : nat) (w : world) :
  i ≤ String.length (dumps ep) →
  files (_save_registry
           (FailsAfter (String.length (String.concat "" (registry_line <$> X1)) + i))
           (X1 ++ ep :: X2) w).2 !! registry_file
  = Some (String.concat "" (registry_line <$> X1)
          +:+ String.substring 0 i (dumps ep)).
Proof.
  intros Hi. rewrite save_failed_file, fmap_app, concat_app, substring_app_ge by lia.
  rewrite Nat.add_comm, Nat.add_sub, fmap_cons, concat_cons.
  change (registry_line ep) with (dumps ep +:+ PyStr.nl).
  by rewrite str_app_assoc, substring_app_le.
Qed.

End Damaged.

(** X17: a Create after a malformed line makes the loss final: the
    registry is rewritten from what the load returned, and a load of the
    new registry returns, without complaint, the records that stood before
    the malformed line and the new record; the malformed line and every
    line after it are gone. *)
Theorem create_drops_lines_after_malformed `{HC : JsonContract} (clk : clock)
    (args : NewArgs.t) (w : world) (text : string) (pre post : list string)
    (bad : string) (records : list epistle) :
  2 ≤ length (PyStr.split "," (NewArgs.with_personas args)) →
  files w !! registry_file = Some text →
  PyStr.readlines text = pre ++ bad :: post →
  Forall2 (λ l r, loads (PyStr.strip l) = Some r) (List.filter nonblank pre) records →
  nonblank bad = true →
  loads (PyStr.strip bad) = None →
  ∃ name w',
    cmd_epistle_new no_faults clk args w = (Returns (new_epistle clk args name), w')
    ∧ _load_registry NoFault w'
      = (Returns (records ++ [new_epistle clk args name]), w').
Proof.
  intros Hlen Hf Hlines Hpre Hbad Hnone.
  destruct (create_run NoFault clk args w Hlen)
    as (name & L & w' & _ & _ & HL & Hrun & _ & _ & Hload & _).
  assert (registry_of w = L) as HLw by (unfold registry_of; by rewrite HL).
  rewrite (registry_of_malformed w text pre post bad records) in HLw by done.
  subst L. by exists name, w'.
Qed.

(** X18: what a load makes of the registry after a save that failed.
    When the save stopped between two lines, the load returns the records
    of the lines written, without complaint.  When it stopped inside the
    line of a record, the load returns the records before that one and
    complains: the cut line is no JSON text. *)
Theorem failed_save_reads_back_prefix `{HC : JsonContract} (X1 X2 : list epistle)
    (ep : epistle) (i : nat) (w : world) :
  0 < i < String.length (dumps ep) →
  (∃ w',
     _save_registry
       (FailsAfter (String.length (String.concat "" (registry_line <$> X1))))
       (X1 ++ ep :: X2) w = (Returns (), w')
     ∧ _load_registry NoFault w' = (Returns X1, w'))
  ∧ (∃ w',
       _save_registry
         (FailsAfter (String.length (String.concat "" (registry_line <$> X1)) + i))
         (X1 ++ ep :: X2) w = (Returns (), w')
       ∧ _load_registry NoFault w'
         = (Returns X1, eprint "Error loading registry" w')).
Proof.
  intros Hi. split.
  - pose proof (save_cut_between X1 (ep :: X2) w) as Hf.
    destruct (save_returns
      (FailsAfter (String.length (String.concat "" (registry_line <$> X1))))
      (X1 ++ ep :: X2) w) as [w' Hsave].
    rewrite Hsave in Hf. cbn [snd] in Hf. exists w'. split; [done|].
    by apply load_registry_text.
  - pose proof (save_cut_inside X1 X2 ep i w) as Hf.
    destruct (save_returns
      (FailsAfter (String.length (String.concat "" (registry_line <$> X1)) + i))
      (X1 ++ ep :: X2) w) as [w' Hsave].
    rewrite Hsave in Hf. cbn [snd] in Hf. exists w'. split; [done|].
    unfold _load_registry, path_exists, read_file. rewrite Hf by lia.
    by rewrite load_cut_inside.
Qed.

(** X19: Show with the empty identifier takes the first record of the
    registry, whatever it is: every file name starts with the empty
    string. *)
Theorem show_empty_identifier `{PyLib} (ft_load ft_read : fault) (w w1 : world)
    (e : epistle) (epistles : list epistle) :
  lower "" = "" →
  _load_registry ft_load w = (Returns (e :: epistles), w1) →
  ∃ text, (cmd_epistle_show ft_load ft_read "" w).1 = Returns (e, text).
Proof.
  intros Hlower Hload. unfold cmd_epistle_show, bind. rewrite Hload, Hlower.
  cbn [List.find]. unfold show_match at 1, PyStr.startswith.
  assert (String.prefix "" (lower (file e)) = true) as ->
    by (by destruct (lower (file e))).
  rewrite orb_true_r.
  destruct (path_exists _ _); [destruct (read_text _ _ _)|]; by eexists.
Qed.

(** ** The slug of the personas *)

Lemma no_space_app (a b : string) :
  str_contains " " (a +:+ b) = str_contains " " a || str_contains " " b.
Proof.
  induction a as [|c a IH].
  - rewrite str_app_nil_l. by destruct b.
  - rewrite str_app_cons. cbn [str_contains String.prefix]. rewrite IH.
    destruct (ascii_dec " " c); [|done].
    assert (∀ x, String.prefix "" x = true) as Hnil by (by intros []).
    by rewrite !Hnil.
Qed.

Lemma no_space_replace (s : string) :
  str_contains " " (PyStr.replace " " "-" s) = false.
Proof.
  induction s as [|c s IH]; [done|]. cbn [PyStr.replace str_contains String.prefix].
  rewrite IH, orb_false_r. destruct (Ascii.eqb_spec c " ") as [->|Hne]; [done|].
  destruct (ascii_dec " " c) as [<-|]; [done|done].
Qed.

(** X20: the slug Create makes of the personas holds no space, whatever
    the personas are. *)
Theorem persona_slug_has_no_space `{PyLib} (personas : list string) :
  str_contains " " (persona_slug personas) = false.
Proof.
  unfold persona_slug, PyStr.join.
  induction personas as [|p [|q personas] IH]; [done| |].
  - cbn [fmap list_fmap String.concat]. apply no_space_replace.
  - rewrite (fmap_cons _ p). set (rest := _ <$> q :: personas) in *.
    assert (String.concat "_" (PyStr.replace " " "-" (lower p) :: rest)
            = PyStr.replace " " "-" (lower p) +:+ "_" +:+ String.concat "_" rest) as ->.
    { unfold rest. by rewrite fmap_cons. }
    by rewrite !no_space_app, no_space_replace, IH.
Qed.

(** * Further concrete runs, with [ascii_lib] *)

Section MoreRuns.
#[local] Existing Instance ascii_lib.

Import Sample.

Lemma search_persona_agrees_with_list_witness :
  PyStr.split "," "Alice" = ["Alice"]
  ∧ PyStr.strip "Alice" = "Alice"
  ∧ ∃ rows found w1,
      cmd_epistle_list NoFault (ListArgs.Make (Some "Alice") None)
        (store [alice_bob; carol_dan]) = (Returns rows, w1)
      ∧ cmd_epistle_search NoFault (SearchArgs.Make None (Some "Alice") None)
          (store [alice_bob; carol_dan]) = (Returns found, w1)
      ∧ rows ≡ₚ found.
Proof.
  split; [reflexivity|]. split; [reflexivity|].
  exact (search_persona_agrees_with_list NoFault "Alice" (store [alice_bob; carol_dan])
           eq_refl eq_refl).
Defined.

Example search_filters :
  (cmd_epistle_search NoFault (SearchArgs.Make (Some "x") None None)
     (store [alice_bob; carol_dan; erin_frank])).1 = Returns [alice_bob]
  ∧ (cmd_epistle_search NoFault (SearchArgs.Make None (Some " dan ,ERIN") None)
       (store [alice_bob; carol_dan; erin_frank])).1 = Returns [carol_dan; erin_frank]
  ∧ (cmd_epistle_search NoFault (SearchArgs.Make None None (Some "K2"))
       (store [alice_bob; carol_dan; erin_frank])).1 = Returns [carol_dan]
  ∧ (cmd_epistle_search NoFault (SearchArgs.Make None None (Some " k2"))
       (store [alice_bob; carol_dan; erin_frank])).1 = Returns []
  ∧ (cmd_epistle_search NoFault
       (SearchArgs.Make None (Some ("dan" +:+ nbsp +:+ "," +:+ emsp +:+ "Erin")) None)
       (store [alice_bob; carol_dan; erin_frank])).1 = Returns [carol_dan; erin_frank]
  ∧ (cmd_epistle_list NoFault (ListArgs.Make (Some (nbsp +:+ "Alice")) None)
       (store [alice_bob; carol_dan; erin_frank])).1 = Returns []
  ∧ (cmd_epistle_search NoFault (SearchArgs.Make None (Some (nbsp +:+ "Alice")) None)
       (store [alice_bob; carol_dan; erin_frank])).1 = Returns [alice_bob].
Proof. vm_compute. by repeat split. Qed.

Lemma create_keeps_other_files_witness :
  "notes.md" ∈ dom (files (set_file "notes.md" "n" (store [alice_bob])))
  ∧ "notes.md" ≠ registry_file
  ∧ files (cmd_epistle_new (NewFaults (FailsAfter 0) OpenFails (FailsAfter 0)) clk args
             (set_file "notes.md" "n" (store [alice_bob]))).2 !! "notes.md"
    = files (set_file "notes.md" "n" (store [alice_bob])) !! "notes.md".
Proof.
  assert ("notes.md" ∈ dom (files (set_file "notes.md" "n" (store [alice_bob])))) as Hin.
  { apply elem_of_dom. exists "n". cbn. apply lookup_insert_eq. }
  assert ("notes.md" ≠ registry_file) as Hne by done.
  split; [exact Hin|]. split; [exact Hne|].
  exact (create_keeps_other_files _ clk args _ "notes.md" Hin Hne).
Defined.

Lemma create_appends_witness :
  @JsonContract ascii_lib
  ∧ 2 ≤ length (PyStr.split "," (NewArgs.with_personas args))
  ∧ ∃ name w',
      cmd_epistle_new no_faults clk args (store [carol_dan])
      = (Returns (new_epistle clk args name), w')
      ∧ (name ∉ dom (files (store [carol_dan])))
      ∧ files w' !! name = Some (epistle_template (new_epistle clk args name))
      ∧ _load_registry NoFault w'
        = (Returns (registry_of (store [carol_dan]) ++ [new_epistle clk args name]), w').
Proof.
  assert (2 ≤ length (PyStr.split "," (NewArgs.with_personas args))) as Hlen
    by (vm_compute; lia).
  split; [exact ascii_contract|]. split; [exact Hlen|].
  exact (@create_appends ascii_lib ascii_contract clk args (store [carol_dan]) Hlen).
Defined.

Lemma create_after_failed_load_witness :
  @JsonContract ascii_lib
  ∧ 2 ≤ length (PyStr.split "," (NewArgs.with_personas args))
  ∧ ∃ name w',
      cmd_epistle_new (NewFaults NoFault OpenFails NoFault) clk args
        (store [carol_dan; erin_frank])
      = (Returns (new_epistle clk args name), w')
      ∧ registry_of w' = [new_epistle clk args name].
Proof.
  assert (2 ≤ length (PyStr.split "," (NewArgs.with_personas args))) as Hlen
    by (vm_compute; lia).
  split; [exact ascii_contract|]. split; [exact Hlen|].
  exact (@create_after_failed_load ascii_lib ascii_contract clk args
           (store [carol_dan; erin_frank]) Hlen).
Defined.

Lemma add_context_unknown_id_witness :
  _load_registry NoFault (store [alice_bob]) = (Returns [alice_bob], store [alice_bob])
  ∧ Forall (λ e, lower (id e) ≠ lower "alice_bob") [alice_bob]
  ∧ cmd_epistle_add_context NoFault NoFault
      (ContextArgs.Make "alice_bob" (Some ["a.md"])) (store [alice_bob])
    = (Raises (SystemExit 1),
       eprint ("Epistle '" +:+ "alice_bob" +:+ "' not found") (store [alice_bob]))
  ∧ files (cmd_epistle_add_context NoFault NoFault
             (ContextArgs.Make "alice_bob" (Some ["a.md"])) (store [alice_bob])).2
    = files (store [alice_bob]).
Proof.
  assert (_load_registry NoFault (store [alice_bob])
          = (Returns [alice_bob], store [alice_bob])) as Hload
    by (vm_compute; reflexivity).
  assert (Forall (λ e, lower (id e) ≠ lower "alice_bob") [alice_bob]) as Hnone.
  { constructor; [|constructor]. intros Heq. vm_compute in Heq. discriminate. }
  split; [exact Hload|]. split; [exact Hnone|].
  exact (add_context_unknown_id NoFault NoFault
           (ContextArgs.Make "alice_bob" (Some ["a.md"])) _ _ _ Hload Hnone).
Defined.

Lemma add_context_keeps_nodup_witness :
  NoDup ["a.md"; "b.md"]
  ∧ NoDup (add_context ["a.md"; "b.md"] ["b.md"; "c.md"; "c.md"])
  ∧ ["a.md"; "b.md"] `prefix_of` add_context ["a.md"; "b.md"] ["b.md"; "c.md"; "c.md"]
  ∧ ∀ p, p ∈ add_context ["a.md"; "b.md"] ["b.md"; "c.md"; "c.md"]
         ↔ p ∈ ["a.md"; "b.md"] ∨ p ∈ ["b.md"; "c.md"; "c.md"].
Proof.
  assert (NoDup ["a.md"; "b.md"]) as Hnd.
  { apply NoDup_cons. split; [|apply NoDup_singleton].
    intros Hin%list_elem_of_singleton. discriminate. }
  split; [exact Hnd|].
  exact (add_context_keeps_nodup ["a.md"; "b.md"] ["b.md"; "c.md"; "c.md"] Hnd).
Defined.

Lemma registry_ignores_blank_lines_witness :
  files (store [alice_bob]) !! registry_file
  = Some (String.concat "" (registry_line <$> [alice_bob]))
  ∧ files (World {[ registry_file :=
                      PyStr.nl +:+ "  " +:+ dumps alice_bob +:+ " "
                      +:+ String PyStr.CR PyStr.nl +:+ PyStr.nl ]} [])
      !! registry_file
    = Some (PyStr.nl +:+ "  " +:+ dumps alice_bob +:+ " "
            +:+ String PyStr.CR PyStr.nl +:+ PyStr.nl)
  ∧ payload (String.concat "" (registry_line <$> [alice_bob]))
    = payload (PyStr.nl +:+ "  " +:+ dumps alice_bob +:+ " "
               +:+ String PyStr.CR PyStr.nl +:+ PyStr.nl)
  ∧ registry_of (store [alice_bob])
    = registry_of (World {[ registry_file :=
                              PyStr.nl +:+ "  " +:+ dumps alice_bob +:+ " "
                              +:+ String PyStr.CR PyStr.nl +:+ PyStr.nl ]} []).
Proof.
  assert (files (store [alice_bob]) !! registry_file
          = Some (String.concat "" (registry_line <$> [alice_bob]))) as H1
    by (vm_compute; reflexivity).
  assert (files (World {[ registry_file :=
                      PyStr.nl +:+ "  " +:+ dumps alice_bob +:+ " "
                      +:+ String PyStr.CR PyStr.nl +:+ PyStr.nl ]} [])
            !! registry_file
          = Some (PyStr.nl +:+ "  " +:+ dumps alice_bob +:+ " "
                  +:+ String PyStr.CR PyStr.nl +:+ PyStr.nl)) as H2
    by (vm_compute; reflexivity).
  assert (payload (String.concat "" (registry_line <$> [alice_bob]))
          = payload (PyStr.nl +:+ "  " +:+ dumps alice_bob +:+ " "
                     +:+ String PyStr.CR PyStr.nl +:+ PyStr.nl)) as H3
    by (vm_compute; reflexivity).
  split; [exact H1|]. split; [exact H2|]. split; [exact H3|].
  exact (registry_ignores_blank_lines _ _ _ _ H1 H2 H3).
Defined.

Lemma load_tolerates_crlf_witness :
  @JsonContract ascii_lib
  ∧ files (World {[ registry_file :=
                      String.concat ""
                        ((λ ep, dumps ep +:+ String PyStr.CR (String PyStr.LF ""))
                           <$> [alice_bob; carol_dan]) ]} []) !! registry_file
    = Some (String.concat ""
              ((λ ep, dumps ep +:+ String PyStr.CR (String PyStr.LF ""))
                 <$> [alice_bob; carol_dan]))
  ∧ _load_registry NoFault
      (World {[ registry_file :=
                  String.concat ""
                    ((λ ep, dumps ep +:+ String PyStr.CR (String PyStr.LF ""))
                       <$> [alice_bob; carol_dan]) ]} [])
    = (Returns [alice_bob; carol_dan],
       World {[ registry_file :=
                  String.concat ""
                    ((λ ep, dumps ep +:+ String PyStr.CR (String PyStr.LF ""))
                       <$> [alice_bob; carol_dan]) ]} []).
Proof.
  assert (files (World {[ registry_file :=
                      String.concat ""
                        ((λ ep, dumps ep +:+ String PyStr.CR (String PyStr.LF ""))
                           <$> [alice_bob; carol_dan]) ]} []) !! registry_file
          = Some (String.concat ""
                    ((λ ep, dumps ep +:+ String PyStr.CR (String PyStr.LF ""))
                       <$> [alice_bob; carol_dan]))) as Hf
    by apply lookup_singleton_eq.
  split; [exact ascii_contract|]. split; [exact Hf|].
  exact (@load_tolerates_crlf ascii_lib ascii_contract [alice_bob; carol_dan] _ Hf).
Defined.

Lemma load_tolerates_missing_final_newline_witness :
  @JsonContract ascii_lib
  ∧ files (World {[ registry_file :=
                      String.concat PyStr.nl (dumps <$> [alice_bob; carol_dan]) ]} [])
      !! registry_file
    = Some (String.concat PyStr.nl (dumps <$> [alice_bob; carol_dan]))
  ∧ _load_registry NoFault
      (World {[ registry_file :=
                  String.concat PyStr.nl (dumps <$> [alice_bob; carol_dan]) ]} [])
    = (Returns [alice_bob; carol_dan],
       World {[ registry_file :=
                  String.concat PyStr.nl (dumps <$> [alice_bob; carol_dan]) ]} []).
Proof.
  assert (files (World {[ registry_file :=
                      String.concat PyStr.nl (dumps <$> [alice_bob; carol_dan]) ]} [])
            !! registry_file
          = Some (String.concat PyStr.nl (dumps <$> [alice_bob; carol_dan]))) as Hf
    by apply lookup_singleton_eq.
  split; [exact ascii_contract|]. split; [exact Hf|].
  exact (@load_tolerates_missing_final_newline ascii_lib ascii_contract
           [alice_bob; carol_dan] _ Hf).
Defined.

Lemma create_then_show_witness :
  @JsonContract ascii_lib
  ∧ 2 ≤ length (PyStr.split "," (NewArgs.with_personas args))
  ∧ Forall (λ e, show_match (lower ("epistle-" +:+ pretty (time_time clk))) e = false)
      (registry_of (store [carol_dan]))
  ∧ ∃ name w1,
      cmd_epistle_new no_faults clk args (store [carol_dan])
      = (Returns (new_epistle clk args name), w1)
      ∧ cmd_epistle_show NoFault NoFault (id (new_epistle clk args name)) w1
        = (Returns (new_epistle clk args name,
                    Some (PyStr.translate_newlines
                            (epistle_template (new_epistle clk args name)))), w1)
      ∧ (str_contains (String PyStr.CR "")
           (epistle_template (new_epistle clk args name)) = false →
         PyStr.translate_newlines (epistle_template (new_epistle clk args name))
         = epistle_template (new_epistle clk args name)).
Proof.
  assert (2 ≤ length (PyStr.split "," (NewArgs.with_personas args))) as Hlen
    by (vm_compute; lia).
  assert (Forall (λ e, show_match (lower ("epistle-" +:+ pretty (time_time clk))) e
                       = false) (registry_of (store [carol_dan]))) as Hnone.
  { replace (registry_of (store [carol_dan])) with [carol_dan]
      by (vm_compute; reflexivity).
    constructor; [vm_compute; reflexivity|constructor]. }
  split; [exact ascii_contract|]. split; [exact Hlen|]. split; [exact Hnone|].
  exact (@create_then_show ascii_lib ascii_contract clk args (store [carol_dan])
           Hlen Hnone).
Defined.

Lemma orphan_shows_as_missing_witness :
  @JsonContract ascii_lib
  ∧ 2 ≤ length (PyStr.split "," (NewArgs.with_personas args))
  ∧ Forall (λ e, show_match (lower ("epistle-" +:+ pretty (time_time clk))) e = false)
      (registry_of (store [carol_dan]))
  ∧ ∃ name w1,
      cmd_epistle_new (NewFaults OpenFails NoFault NoFault) clk args (store [carol_dan])
      = (Returns (new_epistle clk args name), w1)
      ∧ cmd_epistle_show NoFault NoFault (id (new_epistle clk args name)) w1
        = (Returns (new_epistle clk args name, None),
           eprint ("Epistle file not found: " +:+ name) w1).
Proof.
  assert (2 ≤ length (PyStr.split "," (NewArgs.with_personas args))) as Hlen
    by (vm_compute; lia).
  assert (Forall (λ e, show_match (lower ("epistle-" +:+ pretty (time_time clk))) e
                       = false) (registry_of (store [carol_dan]))) as Hnone.
  { replace (registry_of (store [carol_dan])) with [carol_dan]
      by (vm_compute; reflexivity).
    constructor; [vm_compute; reflexivity|constructor]. }
  split; [exact ascii_contract|]. split; [exact Hlen|]. split; [exact Hnone|].
  exact (@orphan_shows_as_missing ascii_lib ascii_contract NoFault clk args
           (store [carol_dan]) Hlen Hnone).
Defined.

Lemma same_second_same_id_witness :
  @JsonContract ascii_lib
  ∧ 2 ≤ length (PyStr.split "," (NewArgs.with_personas args))
  ∧ 2 ≤ length (PyStr.split "," (NewArgs.with_personas args_carol))
  ∧ time_time clk = time_time clk
  ∧ ∃ name1 name2 w1 w2,
      cmd_epistle_new no_faults clk args empty
      = (Returns (new_epistle clk args name1), w1)
      ∧ cmd_epistle_new no_faults clk args_carol w1
        = (Returns (new_epistle clk args_carol name2), w2)
      ∧ registry_of w2
        = registry_of empty
          ++ [new_epistle clk args name1; new_epistle clk args_carol name2]
      ∧ id (new_epistle clk args name1) = id (new_epistle clk args_carol name2)
      ∧ name1 ≠ name2.
Proof.
  assert (2 ≤ length (PyStr.split "," (NewArgs.with_personas args))) as Hlen1
    by (vm_compute; lia).
  assert (2 ≤ length (PyStr.split "," (NewArgs.with_personas args_carol))) as Hlen2
    by (vm_compute; lia).
  split; [exact ascii_contract|]. split; [exact Hlen1|]. split; [exact Hlen2|].
  split; [reflexivity|].
  exact (@same_second_same_id ascii_lib ascii_contract clk clk args args_carol empty
           Hlen1 Hlen2 eq_refl).
Defined.

Lemma create_drops_lines_after_malformed_witness :
  @JsonContract ascii_lib
  ∧ 2 ≤ length (PyStr.split "," (NewArgs.with_personas args_carol))
  ∧ files broken_store !! registry_file = Some broken_text
  ∧ PyStr.readlines broken_text
    = [indented_line; PyStr.nl; blank_line] ++ bad_line :: [registry_line carol_dan]
  ∧ Forall2 (λ l r, loads (PyStr.strip l) = Some r)
      (List.filter nonblank [indented_line; PyStr.nl; blank_line]) [alice_bob]
  ∧ nonblank bad_line = true
  ∧ loads (PyStr.strip bad_line) = None
  ∧ ∃ name w',
      cmd_epistle_new no_faults clk2 args_carol broken_store
      = (Returns (new_epistle clk2 args_carol name), w')
      ∧ _load_registry NoFault w'
        = (Returns ([alice_bob] ++ [new_epistle clk2 args_carol name]), w').
Proof.
  assert (2 ≤ length (PyStr.split "," (NewArgs.with_personas args_carol))) as Hlen
    by (vm_compute; lia).
  assert (files broken_store !! registry_file = Some broken_text) as H1
    by apply lookup_singleton_eq.
  assert (PyStr.readlines broken_text
          = [indented_line; PyStr.nl; blank_line] ++ bad_line
              :: [registry_line carol_dan]) as H2 by (vm_compute; reflexivity).
  assert (Forall2 (λ l r, loads (PyStr.strip l) = Some r)
            (List.filter nonblank [indented_line; PyStr.nl; blank_line]) [alice_bob])
    as H3.
  { assert (List.filter nonblank [indented_line; PyStr.nl; blank_line]
            = [indented_line]) as -> by (vm_compute; reflexivity).
    constructor; [vm_compute; reflexivity|constructor]. }
  assert (nonblank bad_line = true) as H4 by (vm_compute; reflexivity).
  assert (loads (PyStr.strip bad_line) = None) as H5 by (vm_compute; reflexivity).
  split; [exact ascii_contract|]. split; [exact Hlen|]. split; [exact H1|].
  split; [exact H2|]. split; [exact H3|]. split; [exact H4|]. split; [exact H5|].
  exact (@create_drops_lines_after_malformed ascii_lib ascii_contract clk2 args_carol
           broken_store _ _ _ _ _ Hlen H1 H2 H3 H4 H5).
Defined.

Lemma failed_save_reads_back_prefix_witness :
  @JsonContract ascii_lib
  ∧ 0 < 10 < String.length (dumps erin_frank)
  ∧ (∃ w',
       _save_registry
         (FailsAfter (String.length (String.concat "" (registry_line <$> [carol_dan]))))
         ([carol_dan] ++ erin_frank :: []) (store [alice_bob]) = (Returns (), w')
       ∧ _load_registry NoFault w' = (Returns [carol_dan], w'))
  ∧ (∃ w',
       _save_registry
         (FailsAfter
            (String.length (String.concat "" (registry_line <$> [carol_dan])) + 10))
         ([carol_dan] ++ erin_frank :: []) (store [alice_bob]) = (Returns (), w')
       ∧ _load_registry NoFault w'
         = (Returns [carol_dan], eprint "Error loading registry" w')).
Proof.
  assert (0 < 10 < String.length (dumps erin_frank)) as Hi by (vm_compute; lia).
  split; [exact ascii_contract|]. split; [exact Hi|].
  exact (@failed_save_reads_back_prefix ascii_lib ascii_contract [carol_dan] []
           erin_frank 10 (store [alice_bob]) Hi).
Defined.

(** A save that stopped right before the terminator of a line: the line
    is read all the same. *)
Example failed_save_before_terminator :
  let k := String.length (registry_line carol_dan) + String.length (dumps erin_frank) in
  let w' := (_save_registry (FailsAfter k) [carol_dan; erin_frank] (store [alice_bob])).2 in
  _load_registry NoFault w' = (Returns [carol_dan; erin_frank], w').
Proof. vm_compute. reflexivity. Qed.

(** A document whose topic holds a CR: Show prints a LF in its place. *)
Example show_reads_cr_as_lf :
  let w1 := (cmd_epistle_new no_faults clk args_cr empty).2 in
  match (cmd_epistle_show NoFault NoFault "epistle-1761652800" w1).1,
        files w1 !! "alice_bob_20251028T120000.md" with
  | Returns (_, Some text), Some written =>
      text = PyStr.translate_newlines written ∧ String.eqb text written = false
  | _, _ => False
  end.
Proof. vm_compute. by split. Qed.

Lemma show_empty_identifier_witness :
  lower "" = ""
  ∧ _load_registry NoFault (store [alice_bob; carol_dan])
    = (Returns (alice_bob :: [carol_dan]), store [alice_bob; carol_dan])
  ∧ ∃ text, (cmd_epistle_show NoFault NoFault "" (store [alice_bob; carol_dan])).1
            = Returns (alice_bob, text).
Proof.
  assert (_load_registry NoFault (store [alice_bob; carol_dan])
          = (Returns (alice_bob :: [carol_dan]), store [alice_bob; carol_dan])) as Hload
    by (vm_compute; reflexivity).
  split; [reflexivity|]. split; [exact Hload|].
  exact (show_empty_identifier NoFault NoFault _ _ alice_bob [carol_dan] eq_refl Hload).
Defined.

End MoreRuns.
